(** * plot_circos: the two circos renderers, embedded and checked against their description

    Sources: [plot_circos_cancer_drivers.py] (function [plot_circos]) and
    [plot_circos_hla.py] (function [plot_circos_hla]).

    Both functions are straight-line Python over three collaborators: pandas
    (the table), numpy (max, min, ceil, floor, arange) and pycirclize (the
    circular layout).  The embedding keeps the statements of the two functions
    in their order and gives each collaborator call the meaning its library
    documents:

    - a table is a header and rows of cells; a cell is a string, a number or
      the missing value;
    - the renderers compute with exact rationals and [nan]; the arithmetic of
      the axis bounds and of the tick labels (lines 85, 115, 124 and 146) is
      given a second time in binary64, in the modules [B64],
      [CancerDriversB64] and [HlaB64], and what is claimed of those lines is
      proved of the binary64 reading;
    - Python exceptions are values of [exn], a statement that raises ends the
      call;
    - the drawing calls of pycirclize are recorded, in order, in a figure; the
      range checks pycirclize performs inside its drawing calls are not
      modelled, so a call that succeeds here may still be refused by the
      library, while a call that raises here raises in Python too, at the same
      statement or before it. *)

From Stdlib Require Import List String Ascii Bool Arith ZArith QArith Qround
  Qpower Qabs Qcanon Qminmax Lia Lqa Permutation Sorted DecimalString.
From Stdlib Require Floats.
Import ListNotations.

Local Open Scope string_scope.
Local Open Scope list_scope.
Local Open Scope Z_scope.

(** ** Python: exceptions, results, list indexing *)

Inductive exn : Type :=
| FileNotFoundError (path : string)
| KeyError (key : string)
| UnboundLocalError (var : string)
| TypeError
| ValueError (msg : string)
| IndexError
| OverflowError.

Inductive result (A : Type) : Type :=
| Ok (a : A)
| Raise (e : exn).

Arguments Ok {A} a.
Arguments Raise {A} e.

Definition rbind {A B} (r : result A) (k : A -> result B) : result B :=
  match r with
  | Ok a => k a
  | Raise e => Raise e
  end.

(** [l[i]] on a Python list: indices [-len .. len-1] are valid, a negative
    index counts from the end, anything else raises [IndexError]. *)
Definition py_getitem {A} (l : list A) (i : Z) : result A :=
  let len := Z.of_nat (List.length l) in
  let j := if i <? 0 then i + len else i in
  if (j <? 0) || (len <=? j) then Raise IndexError
  else match nth_error l (Z.to_nat j) with
       | Some a => Ok a
       | None => Raise IndexError
       end.

(** [int(x)] truncates toward zero, [str(n)] prints in decimal. *)
Definition py_int (q : Q) : Z := Z.quot (Qnum q) (Zpos (Qden q)).

Definition py_str (n : Z) : string := NilZero.string_of_int (Z.to_int n).

(** ** pandas: cells, series, data frames *)

Inductive cell : Type :=
| NaN
| Str (s : string)
| Num (q : Qc).

Definition Series := list cell.

Definition cell_eq_dec (a b : cell) : {a = b} + {a <> b}.
Proof.
  decide equality; [apply string_dec | apply Qc_eq_dec].
Defined.

Definition isna (c : cell) : bool :=
  match c with
  | NaN => true
  | _ => false
  end.

(** Elementwise [==]: the missing value equals nothing, itself included. *)
Definition cell_eqb (a b : cell) : bool :=
  negb (isna a) && if cell_eq_dec a b then true else false.

(** A frame as [read_csv] leaves it: the header line and one list of cells
    per data line.  A line shorter than the header reads as missing values. *)
Record DataFrame : Type := {
  columns : list string;
  rows : list (list cell)
}.

Fixpoint get_loc (c : string) (names : list string) : option nat :=
  match names with
  | [] => None
  | n :: names' =>
      if string_dec c n then Some O
      else option_map S (get_loc c names')
  end.

Definition iloc (i : nat) (row : list cell) : cell := nth i row NaN.

(** [df[c]]: the column named [c], or [KeyError(c)]. *)
Definition getitem (df : DataFrame) (c : string) : result Series :=
  match get_loc c (columns df) with
  | Some i => Ok (map (iloc i) (rows df))
  | None => Raise (KeyError c)
  end.

(** [df[df[c] == v]]: the rows whose cell in column [c] equals [v]. *)
Definition where_eq (df : DataFrame) (c : string) (v : cell) : result DataFrame :=
  match get_loc c (columns df) with
  | Some i =>
      Ok {| columns := columns df;
            rows := filter (fun r => cell_eqb (iloc i r) v) (rows df) |}
  | None => Raise (KeyError c)
  end.

(** [Series.value_counts()] with its defaults [sort=True, ascending=False,
    dropna=True]: the hash table counts the non-missing cells, keeping keys in
    order of first appearance; the counts are then sorted in descending
    order.  pandas sorts with quicksort and leaves the order of equal counts
    open; [sort_values] below keeps equal counts in order of first
    appearance, and no statement proved here depends on that choice. *)
Fixpoint bump (k : cell) (table : list (cell * nat)) : list (cell * nat) :=
  match table with
  | [] => [(k, 1%nat)]
  | (k', n) :: table' =>
      if cell_eq_dec k k' then (k', S n) :: table'
      else (k', n) :: bump k table'
  end.

Definition value_count_step (table : list (cell * nat)) (c : cell) :=
  if isna c then table else bump c table.

Definition value_count (s : Series) : list (cell * nat) :=
  fold_left value_count_step s [].

Fixpoint insert_desc (p : cell * nat) (l : list (cell * nat)) : list (cell * nat) :=
  match l with
  | [] => [p]
  | q :: l' =>
      if (snd q <=? snd p)%nat then p :: q :: l'
      else q :: insert_desc p l'
  end.

Definition sort_values (l : list (cell * nat)) : list (cell * nat) :=
  fold_right insert_desc [] l.

(** [.value_counts().to_dict()]: a dict keeps insertion order. *)
Definition value_counts (s : Series) : list (cell * nat) :=
  sort_values (value_count s).

(** The two notions the description uses for a column: its distinct values in
    order of first appearance and the number of its distinct values. *)
Fixpoint first_seen (s : Series) : list cell :=
  match s with
  | [] => []
  | c :: s' =>
      c :: filter (fun d => if cell_eq_dec d c then false else true) (first_seen s')
  end.

(** The count a key has in a table of counts, 0 when it is not a key. *)
Fixpoint count_of (k : cell) (table : list (cell * nat)) : nat :=
  match table with
  | [] => O
  | (k', n) :: table' => if cell_eq_dec k k' then n else count_of k table'
  end.

Definition dropna (s : Series) : Series := filter (fun c => negb (isna c)) s.

Definition nunique (s : Series) : nat := List.length (nodup cell_eq_dec s).

(** ** numpy: reductions, rounding, arange *)

(** The numbers of the exact reading: an exact rational or [nan]. *)
Inductive float64 : Type :=
| nan
| fin (q : Q).

Definition fmap (f : Q -> Q) (x : float64) : float64 :=
  match x with
  | nan => nan
  | fin q => fin (f q)
  end.

Definition fadd (x : float64) (c : Q) : float64 := fmap (fun q => q + c)%Q x.
Definition fsub (x : float64) (c : Q) : float64 := fmap (fun q => q - c)%Q x.
Definition fmul (x : float64) (c : Q) : float64 := fmap (fun q => q * c)%Q x.
Definition fdiv (x : float64) (c : Q) : float64 := fmap (fun q => q / c)%Q x.

Definition np_ceil : float64 -> float64 := fmap (fun q => inject_Z (Qceiling q)).
Definition np_floor : float64 -> float64 := fmap (fun q => inject_Z (Qfloor q)).

(** The numbers of a series.  [np.max(series)] and [np.min(series)] call the
    series' own reduction, which skips missing values; a column that holds
    text makes the reduction, or the division that follows it, raise
    [TypeError]. *)
Fixpoint to_numeric (s : Series) : result (list Q) :=
  match s with
  | [] => Ok []
  | NaN :: s' => to_numeric s'
  | Str _ :: _ => Raise TypeError
  | Num q :: s' =>
      match to_numeric s' with
      | Ok l => Ok (this q :: l)
      | Raise _ => Raise TypeError
      end
  end.

Definition maximum (l : list Q) : float64 :=
  match l with
  | [] => nan
  | x :: l' => fin (fold_left Qmax l' x)
  end.

Definition minimum (l : list Q) : float64 :=
  match l with
  | [] => nan
  | x :: l' => fin (fold_left Qmin l' x)
  end.

Definition np_max (s : Series) : result float64 :=
  rbind (to_numeric s) (fun l => Ok (maximum l)).

Definition np_min (s : Series) : result float64 :=
  rbind (to_numeric s) (fun l => Ok (minimum l)).

(** [np.arange(start, stop, step)]: [ceil((stop - start) / step)] values
    [start + i * step].  A zero step makes the length infinite and numpy
    raises [ValueError("Maximum allowed size exceeded")]; a length that is not
    a number raises [ValueError] too; a length below one gives the empty
    array. *)
Definition zero_step : exn := ValueError "Maximum allowed size exceeded".
Definition no_length : exn := ValueError "arange: cannot compute length".

Definition np_arange (start stop step : float64) : result (list Q) :=
  match start, stop, step with
  | fin a, fin b, fin s =>
      if Qeq_bool s 0 then
        if Qeq_bool (b - a) 0 then Raise no_length else Raise zero_step
      else
        let len := Qceiling ((b - a) / s) in
        Ok (map (fun i => a + inject_Z (Z.of_nat i) * s)%Q (seq 0 (Z.to_nat len)))
  | _, _, _ => Raise no_length
  end.

(** ** pycirclize: sectors, tracks and the recorded figure *)

Record Sector : Type := {
  name : cell;
  size : nat
}.

(** [Circos(sectors, space, start, end)]: one sector per dict entry, laid out
    around the circle in the order of the dict. *)
Record Circos : Type := {
  sectors : list Sector;
  space : Z;
  start : Z;
  end_ : Z
}.

Definition new_Circos (d : list (cell * nat)) (space start end_ : Z) : Circos :=
  {| sectors := map (fun kv => {| name := fst kv; size := snd kv |}) d;
     space := space; start := start; end_ := end_ |}.

Record Track : Type := {
  parent : Sector;
  r_lim : Z * Z;
  r_pad_ratio : Q
}.

(** [track.end] and [track.size]: a sector's x axis runs from 0 to its size. *)
Definition track_size (t : Track) : Z := Z.of_nat (size (parent t)).
Definition track_end (t : Track) : Q := inject_Z (track_size t).

(** [ColorCycler(n)] is the n-th colour of the active colour map; a string
    names a colour. *)
Inductive color : Type :=
| ColorCycler (n : Z)
| named (s : string).

Inductive draw : Type :=
| add_track (t : Track)
| axis (t : Track) (fc : option color) (ec : color)
| text (t : Track) (txt : cell) (x : option Q) (r : option Z) (fontsize : Z)
| xticks (t : Track) (x : list Q) (labels : Series) (ec : color)
| yticks (t : Track) (y : list float64) (labels : list string) (vmin vmax : float64)
| grid (t : Track) (y_grid_num : Z)
| bar (t : Track) (x : list Q) (height : Series) (vmin vmax : float64) (width : Q) (c : color)
| heatmap (t : Track) (data : Series) (vmin vmax : Z) (cmap : string) (ec : color)
| rect (t : Track) (start end_ : Z) (fc ec : color)
| circos_text (txt : string) (r deg fontsize : Z).

Definition figure := list draw.

(** The drawing monad: the figure so far is threaded through the statements,
    a raised exception drops it. *)
Definition M (A : Type) : Type := figure -> result (A * figure).

Definition ret {A} (a : A) : M A := fun fig => Ok (a, fig).

Definition bind {A B} (m : M A) (k : A -> M B) : M B :=
  fun fig =>
    match m fig with
    | Ok (a, fig') => k a fig'
    | Raise e => Raise e
    end.

Definition lift {A} (r : result A) : M A :=
  fun fig =>
    match r with
    | Ok a => Ok (a, fig)
    | Raise e => Raise e
    end.

Definition emit (d : draw) : M unit := fun fig => Ok (tt, fig ++ [d]).

(** Reading a local variable that only a loop body assigns. *)
Definition local {A} (var : string) (v : option A) : M A :=
  match v with
  | Some a => ret a
  | None => lift (Raise (UnboundLocalError var))
  end.

Notation "x <- m ;; k" := (bind m (fun x => k))
  (at level 61, m at next level, right associativity).
Notation "m ;;; k" := (bind m (fun _ => k))
  (at level 61, right associativity).

(** [x = np.arange(n)] and [x + 0.4]. *)
Definition arange_nat (n : nat) : list Q :=
  map (fun i => inject_Z (Z.of_nat i)) (seq 0 n).

Definition shift (c : Q) (x : list Q) : list Q := map (fun q => q + c)%Q x.

(** What a call leaves behind: the document [savefig] writes. *)
Record document : Type := {
  plotted : Circos;
  cmap : string;
  drawn : figure;
  format : string;
  dpi : Z
}.

(** The world of a call: what [read_csv] finds at a path, and the files
    written so far. *)
Record world : Type := {
  files : list (string * DataFrame);
  written : list (string * document)
}.

Fixpoint find_file (file_path : string) (fs : list (string * DataFrame))
  : option DataFrame :=
  match fs with
  | [] => None
  | (p, df) :: fs' => if string_dec file_path p then Some df else find_file file_path fs'
  end.

Definition read_csv (w : world) (file_path : string) : result DataFrame :=
  match find_file file_path (files w) with
  | Some df => Ok df
  | None => Raise (FileNotFoundError file_path)
  end.

Definition savefig (w : world) (file_name : string) (doc : document) : world :=
  {| files := files w; written := written w ++ [(file_name, doc)] |}.

(** A parameter of a Python signature and its default, if it has one. *)
Inductive pyvalue : Type :=
| PyStr (s : string)
| PyInt (n : Z).

Definition signature := list (string * option pyvalue).

Fixpoint default_of (p : string) (sig : signature) : option (option pyvalue) :=
  match sig with
  | [] => None
  | (p', d) :: sig' => if string_dec p p' then Some d else default_of p sig'
  end.

(** ** plot_circos_cancer_drivers.py *)

Module CancerDrivers.

Record options : Type := {
  palette : string;
  track_1_data : string;
  track_2_data : string;
  bar_pal_start : Z;
  hmap_pal_start : Z;
  plot_title : string;
  track_2_label : string;
  file_name : string
}.

(** The [def] line: [file_path] has no default, every other parameter has. *)
Definition parameters : signature :=
  [ ("file_path", None);
    ("palette", Some (PyStr "Set3"));
    ("track_1_data", Some (PyStr "Cancer_type"));
    ("track_2_data", Some (PyStr "Tumors"));
    ("bar_pal_start", Some (PyInt 2));
    ("hmap_pal_start", Some (PyInt (-1)));
    ("plot_title", Some (PyStr EmptyString));
    ("track_2_label", Some (PyStr EmptyString));
    ("file_name", Some (PyStr "plot.pdf")) ].

(** A call that passes [file_path] only. *)
Definition defaults : options :=
  {| palette := "Set3";
     track_1_data := "Cancer_type";
     track_2_data := "Tumors";
     bar_pal_start := 2;
     hmap_pal_start := -1;
     plot_title := EmptyString;
     track_2_label := EmptyString;
     file_name := "plot.pdf" |}.

Definition pal_list : list string :=
  ["Reds"; "Greens"; "YlOrBr"; "Blues"; "Reds"; "Purples"; "Greys"].

(** Lines 56-67: the cancer type track. *)
Fixpoint cancer_type_track (ss : list Sector) (col_1 : Z) (track1 : option Track)
  : M (option Track) :=
  match ss with
  | [] => ret track1
  | sector :: ss' =>
      let col_1 := col_1 + 1 in
      let track1 := {| parent := sector; r_lim := (94, 100); r_pad_ratio := 0 |} in
      emit (add_track track1) ;;;
      emit (axis track1 (Some (ColorCycler col_1)) (named "lightgrey")) ;;;
      emit (text track1 (name sector) None None 10) ;;;
      cancer_type_track ss' col_1 (Some track1)
  end.

(** Lines 123-124: the ticks of the y axis and their labels. *)
Definition yticks_positions (vmax2 : float64) : list float64 :=
  [fin 0; fdiv vmax2 2; vmax2].

Definition yticks_labels (vmax2 : float64) : result (list string) :=
  rbind (np_arange (fin 0) (fadd vmax2 1) (fdiv vmax2 2))
        (fun values => Ok (map (fun value => py_str (py_int value)) values)).

(** Lines 91-145: the tumor frequency track. *)
Fixpoint tumor_frequency_track (df : DataFrame) (o : options)
    (rounded_max_value : float64) (ss : list Sector) (col_2 : Z)
    (track2 : option Track) : M (option Track) :=
  match ss with
  | [] => ret track2
  | sector :: ss' =>
      let col_2 := col_2 + 1 in
      let track2 := {| parent := sector; r_lim := (66, 48); r_pad_ratio := 1 # 10 |} in
      emit (add_track track2) ;;;
      filtered_df1 <- lift (where_eq df (track_1_data o) (name sector)) ;;
      let x := arange_nat (size sector) in
      y <- lift (getitem filtered_df1 (track_2_data o)) ;;
      let vmax2 := rounded_max_value in
      labels <- lift (getitem filtered_df1 "query") ;;
      emit (xticks track2 (shift (4 # 10) x) labels (ColorCycler col_2)) ;;;
      ylabels <- lift (yticks_labels vmax2) ;;
      emit (yticks track2 (yticks_positions vmax2) ylabels (fin 0) vmax2) ;;;
      emit (grid track2 5) ;;;
      emit (axis track2 None (named "None")) ;;;
      emit (bar track2 x y (fin 0) vmax2 (75 # 100) (ColorCycler col_2)) ;;;
      tumor_frequency_track df o rounded_max_value ss' col_2 (Some track2)
  end.

(** Lines 172-192: the driver status track. *)
Fixpoint driver_status_track (df : DataFrame) (o : options)
    (ss : list Sector) (col_pal : Z) (track3 : option Track)
  : M (option Track) :=
  match ss with
  | [] => ret track3
  | sector :: ss' =>
      let col_pal := col_pal + 1 in
      let track3 := {| parent := sector; r_lim := (44, 46); r_pad_ratio := 0 |} in
      emit (add_track track3) ;;;
      filtered_df2 <- lift (where_eq df (track_1_data o) (name sector)) ;;
      data <- lift (getitem filtered_df2 "driver") ;;
      cmap <- lift (py_getitem pal_list col_pal) ;;
      emit (heatmap track3 data 0 1 cmap (named "lightgrey")) ;;;
      driver_status_track df o ss' col_pal (Some track3)
  end.

(** Lines 41-44: the sectors and the layout built from them. *)
Definition layout (df : DataFrame) (o : options) : result Circos :=
  rbind (getitem df (track_1_data o))
        (fun counted => Ok (new_Circos (value_counts counted) 7 0 360)).

(** Line 85. *)
Definition rounded_max_value (max_value : float64) : float64 :=
  fmul (np_ceil (fdiv max_value 10)) 10.

(** Lines 41-244: everything between reading the table and [plotfig]. *)
Definition compose (df : DataFrame) (o : options) : M Circos :=
  circos <- lift (layout df o) ;;
  track1 <- cancer_type_track (sectors circos) (bar_pal_start o) None ;;
  track1 <- local "track1" track1 ;;
  emit (text track1 (Str "A") (Some (track_end track1 + (8 # 10))%Q) (Some 96) 7) ;;;
  max_value <- lift (rbind (getitem df (track_2_data o)) np_max) ;;
  let rounded_max_value := rounded_max_value max_value in
  track2 <- tumor_frequency_track df o rounded_max_value (sectors circos)
              (bar_pal_start o) None ;;
  track2 <- local "track2" track2 ;;
  emit (text track2 (Str "B") (Some (track_end track2 + (8 # 10))%Q) (Some 68) 7) ;;;
  track3 <- driver_status_track df o (sectors circos) (hmap_pal_start o) None ;;
  track3 <- local "track3" track3 ;;
  emit (text track3 (Str "C") (Some (track_end track3 + (8 # 10))%Q) (Some 45) 7) ;;;
  emit (circos_text "A: Cancer type" 106 180 8) ;;;
  emit (circos_text (track_2_label o) 108 180 8) ;;;
  emit (circos_text "C: Driver gene status" 110 180 8) ;;;
  emit (circos_text (plot_title o) 110 0 14) ;;;
  ret circos.

(** Lines 37-249. *)
Definition plot_circos (w : world) (file_path : string) (o : options)
  : result unit * world :=
  match rbind (read_csv w file_path) (fun df => compose df o []) with
  | Ok (circos, fig) =>
      let doc := {| plotted := circos; cmap := palette o; drawn := fig;
                    format := "pdf"; dpi := 300 |} in
      (Ok tt, savefig w (file_name o) doc)
  | Raise e => (Raise e, w)
  end.

End CancerDrivers.

(** ** plot_circos_hla.py *)

Module Hla.

Record options : Type := {
  palette : string;
  track_1_data : string;
  track_2_data : string;
  track_3_data : string;
  track_3_labels : string;
  pal_start : Z;
  plot_title : string;
  file_name : string
}.

(** The [def] line: the column names default to the empty string. *)
Definition parameters : signature :=
  [ ("file_path", None);
    ("palette", Some (PyStr "Set3"));
    ("track_1_data", Some (PyStr EmptyString));
    ("track_2_data", Some (PyStr EmptyString));
    ("track_3_data", Some (PyStr EmptyString));
    ("track_3_labels", Some (PyStr EmptyString));
    ("pal_start", Some (PyInt 0));
    ("plot_title", Some (PyStr EmptyString));
    ("file_name", Some (PyStr "plot.pdf")) ].

(** A call that passes [file_path] only. *)
Definition defaults : options :=
  {| palette := "Set3";
     track_1_data := EmptyString;
     track_2_data := EmptyString;
     track_3_data := EmptyString;
     track_3_labels := EmptyString;
     pal_start := 0;
     plot_title := EmptyString;
     file_name := "plot.pdf" |}.

(** Lines 56-67: the category track. *)
Fixpoint cancer_type_track (ss : list Sector) (col_1 : Z) (track1 : option Track)
  : M (option Track) :=
  match ss with
  | [] => ret track1
  | sector :: ss' =>
      let col_1 := col_1 + 1 in
      let track1 := {| parent := sector; r_lim := (94, 100); r_pad_ratio := 0 |} in
      emit (add_track track1) ;;;
      emit (axis track1 (Some (ColorCycler col_1)) (named "lightgrey")) ;;;
      emit (text track1 (name sector) None None 10) ;;;
      cancer_type_track ss' col_1 (Some track1)
  end.

(** Lines 88-100: one rectangle and its text per unit of the track. *)
Fixpoint rectangles (track1 : Track) (length_list : Series) (col_3 : Z)
    (range : list nat) : M unit :=
  match range with
  | [] => ret tt
  | i :: range' =>
      let start := Z.of_nat i in
      let end_ := Z.of_nat i + 1 in
      emit (rect track1 start end_ (ColorCycler col_3) (named "white")) ;;;
      txt <- lift (py_getitem length_list (Z.of_nat i)) ;;
      emit (text track1 txt (Some ((inject_Z end_ + inject_Z start) / 2)%Q) None 6) ;;;
      rectangles track1 length_list col_3 range'
  end.

(** Lines 83-100: the peptide length track. *)
Fixpoint peptide_length_track (df : DataFrame) (o : options)
    (ss : list Sector) (col_3 : Z) (track1 : option Track)
  : M (option Track) :=
  match ss with
  | [] => ret track1
  | sector :: ss' =>
      let track1 := {| parent := sector; r_lim := (91, 84); r_pad_ratio := 0 |} in
      emit (add_track track1) ;;;
      filtered_df2 <- lift (where_eq df (track_1_data o) (name sector)) ;;
      length_list <- lift (getitem filtered_df2 (track_2_data o)) ;;
      let col_3 := col_3 + 1 in
      rectangles track1 length_list col_3 (seq 0 (Z.to_nat (track_size track1))) ;;;
      peptide_length_track df o ss' col_3 (Some track1)
  end.

(** Lines 144-147: the ticks of the y axis and their labels. *)
Definition yticks_positions (vmin vmax : float64) : list float64 :=
  [vmax; fdiv vmin 2; vmin].

Definition yticks_labels (vmin : float64) : result (list string) :=
  rbind (np_arange (fin 0) (fsub vmin 1) (fdiv vmin 2))
        (fun values => Ok (map (fun value => py_str (py_int value)) values)).

(** Lines 120-165: the affinity track. *)
Fixpoint affinity_track (df : DataFrame) (o : options)
    (vmin vmax : float64) (ss : list Sector) (col_2 : Z)
    (track : option Track) : M (option Track) :=
  match ss with
  | [] => ret track
  | sector :: ss' =>
      let track := {| parent := sector; r_lim := (66, 48); r_pad_ratio := 1 # 10 |} in
      emit (add_track track) ;;;
      let col_2 := col_2 + 1 in
      filtered_df <- lift (where_eq df (track_1_data o) (name sector)) ;;
      let x := arange_nat (size sector) in
      y <- lift (getitem filtered_df (track_3_data o)) ;;
      labels <- lift (getitem filtered_df (track_3_labels o)) ;;
      emit (xticks track (shift (4 # 10) x) labels (ColorCycler col_2)) ;;;
      ylabels <- lift (yticks_labels vmin) ;;
      emit (yticks track (yticks_positions vmin vmax) ylabels vmin vmax) ;;;
      emit (grid track 5) ;;;
      emit (axis track None (named "None")) ;;;
      emit (bar track x y vmin vmax (75 # 100) (ColorCycler col_2)) ;;;
      affinity_track df o vmin vmax ss' col_2 (Some track)
  end.

(** Lines 41-44: the sectors and the layout built from them. *)
Definition layout (df : DataFrame) (o : options) : result Circos :=
  rbind (getitem df (track_1_data o))
        (fun counted => Ok (new_Circos (value_counts counted) 7 4 360)).

(** Line 115. *)
Definition rounded_min_value (min_value : float64) : float64 :=
  fmul (np_floor (fdiv min_value 10)) 10.

(** Lines 41-226: everything between reading the table and [plotfig]. *)
Definition compose (df : DataFrame) (o : options) : M Circos :=
  circos <- lift (layout df o) ;;
  track1 <- cancer_type_track (sectors circos) (pal_start o) None ;;
  track1' <- local "track1" track1 ;;
  emit (text track1' (Str "A") (Some (track_end track1' + (65 # 100))%Q) (Some 96) 7) ;;;
  track1 <- peptide_length_track df o (sectors circos) (pal_start o) track1 ;;
  track1 <- local "track1" track1 ;;
  emit (text track1 (Str "B") (Some (track_end track1 + (65 # 100))%Q) (Some 86) 7) ;;;
  min_value <- lift (rbind (getitem df (track_3_data o)) np_min) ;;
  let rounded_min_value := rounded_min_value min_value in
  let vmin := rounded_min_value in
  let vmax := fin 0 in
  track <- affinity_track df o vmin vmax (sectors circos) (pal_start o) None ;;
  track <- local "track" track ;;
  emit (text track (Str "C") (Some (track_end track + (65 # 100))%Q) (Some 72) 7) ;;;
  emit (text track (Str "D") (Some (track_end track + (65 # 100))%Q) (Some 58) 7) ;;;
  emit (circos_text "A: HLA" 105 180 8) ;;;
  emit (circos_text "B: Length" 109 180 8) ;;;
  emit (circos_text "C: Peptide" 113 180 8) ;;;
  emit (circos_text "D: HLA arena binding energy" 117 180 8) ;;;
  ret circos.

(** Lines 37-231. *)
Definition plot_circos_hla (w : world) (file_path : string) (o : options)
  : result unit * world :=
  match rbind (read_csv w file_path) (fun df => compose df o []) with
  | Ok (circos, fig) =>
      let doc := {| plotted := circos; cmap := palette o; drawn := fig;
                    format := "pdf"; dpi := 300 |} in
      (Ok tt, savefig w (file_name o) doc)
  | Raise e => (Raise e, w)
  end.

End Hla.

(** ** Vocabulary of the statements *)

(** Descending order of counts, on table entries and on sectors. *)
Definition desc (p q : cell * nat) : Prop := (snd q <= snd p)%nat.

Definition larger_first (a b : Sector) : Prop := (size b <= size a)%nat.

Definition total_size (ss : list Sector) : nat := list_sum (map size ss).

(** What both layouts hold, for a category column [counted]. *)
Record sectors_of (counted : Series) (ss : list Sector) : Prop := {
  names_distinct : NoDup (map name ss);
  names_exact : forall k, In k (map name ss) <-> In k counted /\ k <> NaN;
  names_perm : Permutation (map name ss) (first_seen (dropna counted));
  sizes_count : forall sec, In sec ss -> size sec = count_occ cell_eq_dec counted (name sec);
  sizes_positive : Forall (fun sec => 0 < size sec)%nat ss;
  sizes_sorted : StronglySorted larger_first ss;
  sizes_total : total_size ss = List.length (dropna counted);
  sectors_number : List.length ss = nunique (dropna counted)
}.

(** ** Sample tables *)

Definition txt (x : string) : cell := Str x.
Definition num (z : Z) : cell := Num (Q2Qc (inject_Z z)).

(** Three rows, the category seen first is the rarer one. *)
Definition df_abb : DataFrame :=
  {| columns := ["Cancer_type"; "Tumors"; "query"; "driver"];
     rows := [ [txt "a"; num 5; txt "g1"; num 1];
               [txt "b"; num 12; txt "g2"; num 0];
               [txt "b"; num 30; txt "g3"; num 1] ] |}.

(** Two rows, the second without a category. *)
Definition df_missing : DataFrame :=
  {| columns := ["Cancer_type"; "Tumors"; "query"; "driver"];
     rows := [ [txt "a"; num 5; txt "g1"; num 1];
               [NaN; num 12; txt "g2"; num 0] ] |}.

Definition hla_options (c1 c2 c3 labels : string) : Hla.options :=
  {| Hla.palette := "Set3";
     Hla.track_1_data := c1;
     Hla.track_2_data := c2;
     Hla.track_3_data := c3;
     Hla.track_3_labels := labels;
     Hla.pal_start := 0;
     Hla.plot_title := EmptyString;
     Hla.file_name := "plot.pdf" |}.

Definition on_disk (df : DataFrame) : world :=
  {| files := [("in.tsv", df)]; written := [] |}.

(** The text [str(int(x))] of a tick position. *)
Definition tick_text (x : float64) : option string :=
  match x with
  | fin q => Some (py_str (py_int q))
  | nan => None
  end.

(** ** Reading a figure back *)

(** The fill colours of the category ring, the colours of the bars, and the
    colour scales of the heatmap cells, in drawing order. *)
Definition fill_colors (fig : figure) : list color :=
  flat_map (fun d => match d with
                     | axis _ (Some c) _ => [c]
                     | _ => []
                     end) fig.

Definition bar_colors (fig : figure) : list color :=
  flat_map (fun d => match d with
                     | bar _ _ _ _ _ _ c => [c]
                     | _ => []
                     end) fig.

Definition heatmap_cmaps (fig : figure) : list string :=
  flat_map (fun d => match d with
                     | heatmap _ _ _ _ cmap _ => [cmap]
                     | _ => []
                     end) fig.

(** The cursor values of a loop that starts at [start] and adds one per
    sector before it draws: [start + 1], ..., for [n] sectors. *)
Definition cursor (start : Z) (n : nat) : list Z :=
  map (fun k => start + 1 + Z.of_nat k) (seq 0 n).

(** The columns a call reads, in the order it first reads them. *)
Definition drivers_columns (o : CancerDrivers.options) : list string :=
  [CancerDrivers.track_1_data o; CancerDrivers.track_2_data o; "query"; "driver"].

Definition hla_columns (o : Hla.options) : list string :=
  [Hla.track_1_data o; Hla.track_2_data o; Hla.track_3_data o; Hla.track_3_labels o].

Definition has_column (df : DataFrame) (c : string) : Prop :=
  get_loc c (columns df) <> None.

(** ** More sample tables *)


(** A header and no data line. *)
Definition df_header_only : DataFrame :=
  {| columns := ["Cancer_type"]; rows := [] |}.

(** Frequencies whose maximum is 0. *)
Definition df_zero : DataFrame :=
  {| columns := ["Cancer_type"; "Tumors"; "query"; "driver"];
     rows := [ [txt "a"; num 0; txt "g1"; num 1];
               [txt "b"; num (-3); txt "g2"; num 0] ] |}.

(** Eight categories, one row each. *)
Definition df_eight : DataFrame :=
  {| columns := ["Cancer_type"; "Tumors"; "query"; "driver"];
     rows := map (fun c => [txt c; num 5; txt "g"; num 1])
               ["c1"; "c2"; "c3"; "c4"; "c5"; "c6"; "c7"; "c8"] |}.

(** Peptides of two alleles, with negative binding energies. *)
Definition df_hla : DataFrame :=
  {| columns := ["hla"; "len"; "energy"; "pep"];
     rows := [ [txt "A1"; num 9; num (-25); txt "p1"];
               [txt "B7"; num 10; num (-12); txt "p2"];
               [txt "B7"; num 9; num (-3); txt "p3"] ] |}.

(** The same peptides with energies between 0 and 10. *)
Definition df_hla_zero : DataFrame :=
  {| columns := ["hla"; "len"; "energy"; "pep"];
     rows := [ [txt "A1"; num 9; num 5; txt "p1"];
               [txt "B7"; num 10; num 3; txt "p2"] ] |}.

Definition hla_named : Hla.options := hla_options "hla" "len" "energy" "pep".

(** ** What a call does about its columns *)



(** ** More ways to read a figure *)

(** Every series handed to a drawing call of a track has one entry per unit
    of the track's sector. *)
Definition aligned (d : draw) : Prop :=
  match d with
  | xticks t x labels _ =>
      List.length x = size (parent t) /\ List.length labels = size (parent t)
  | bar t x height _ _ _ _ =>
      List.length x = size (parent t) /\ List.length height = size (parent t)
  | heatmap t data _ _ _ _ => List.length data = size (parent t)
  | _ => True
  end.

(** The heights of the bar series, the fill colours of the rectangles, and
    the texts written in the middle of a track (no position given). *)
Definition bar_heights (fig : figure) : list Series :=
  flat_map (fun d => match d with
                     | bar _ _ height _ _ _ _ => [height]
                     | _ => []
                     end) fig.

Definition rect_colors (fig : figure) : list color :=
  flat_map (fun d => match d with
                     | rect _ _ _ fc _ => [fc]
                     | _ => []
                     end) fig.

Definition sector_labels (fig : figure) : list cell :=
  flat_map (fun d => match d with
                     | text _ txt None None _ => [txt]
                     | _ => []
                     end) fig.

(** The value a loop leaves in the variable it assigns a new track to in
    each round: the track of the last sector, or what the variable held. *)
Definition last_track (r_lim : Z * Z) (r_pad_ratio : Q) (ss : list Sector)
    (before : option Track) : option Track :=
  fold_left (fun _ sector =>
               Some {| parent := sector; r_lim := r_lim; r_pad_ratio := r_pad_ratio |})
            ss before.

(** The rectangles and texts drawn for the rows of one sector. *)
Definition row_marks (track1 : Track) (length_list : Series) (col_3 : Z)
    (i : nat) : figure :=
  [ rect track1 (Z.of_nat i) (Z.of_nat i + 1) (ColorCycler col_3) (named "white");
    text track1 (nth i length_list NaN)
      (Some ((inject_Z (Z.of_nat i + 1) + inject_Z (Z.of_nat i)) / 2)%Q) None 6 ].

(** One colour per sector, repeated once per row of the sector. *)
Definition colors_by_row (start : Z) (ss : list Sector) : list color :=
  flat_map (fun p => repeat (ColorCycler (fst p)) (size (snd p)))
           (combine (cursor start (List.length ss)) ss).

(** ** Sample tables with text where numbers belong *)

Definition df_text_frequency : DataFrame :=
  {| columns := ["Cancer_type"; "Tumors"; "query"; "driver"];
     rows := [ [txt "a"; txt "many"; txt "g1"; num 1] ] |}.

Definition df_text_energy : DataFrame :=
  {| columns := ["hla"; "len"; "energy"; "pep"];
     rows := [ [txt "A1"; num 9; txt "low"; txt "p1"] ] |}.

(** A data line without a category. *)
Definition df_no_category : DataFrame :=
  {| columns := ["Cancer_type"; "Tumors"; "query"; "driver"];
     rows := [ [NaN; num 5; txt "g1"; num 1] ] |}.

(** The cells of [vals] on the rows where [keys] holds [v], in table order. *)
Definition cells_of (v : cell) (keys vals : Series) : Series :=
  map snd (filter (fun p => cell_eqb (fst p) v) (combine keys vals)).

(** The rows of [df_hla] for the allele B7. *)
Definition df_hla_B7 : DataFrame :=
  {| columns := ["hla"; "len"; "energy"; "pep"];
     rows := [ [txt "B7"; num 10; num (-12); txt "p2"];
               [txt "B7"; num 9; num (-3); txt "p3"] ] |}.

(** ** The value axis of a track *)

(** A call that draws against a value axis ([yticks], [bar]) is given the
    range [lo .. hi], and every cell of a bar series satisfies [fits]. *)
Definition on_axis (lo hi : float64) (fits : cell -> Prop) (d : draw) : Prop :=
  match d with
  | yticks _ _ _ vmin vmax => vmin = lo /\ vmax = hi
  | bar _ _ height vmin vmax _ _ => vmin = lo /\ vmax = hi /\ Forall fits height
  | _ => True
  end.

Definition at_most (v : Q) (c : cell) : Prop :=
  match c with
  | Num q => (this q <= v)%Q
  | _ => True
  end.

Definition at_least (v : Q) (c : cell) : Prop :=
  match c with
  | Num q => (v <= this q)%Q
  | _ => True
  end.

(** The options of a call of [plot_circos_hla] with another [plot_title]. *)
Definition hla_retitled (o : Hla.options) (title : string) : Hla.options :=
  {| Hla.palette := Hla.palette o;
     Hla.track_1_data := Hla.track_1_data o;
     Hla.track_2_data := Hla.track_2_data o;
     Hla.track_3_data := Hla.track_3_data o;
     Hla.track_3_labels := Hla.track_3_labels o;
     Hla.pal_start := Hla.pal_start o;
     Hla.plot_title := title;
     Hla.file_name := Hla.file_name o |}.

(** ** Where the series of a track come from *)

(** The labels of the x ticks and the heights of the bars of a track are
    the cells of the columns [labels] and [heights] on the rows of the
    track's sector, in table order. *)
Definition from_rows (counted labels heights : Series) (d : draw) : Prop :=
  match d with
  | xticks t _ l _ => l = cells_of (name (parent t)) counted labels
  | bar t _ h _ _ _ _ => h = cells_of (name (parent t)) counted heights
  | _ => True
  end.

(** The same for the cells of a heatmap and the column [cells]. *)
Definition heat_from_rows (counted cells : Series) (d : draw) : Prop :=
  match d with
  | heatmap t data _ _ _ _ => data = cells_of (name (parent t)) counted cells
  | _ => True
  end.

Definition drivers_rows (counted labels heights cells : Series) (d : draw) : Prop :=
  from_rows counted labels heights d /\ heat_from_rows counted cells d.
(** ** numpy in binary64 *)

(** The renderers above compute with exact rationals.  This part gives the
    arithmetic of lines 84-85, 114-115, 124 and 146 the meaning it has in
    numpy: every operation computes the exact result and rounds it to the
    nearest binary64 number, ties to the even mantissa; results of magnitude
    [2^1024] and more are infinite.  The sign of a zero is not kept: the
    programs never look at it. *)
Module B64.

Definition pow2 (e : Z) : Q := (2 ^ e)%Q.

(** [floor (log2 x)] for a positive [x]. *)
Definition ilog2 (x : Q) : Z :=
  let l := Z.log2 (Qnum x) - Z.log2 (Zpos (Qden x)) in
  if Qle_bool (pow2 l) x then l else l - 1.

(** The nearest integer, ties to even. *)
Definition rne (y : Q) : Z :=
  let f := Qfloor y in
  match (y - inject_Z f ?= 1 # 2)%Q with
  | Lt => f
  | Gt => f + 1
  | Eq => if Z.even f then f else f + 1
  end.

(** The exponent of the last place of a positive [x]: 53 bits of
    mantissa, and no exponent below -1074 (subnormal numbers). *)
Definition ulp_exp (x : Q) : Z := Z.max (ilog2 x - 52) (-1074).

Definition rnd_pos (x : Q) : Q :=
  (inject_Z (rne (x / pow2 (ulp_exp x))) * pow2 (ulp_exp x))%Q.

(** The nearest number with a 53-bit mantissa. *)
Definition rnd (x : Q) : Q :=
  match (x ?= 0)%Q with
  | Eq => 0%Q
  | Gt => rnd_pos x
  | Lt => (- rnd_pos (- x))%Q
  end.

(** A rational that is a binary64 number. *)
Definition binary64 (x : Q) : bool :=
  Qeq_bool (rnd x) x && Qle_bool (Qabs x) (pow2 1024 - pow2 971).

Inductive t : Type :=
| Nan
| Inf (negative : bool)
| Fin (q : Q).

Definition round (x : Q) : t :=
  let r := rnd x in
  if Qle_bool (pow2 1024) r then Inf false
  else if Qle_bool r (- pow2 1024) then Inf true
  else Fin r.

Definition negative (x : Q) : bool := negb (Qle_bool 0 x).

(** The number a column holds (an int64 or a float64), as a float64. *)
Definition of_number (x : float64) : t :=
  match x with
  | nan => Nan
  | fin q => round q
  end.

Definition add (a b : t) : t :=
  match a, b with
  | Fin x, Fin y => round (x + y)
  | Inf s, Fin _ | Fin _, Inf s => Inf s
  | Inf s, Inf s' => if Bool.eqb s s' then Inf s else Nan
  | _, _ => Nan
  end.

Definition opp (a : t) : t :=
  match a with
  | Nan => Nan
  | Inf s => Inf (negb s)
  | Fin x => Fin (- x)
  end.

Definition sub (a b : t) : t := add a (opp b).

Definition mul (a b : t) : t :=
  match a, b with
  | Fin x, Fin y => round (x * y)
  | Inf s, Fin y | Fin y, Inf s =>
      if Qeq_bool y 0 then Nan else Inf (xorb s (negative y))
  | Inf s, Inf s' => Inf (xorb s s')
  | _, _ => Nan
  end.

Definition div (a b : t) : t :=
  match a, b with
  | Fin x, Fin y =>
      if Qeq_bool y 0 then (if Qeq_bool x 0 then Nan else Inf (negative x))
      else round (x / y)
  | Inf s, Fin y => Inf (xorb s (negative y))
  | Fin _, Inf _ => Fin 0
  | _, _ => Nan
  end.

(** [np.ceil] and [np.floor]: exact, the result is a binary64 number. *)
Definition ceil (a : t) : t :=
  match a with
  | Fin x => Fin (inject_Z (Qceiling x))
  | _ => a
  end.

Definition floor (a : t) : t :=
  match a with
  | Fin x => Fin (inject_Z (Qfloor x))
  | _ => a
  end.

(** [np.arange(start, stop, step)] on floats: the length is
    [ceil((stop - start) / step)]; the first two entries are [start] and
    [start + step], entry [i] is [start + i * delta] where [delta] is the
    difference of the first two. *)
Definition arange_entry (start step : t) (i : nat) : t :=
  match i with
  | O => start
  | S O => add start step
  | _ => add start (mul (Fin (inject_Z (Z.of_nat i))) (sub (add start step) start))
  end.

Definition np_arange (start stop step : t) : result (list t) :=
  match ceil (div (sub stop start) step) with
  | Nan => Raise no_length
  | Inf _ => Raise zero_step
  | Fin len =>
      if Qle_bool (pow2 63) len then Raise zero_step
      else Ok (map (arange_entry start step) (seq 0 (Z.to_nat (Qceiling len))))
  end.

(** [int(value)] of a float: truncation; there is no integer for [nan]
    and the infinities. *)
Definition py_int (a : t) : result Z :=
  match a with
  | Fin x => Ok (py_int x)
  | Inf _ => Raise OverflowError
  | Nan => Raise (ValueError "cannot convert float NaN to integer")
  end.

(** [[str(int(value)) for value in values]]. *)
Fixpoint strings (values : list t) : result (list string) :=
  match values with
  | [] => Ok []
  | value :: values' =>
      rbind (py_int value) (fun n =>
      rbind (strings values') (fun labels => Ok (py_str n :: labels)))
  end.

(** The text [str(int(x))] of a tick position. *)
Definition tick_text (x : t) : option string :=
  match py_int x with
  | Ok n => Some (py_str n)
  | Raise _ => None
  end.

(** The order of the floats; [nan] is not comparable. *)
Definition le (a b : t) : Prop :=
  match a, b with
  | Nan, _ | _, Nan => False
  | Inf true, _ | _, Inf false => True
  | Fin x, Fin y => (x <= y)%Q
  | _, _ => False
  end.

End B64.

(** Lines 85 and 123-124 of [plot_circos], in binary64. *)
Module CancerDriversB64.

Definition rounded_max_value (max_value : float64) : B64.t :=
  B64.mul (B64.ceil (B64.div (B64.of_number max_value) (B64.Fin 10))) (B64.Fin 10).

Definition yticks_positions (vmax2 : B64.t) : list B64.t :=
  [B64.Fin 0; B64.div vmax2 (B64.Fin 2); vmax2].

Definition yticks_labels (vmax2 : B64.t) : result (list string) :=
  rbind (B64.np_arange (B64.Fin 0) (B64.add vmax2 (B64.Fin 1)) (B64.div vmax2 (B64.Fin 2)))
        B64.strings.

End CancerDriversB64.

(** Lines 115 and 144-147 of [plot_circos_hla], in binary64. *)
Module HlaB64.

Definition rounded_min_value (min_value : float64) : B64.t :=
  B64.mul (B64.floor (B64.div (B64.of_number min_value) (B64.Fin 10))) (B64.Fin 10).

Definition yticks_positions (vmin vmax : B64.t) : list B64.t :=
  [vmax; B64.div vmin (B64.Fin 2); vmin].

Definition yticks_labels (vmin : B64.t) : result (list string) :=
  rbind (B64.np_arange (B64.Fin 0) (B64.sub vmin (B64.Fin 1)) (B64.div vmin (B64.Fin 2)))
        B64.strings.

End HlaB64.

(** ** binary64 against the floats of the machine *)

(** The numbers and operations of [B64] beside Rocq's primitive floats,
    which are the binary64 numbers of the processor. *)
Module B64Samples.

Import PrimFloat FloatOps SpecFloat.

Definition of_float (x : float) : B64.t :=
  match Prim2SF x with
  | S754_zero _ => B64.Fin 0
  | S754_infinity s => B64.Inf s
  | S754_nan => B64.Nan
  | S754_finite s m e =>
      B64.Fin ((if s then - inject_Z (Zpos m) else inject_Z (Zpos m)) * B64.pow2 e)
  end.

Definition same (a b : B64.t) : bool :=
  match a, b with
  | B64.Nan, B64.Nan => true
  | B64.Inf s, B64.Inf s' => Bool.eqb s s'
  | B64.Fin x, B64.Fin y => Qeq_bool x y
  | _, _ => false
  end.

(** The four operations give on [x] and [y] what the processor gives. *)
Definition agree (x y : float) : bool :=
  same (B64.add (of_float x) (of_float y)) (of_float (PrimFloat.add x y)) &&
  same (B64.sub (of_float x) (of_float y)) (of_float (PrimFloat.sub x y)) &&
  same (B64.mul (of_float x) (of_float y)) (of_float (PrimFloat.mul x y)) &&
  same (B64.div (of_float x) (of_float y)) (of_float (PrimFloat.div x y)).

(** Bounds beyond [2^53], ties, decimal fractions, the largest and the
    smallest numbers. *)
Definition samples : list (float * float) :=
  [ (90071992547409968, 10); (9007199254741002, 10); (9007199254741000, 2);
    (9007199254741000, 1); (-9007199254741000, 1); (-90071992547409968, 10);
    (0x1.999999999999ap-4, 0x1.999999999999ap-3); (1, 3); (2, 3);
    (0x1.899999999999ap+3, 10); (0x1.dffffffffffffp+4, 10);
    (0x1.e000000000001p+4, 10); (0x1p-1074, 10); (0x5p-1074, 10);
    (0x6p-1074, 10); (0x1p-1022, 3);
    (0x1.fffffffffffffp1023, 0x1.fffffffffffffp1023);
    (0x1.fffffffffffffp1023, 0x1p970); (0x1.fffffffffffffp1023, 0x1p969);
    (0x1p53, 1); (0x1.0000000000001p53, 1); (4503599627370497, 0x1p-1);
    (0x1.fffffffffffffp+51, 0x1p-2);
    (0x1.7e43c8800759cp+996, 0x1.7e43c8800759cp+996);
    (-0x1.7e43c8800759cp+996, 0x1.2a05f2p+33);
    (0x1.56e1fc2f8f359p-997, 0x1.7e43c8800759cp+996);
    (0x0.00000000007e8p-1022, 3); (0x1.d6f34547e6b75p+26, 0x1.01f31f46ed246p-13);
    (-25, 10); (25, 10); (-0x1p-1, 7); (0x1.cp+1, -0x1.4p+1);
    (0x1.0f0cf064dd592p+73, 10); (0x1.52d02c7e14af6p+76, 10);
    (0x1p-1074, 2); (0x3p-1074, 2); (0x5p-1074, 2); (0, 10); (10, 0); (0, 0) ]%float.

(** More samples, drawn by a linear congruential generator: two 53-bit
    mantissas and an exponent anywhere in the range of binary64; the second
    number is taken at most 60 binades from the first, and a second pair
    divides the first number by 10. *)
Definition next (s : Z) : Z :=
  (s * 6364136223846793005 + 1442695040888963407) mod 2 ^ 64.

Definition mantissa (s : Z) : positive := Z.to_pos (1 + (s / 2 ^ 11) mod (2 ^ 53 - 1)).

Definition drawn_pair (s : Z) : list (float * float) :=
  let s1 := next s in
  let s2 := next s1 in
  let s3 := next s2 in
  let e := (s3 / 2 ^ 20) mod 2040 - 1074 in
  let d := (s3 / 2 ^ 40) mod 121 - 60 in
  let x := SF2Prim (S754_finite (Z.odd (s3 / 2 ^ 50)) (mantissa s1) e) in
  let y := SF2Prim (S754_finite (Z.odd (s3 / 2 ^ 51)) (mantissa s2)
                      (Z.min 971 (Z.max (-1074) (e + d)))) in
  [(x, y); (x, 10%float)].

Fixpoint generated (n : nat) (s : Z) : list (float * float) :=
  match n with
  | O => []
  | S n' => drawn_pair s ++ generated n' (next (next (next s)))
  end.

End B64Samples.

(** * Properties *)

(** ** value_counts *)


Lemma cell_eqb_true (a b : cell) : cell_eqb a b = true <-> a = b /\ a <> NaN.
Proof.
  unfold cell_eqb. destruct (cell_eq_dec a b) as [Heq|Hne]; destruct a; simpl;
    intuition congruence.
Qed.

Lemma isna_false (c : cell) : isna c = false <-> c <> NaN.
Proof. destruct c; simpl; intuition congruence. Qed.

Lemma bump_keys (k k' : cell) (t : list (cell * nat)) :
  In k' (map fst (bump k t)) <-> k' = k \/ In k' (map fst t).
Proof.
  induction t as [|[k0 n] t IH]; simpl.
  - intuition.
  - destruct (cell_eq_dec k k0) as [->|Hne]; simpl; [intuition|].
    rewrite IH. intuition.
Qed.

Lemma bump_NoDup (k : cell) (t : list (cell * nat)) :
  NoDup (map fst t) -> NoDup (map fst (bump k t)).
Proof.
  induction t as [|[k0 n] t IH]; simpl; intros Hnd.
  - constructor; [intros []|constructor].
  - destruct (cell_eq_dec k k0) as [->|Hne]; simpl; [exact Hnd|].
    inversion Hnd as [|? ? Hnotin Hnd']; subst.
    constructor; [|auto].
    rewrite bump_keys. intros [->|Hin]; [congruence|contradiction].
Qed.

Lemma bump_count (k k' : cell) (t : list (cell * nat)) :
  count_of k' (bump k t) = (count_of k' t + if cell_eq_dec k k' then 1 else 0)%nat.
Proof.
  induction t as [|[k0 n] t IH]; simpl.
  - destruct (cell_eq_dec k' k), (cell_eq_dec k k'); congruence || lia.
  - destruct (cell_eq_dec k k0) as [->|Hne]; simpl.
    + destruct (cell_eq_dec k' k0), (cell_eq_dec k0 k'); congruence || lia.
    + destruct (cell_eq_dec k' k0) as [->|Hne'].
      * destruct (cell_eq_dec k k0); [congruence|lia].
      * exact IH.
Qed.

Lemma bump_sum (k : cell) (t : list (cell * nat)) :
  list_sum (map snd (bump k t)) = S (list_sum (map snd t)).
Proof.
  induction t as [|[k0 n] t IH]; simpl; [reflexivity|].
  destruct (cell_eq_dec k k0); simpl; [reflexivity|]. rewrite IH. lia.
Qed.

Lemma bump_positive (k : cell) (t : list (cell * nat)) :
  Forall (fun p => 0 < snd p)%nat t -> Forall (fun p => 0 < snd p)%nat (bump k t).
Proof.
  induction t as [|[k0 n] t IH]; simpl; intros Hall.
  - constructor; [simpl; lia|constructor].
  - inversion Hall; subst.
    destruct (cell_eq_dec k k0); constructor; simpl in *; auto; lia.
Qed.

Lemma count_of_entry (k : cell) (n : nat) (t : list (cell * nat)) :
  NoDup (map fst t) -> In (k, n) t -> count_of k t = n.
Proof.
  induction t as [|[k0 n0] t IH]; simpl; intros Hnd Hin; [contradiction|].
  inversion Hnd as [|? ? Hnotin Hnd']; subst.
  destruct Hin as [Heq|Hin].
  - inversion Heq; subst. destruct (cell_eq_dec k k); congruence.
  - destruct (cell_eq_dec k k0) as [->|Hne]; [|auto].
    exfalso. apply Hnotin. change k0 with (fst (k0, n)). now apply in_map.
Qed.

Section Fold.

Variable s : Series.

Lemma fold_keys : forall (t : list (cell * nat)) (k : cell),
  In k (map fst (fold_left value_count_step s t)) <->
  In k (map fst t) \/ (In k s /\ k <> NaN).
Proof.
  induction s as [|c s' IH]; intros t k; simpl.
  - intuition.
  - rewrite IH. unfold value_count_step.
    destruct (isna c) eqn:Hna.
    + destruct c; try discriminate. intuition congruence.
    + rewrite bump_keys. apply isna_false in Hna. intuition congruence.
Qed.

Lemma fold_NoDup : forall t : list (cell * nat),
  NoDup (map fst t) -> NoDup (map fst (fold_left value_count_step s t)).
Proof.
  induction s as [|c s' IH]; intros t Hnd; simpl; [exact Hnd|].
  apply IH. unfold value_count_step.
  destruct (isna c); [exact Hnd|now apply bump_NoDup].
Qed.

Lemma fold_count : forall (t : list (cell * nat)) (k : cell),
  k <> NaN ->
  count_of k (fold_left value_count_step s t) =
  (count_of k t + count_occ cell_eq_dec s k)%nat.
Proof.
  induction s as [|c s' IH]; intros t k Hk; simpl; [lia|].
  rewrite IH by exact Hk. unfold value_count_step.
  destruct (isna c) eqn:Hna.
  - destruct c; try discriminate.
    destruct (cell_eq_dec NaN k); [congruence|lia].
  - rewrite bump_count. destruct (cell_eq_dec c k); lia.
Qed.

Lemma fold_sum : forall t : list (cell * nat),
  list_sum (map snd (fold_left value_count_step s t)) =
  (list_sum (map snd t) + List.length (dropna s))%nat.
Proof.
  induction s as [|c s' IH]; intros t; simpl; [lia|].
  rewrite IH. unfold value_count_step.
  destruct (isna c); simpl; [lia|]. rewrite bump_sum. lia.
Qed.

Lemma fold_positive : forall t : list (cell * nat),
  Forall (fun p => 0 < snd p)%nat t ->
  Forall (fun p => 0 < snd p)%nat (fold_left value_count_step s t).
Proof.
  induction s as [|c s' IH]; intros t Hall; simpl; [exact Hall|].
  apply IH. unfold value_count_step.
  destruct (isna c); [exact Hall|now apply bump_positive].
Qed.

End Fold.

Lemma insert_desc_perm (p : cell * nat) (l : list (cell * nat)) :
  Permutation (insert_desc p l) (p :: l).
Proof.
  induction l as [|q l IH]; simpl; [reflexivity|].
  destruct (snd q <=? snd p)%nat; [reflexivity|].
  rewrite IH. apply perm_swap.
Qed.

Lemma sort_values_perm (l : list (cell * nat)) : Permutation (sort_values l) l.
Proof.
  induction l as [|p l IH]; simpl; [reflexivity|].
  rewrite insert_desc_perm. now constructor.
Qed.

Lemma insert_desc_sorted (p : cell * nat) (l : list (cell * nat)) :
  StronglySorted desc l -> StronglySorted desc (insert_desc p l).
Proof.
  induction l as [|q l IH]; simpl; intros Hs.
  - constructor; constructor.
  - inversion Hs as [|? ? Hs' Hall]; subst.
    destruct (snd q <=? snd p)%nat eqn:Hle.
    + apply Nat.leb_le in Hle. constructor; [exact Hs|].
      constructor; [exact Hle|].
      eapply Forall_impl; [|exact Hall]. unfold desc. intros; lia.
    + apply Nat.leb_gt in Hle. constructor; [auto|].
      eapply Permutation_Forall; [symmetry; apply insert_desc_perm|].
      constructor; [unfold desc; lia|exact Hall].
Qed.

Lemma sort_values_sorted (l : list (cell * nat)) : StronglySorted desc (sort_values l).
Proof.
  induction l as [|p l IH]; simpl; [constructor|now apply insert_desc_sorted].
Qed.

Lemma list_sum_perm (l l' : list nat) : Permutation l l' -> list_sum l = list_sum l'.
Proof. induction 1; simpl; lia. Qed.

(** ** Sectors *)

Lemma first_seen_In (s : Series) (k : cell) : In k (first_seen s) <-> In k s.
Proof.
  induction s as [|c s IH]; simpl; [tauto|].
  rewrite filter_In, IH.
  destruct (cell_eq_dec k c) as [->|Hne]; intuition congruence.
Qed.

Lemma first_seen_NoDup (s : Series) : NoDup (first_seen s).
Proof.
  induction s as [|c s IH]; simpl; constructor.
  - rewrite filter_In. intros [_ H]. destruct (cell_eq_dec c c); congruence.
  - now apply NoDup_filter.
Qed.

Lemma dropna_In (s : Series) (k : cell) : In k (dropna s) <-> In k s /\ k <> NaN.
Proof.
  unfold dropna. rewrite filter_In, negb_true_iff, isna_false. tauto.
Qed.

Lemma dropna_id (s : Series) : Forall (fun c => c <> NaN) s -> dropna s = s.
Proof.
  induction 1 as [|c s Hc Hs IH]; simpl; [reflexivity|].
  apply isna_false in Hc. rewrite Hc. simpl. now f_equal.
Qed.

Lemma value_count_keys (s : Series) (k : cell) :
  In k (map fst (value_count s)) <-> In k s /\ k <> NaN.
Proof. unfold value_count. rewrite fold_keys. simpl. tauto. Qed.

Lemma value_count_NoDup (s : Series) : NoDup (map fst (value_count s)).
Proof. apply fold_NoDup. constructor. Qed.

Lemma value_counts_perm (s : Series) : Permutation (value_counts s) (value_count s).
Proof. apply sort_values_perm. Qed.

Lemma value_counts_keys (s : Series) (k : cell) :
  In k (map fst (value_counts s)) <-> In k s /\ k <> NaN.
Proof.
  rewrite <- value_count_keys.
  split; apply Permutation_in, Permutation_map;
    [|symmetry]; apply value_counts_perm.
Qed.

Lemma value_counts_NoDup (s : Series) : NoDup (map fst (value_counts s)).
Proof.
  eapply Permutation_NoDup; [|apply value_count_NoDup].
  apply Permutation_map. symmetry. apply value_counts_perm.
Qed.

Lemma value_counts_entry (s : Series) (k : cell) (m : nat) :
  In (k, m) (value_counts s) -> m = count_occ cell_eq_dec s k /\ k <> NaN /\ (0 < m)%nat.
Proof.
  intros Hin.
  assert (Hin' : In (k, m) (value_count s))
    by (eapply Permutation_in; [apply value_counts_perm|exact Hin]).
  assert (Hk : k <> NaN).
  { apply (value_count_keys s k). change k with (fst (k, m)). now apply in_map. }
  repeat split; [|exact Hk|].
  - rewrite <- (count_of_entry k m (value_count s) (value_count_NoDup s) Hin').
    unfold value_count. now rewrite fold_count.
  - assert (Hall : Forall (fun p => 0 < snd p)%nat (value_count s))
      by (apply fold_positive; constructor).
    rewrite Forall_forall in Hall. exact (Hall _ Hin').
Qed.

Lemma value_counts_sum (s : Series) :
  list_sum (map snd (value_counts s)) = List.length (dropna s).
Proof.
  rewrite (list_sum_perm _ (map snd (value_count s)))
    by (apply Permutation_map, value_counts_perm).
  unfold value_count. now rewrite fold_sum.
Qed.

Lemma sectors_new_Circos (d : list (cell * nat)) (sp st en : Z) :
  map name (sectors (new_Circos d sp st en)) = map fst d /\
  map size (sectors (new_Circos d sp st en)) = map snd d.
Proof. simpl. rewrite !map_map. split; reflexivity. Qed.

Lemma sorted_sectors (d : list (cell * nat)) :
  StronglySorted desc d ->
  StronglySorted larger_first (map (fun kv => {| name := fst kv; size := snd kv |}) d).
Proof.
  induction 1 as [|p d Hs IH Hall]; simpl; constructor; [exact IH|].
  rewrite Forall_map. exact Hall.
Qed.

Lemma value_counts_sectors (counted : Series) (sp st en : Z) :
  sectors_of counted (sectors (new_Circos (value_counts counted) sp st en)).
Proof.
  destruct (sectors_new_Circos (value_counts counted) sp st en) as [Hn Hs].
  assert (Hperm : Permutation (map name (sectors (new_Circos (value_counts counted) sp st en)))
                              (first_seen (dropna counted))).
  { rewrite Hn. apply NoDup_Permutation.
    - apply value_counts_NoDup.
    - apply first_seen_NoDup.
    - intros k. now rewrite value_counts_keys, first_seen_In, dropna_In. }
  constructor.
  - rewrite Hn. apply value_counts_NoDup.
  - intros k. rewrite Hn. apply value_counts_keys.
  - exact Hperm.
  - simpl. intros sec Hin. apply in_map_iff in Hin as [[k m] [<- Hin]]. simpl.
    now apply value_counts_entry in Hin.
  - simpl. rewrite Forall_map. rewrite Forall_forall. intros [k m] Hin. simpl.
    now apply value_counts_entry in Hin.
  - apply sorted_sectors, sort_values_sorted.
  - unfold total_size. rewrite Hs. apply value_counts_sum.
  - rewrite <- (length_map name), (Permutation_length Hperm).
    unfold nunique. apply Permutation_length, NoDup_Permutation.
    + apply first_seen_NoDup.
    + apply NoDup_nodup.
    + intros k. now rewrite first_seen_In, nodup_In.
Qed.

Lemma getitem_length (df : DataFrame) (c : string) (col : Series) :
  getitem df c = Ok col -> List.length col = List.length (rows df).
Proof.
  unfold getitem. destruct (get_loc c (columns df)); [|discriminate].
  intros [= <-]. apply length_map.
Qed.

(** C1, as amended.  In both renderers the sectors handed to the layout
    engine are exactly the distinct non-missing values of the category column,
    each once and sized by its number of rows; their order around the circle
    is the order of [value_counts], largest count first, which is a
    rearrangement of the first-seen order and not that order itself. *)
Theorem C1_sectors_largest_count_first :
  forall (df : DataFrame) (od : CancerDrivers.options) (oh : Hla.options)
         (counted : Series),
    getitem df (CancerDrivers.track_1_data od) = Ok counted ->
    Hla.track_1_data oh = CancerDrivers.track_1_data od ->
    exists ss : list Sector,
      CancerDrivers.layout df od =
        Ok {| sectors := ss; space := 7; start := 0; end_ := 360 |} /\
      Hla.layout df oh =
        Ok {| sectors := ss; space := 7; start := 4; end_ := 360 |} /\
      NoDup (map name ss) /\
      (forall k, In k (map name ss) <-> In k counted /\ k <> NaN) /\
      (forall sec, In sec ss -> size sec = count_occ cell_eq_dec counted (name sec)) /\
      Permutation (map name ss) (first_seen (dropna counted)) /\
      StronglySorted larger_first ss.
Proof.
  intros df od oh counted Hcol Hsame.
  exists (sectors (new_Circos (value_counts counted) 7 0 360)).
  destruct (value_counts_sectors counted 7 0 360)
    as [Hnd Hexact Hperm Hcount _ Hsorted _ _].
  unfold CancerDrivers.layout, Hla.layout. rewrite Hsame, Hcol. simpl.
  repeat split; try assumption; apply Hexact; assumption.
Qed.

Lemma C1_sectors_largest_count_first_witness :
  getitem df_abb "Cancer_type" = Ok [txt "a"; txt "b"; txt "b"] /\
  exists ss : list Sector,
    CancerDrivers.layout df_abb CancerDrivers.defaults =
      Ok {| sectors := ss; space := 7; start := 0; end_ := 360 |} /\
    Hla.layout df_abb (hla_options "Cancer_type" "Tumors" "Tumors" "query") =
      Ok {| sectors := ss; space := 7; start := 4; end_ := 360 |} /\
    NoDup (map name ss) /\
    (forall k, In k (map name ss) <-> In k [txt "a"; txt "b"; txt "b"] /\ k <> NaN) /\
    (forall sec, In sec ss ->
       size sec = count_occ cell_eq_dec [txt "a"; txt "b"; txt "b"] (name sec)) /\
    Permutation (map name ss) (first_seen (dropna [txt "a"; txt "b"; txt "b"])) /\
    StronglySorted larger_first ss.
Proof.
  split; [reflexivity|].
  apply (C1_sectors_largest_count_first df_abb CancerDrivers.defaults
           (hla_options "Cancer_type" "Tumors" "Tumors" "query")
           [txt "a"; txt "b"; txt "b"]); reflexivity.
Defined.

(** C1 as stated fails: with categories a, b, b the first sector is b. *)
Lemma C1_counterexample :
  ~ (forall (df : DataFrame) (o : CancerDrivers.options) (counted : Series)
            (circos : Circos),
       getitem df (CancerDrivers.track_1_data o) = Ok counted ->
       CancerDrivers.layout df o = Ok circos ->
       map name (sectors circos) = first_seen counted) /\
  ~ (forall (df : DataFrame) (o : Hla.options) (counted : Series)
            (circos : Circos),
       getitem df (Hla.track_1_data o) = Ok counted ->
       Hla.layout df o = Ok circos ->
       map name (sectors circos) = first_seen counted).
Proof.
  split; intros H.
  - specialize (H df_abb CancerDrivers.defaults [txt "a"; txt "b"; txt "b"] _
                  eq_refl eq_refl).
    vm_compute in H. discriminate H.
  - specialize (H df_abb (hla_options "Cancer_type" "Tumors" "Tumors" "query")
                  [txt "a"; txt "b"; txt "b"] _ eq_refl eq_refl).
    vm_compute in H. discriminate H.
Qed.

(** C5, as amended.  In both renderers the number of sectors is the number
    of distinct non-missing values of the category column, the sector sizes
    sum to the number of rows whose category is not missing, and no sector
    has zero rows; when no category is missing these are the number of
    distinct values and the row count of the table. *)
Theorem C5_sector_sizes_cover_categorised_rows :
  forall (df : DataFrame) (od : CancerDrivers.options) (oh : Hla.options)
         (counted : Series),
    getitem df (CancerDrivers.track_1_data od) = Ok counted ->
    Hla.track_1_data oh = CancerDrivers.track_1_data od ->
    exists cd ch : Circos,
      CancerDrivers.layout df od = Ok cd /\
      Hla.layout df oh = Ok ch /\
      sectors ch = sectors cd /\
      List.length (sectors cd) = nunique (dropna counted) /\
      total_size (sectors cd) = List.length (dropna counted) /\
      Forall (fun sec => 0 < size sec)%nat (sectors cd) /\
      (Forall (fun c => c <> NaN) counted ->
       List.length (sectors cd) = nunique counted /\
       total_size (sectors cd) = List.length (rows df)).
Proof.
  intros df od oh counted Hcol Hsame.
  exists (new_Circos (value_counts counted) 7 0 360),
         (new_Circos (value_counts counted) 7 4 360).
  destruct (value_counts_sectors counted 7 0 360)
    as [_ _ _ _ Hpos _ Htotal Hnumber].
  unfold CancerDrivers.layout, Hla.layout. rewrite Hsame, Hcol.
  repeat split; try assumption.
  - rewrite Hnumber, (dropna_id counted) by assumption. reflexivity.
  - rewrite Htotal, (dropna_id counted) by assumption.
    now apply getitem_length with (c := CancerDrivers.track_1_data od).
Qed.

Lemma C5_sector_sizes_cover_categorised_rows_witness :
  getitem df_missing "Cancer_type" = Ok [txt "a"; NaN] /\
  exists cd ch : Circos,
    CancerDrivers.layout df_missing CancerDrivers.defaults = Ok cd /\
    Hla.layout df_missing (hla_options "Cancer_type" "Tumors" "Tumors" "query") = Ok ch /\
    sectors ch = sectors cd /\
    List.length (sectors cd) = nunique (dropna [txt "a"; NaN]) /\
    total_size (sectors cd) = List.length (dropna [txt "a"; NaN]) /\
    Forall (fun sec => 0 < size sec)%nat (sectors cd) /\
    (Forall (fun c => c <> NaN) [txt "a"; NaN] ->
     List.length (sectors cd) = nunique [txt "a"; NaN] /\
     total_size (sectors cd) = List.length (rows df_missing)).
Proof.
  split; [reflexivity|].
  apply (C5_sector_sizes_cover_categorised_rows df_missing CancerDrivers.defaults
           (hla_options "Cancer_type" "Tumors" "Tumors" "query")
           [txt "a"; NaN]); reflexivity.
Defined.

(** C5 as stated fails: a row without a category belongs to no sector. *)
Lemma C5_counterexample :
  ~ (forall (df : DataFrame) (o : CancerDrivers.options) (counted : Series)
            (circos : Circos),
       getitem df (CancerDrivers.track_1_data o) = Ok counted ->
       CancerDrivers.layout df o = Ok circos ->
       List.length (sectors circos) = nunique counted /\
       total_size (sectors circos) = List.length (rows df) /\
       Forall (fun sec => 0 < size sec)%nat (sectors circos)) /\
  ~ (forall (df : DataFrame) (o : Hla.options) (counted : Series)
            (circos : Circos),
       getitem df (Hla.track_1_data o) = Ok counted ->
       Hla.layout df o = Ok circos ->
       List.length (sectors circos) = nunique counted /\
       total_size (sectors circos) = List.length (rows df) /\
       Forall (fun sec => 0 < size sec)%nat (sectors circos)).
Proof.
  split; intros H.
  - specialize (H df_missing CancerDrivers.defaults [txt "a"; NaN] _
                  eq_refl eq_refl).
    destruct H as [_ [H _]]. vm_compute in H. discriminate H.
  - specialize (H df_missing (hla_options "Cancer_type" "Tumors" "Tumors" "query")
                  [txt "a"; NaN] _ eq_refl eq_refl).
    destruct H as [_ [H _]]. vm_compute in H. discriminate H.
Qed.

(** ** Rounded axis bounds *)

Ltac qdiv :=
  unfold Qdiv in *;
  change (/ 10)%Q with (1 # 10)%Q in *;
  change (/ 2)%Q with (1 # 2)%Q in *.

Lemma inject_Z_pred (c : Z) : (inject_Z (c - 1) == inject_Z c - 1)%Q.
Proof. unfold Z.sub. rewrite inject_Z_plus. reflexivity. Qed.

Lemma inject_Z_succ (c : Z) : (inject_Z (c + 1) == inject_Z c + 1)%Q.
Proof. rewrite inject_Z_plus. reflexivity. Qed.

Lemma inject_Z_tens (c : Z) : (inject_Z c * 10 == inject_Z (10 * c))%Q.
Proof. rewrite inject_Z_mult. ring. Qed.

Lemma ceiling_bounds (x : Q) :
  (x <= inject_Z (Qceiling x) /\ inject_Z (Qceiling x) - 1 < x)%Q.
Proof.
  split; [apply Qle_ceiling|].
  rewrite <- inject_Z_pred. apply Qceiling_lt.
Qed.

Lemma floor_bounds (x : Q) :
  (inject_Z (Qfloor x) <= x /\ x < inject_Z (Qfloor x) + 1)%Q.
Proof.
  split; [apply Qfloor_le|].
  rewrite <- inject_Z_succ. apply Qlt_floor.
Qed.

Lemma Qmax_cases (x y : Q) : Qmax x y = x \/ Qmax x y = y.
Proof.
  unfold Qmax, GenericMinMax.gmax. destruct (x ?= y)%Q; auto.
Qed.

Lemma Qmin_cases (x y : Q) : Qmin x y = x \/ Qmin x y = y.
Proof.
  unfold Qmin, GenericMinMax.gmin. destruct (x ?= y)%Q; auto.
Qed.

Lemma fold_Qmax (l : list Q) : forall x : Q,
  In (fold_left Qmax l x) (x :: l) /\
  (forall y, In y (x :: l) -> y <= fold_left Qmax l x)%Q.
Proof.
  induction l as [|z l IH]; intros x; simpl.
  - split; [auto|]. intros y [<-|[]]. apply Qle_refl.
  - destruct (IH (Qmax x z)) as [Hin Hle]. split.
    + simpl. destruct Hin as [Hin|Hin]; [|tauto].
      rewrite <- Hin. destruct (Qmax_cases x z) as [E|E]; rewrite E; tauto.
    + intros y [<-|[<-|Hy]].
      * eapply Qle_trans; [apply Q.le_max_l|]. apply Hle. now left.
      * eapply Qle_trans; [apply Q.le_max_r|]. apply Hle. now left.
      * apply Hle. now right.
Qed.

Lemma fold_Qmin (l : list Q) : forall x : Q,
  In (fold_left Qmin l x) (x :: l) /\
  (forall y, In y (x :: l) -> fold_left Qmin l x <= y)%Q.
Proof.
  induction l as [|z l IH]; intros x; simpl.
  - split; [auto|]. intros y [<-|[]]. apply Qle_refl.
  - destruct (IH (Qmin x z)) as [Hin Hle]. split.
    + simpl. destruct Hin as [Hin|Hin]; [|tauto].
      rewrite <- Hin. destruct (Qmin_cases x z) as [E|E]; rewrite E; tauto.
    + intros y [<-|[<-|Hy]].
      * eapply Qle_trans; [|apply Q.le_min_l]. apply Hle. now left.
      * eapply Qle_trans; [|apply Q.le_min_r]. apply Hle. now left.
      * apply Hle. now right.
Qed.

Lemma maximum_spec (l : list Q) :
  l <> [] ->
  exists m : Q, maximum l = fin m /\ In m l /\ (forall y, In y l -> y <= m)%Q.
Proof.
  destruct l as [|x l]; [congruence|]. intros _.
  exists (fold_left Qmax l x). split; [reflexivity|]. apply fold_Qmax.
Qed.

Lemma minimum_spec (l : list Q) :
  l <> [] ->
  exists m : Q, minimum l = fin m /\ In m l /\ (forall y, In y l -> m <= y)%Q.
Proof.
  destruct l as [|x l]; [congruence|]. intros _.
  exists (fold_left Qmin l x). split; [reflexivity|]. apply fold_Qmin.
Qed.

(** The rounding of line 85, on a number. *)
Lemma rounded_max_value_fin (m : Q) :
  exists k : Z,
    CancerDrivers.rounded_max_value (fin m) = fin (inject_Z k * 10) /\
    (m <= inject_Z k * 10 /\ inject_Z k * 10 < m + 10)%Q.
Proof.
  exists (Qceiling (m / 10)). split; [reflexivity|].
  destruct (ceiling_bounds (m / 10)) as [Hle Hlt]. qdiv. split; lra.
Qed.

(** The rounding of line 115, on a number. *)
Lemma rounded_min_value_fin (m : Q) :
  exists k : Z,
    Hla.rounded_min_value (fin m) = fin (inject_Z k * 10) /\
    (inject_Z k * 10 <= m /\ m - 10 < inject_Z k * 10)%Q.
Proof.
  exists (Qfloor (m / 10)). split; [reflexivity|].
  destruct (floor_bounds (m / 10)) as [Hle Hlt]. qdiv. split; lra.
Qed.

Lemma tens_nonneg (k : Z) : (0 <= inject_Z k * 10)%Q <-> 0 <= k.
Proof.
  rewrite inject_Z_tens. change 0%Q with (inject_Z 0). rewrite <- Zle_Qle. lia.
Qed.

Lemma tens_nonpos (k : Z) : (inject_Z k * 10 <= 0)%Q <-> k <= 0.
Proof.
  rewrite inject_Z_tens. change 0%Q with (inject_Z 0). rewrite <- Zle_Qle. lia.
Qed.

Lemma tens_zero (k : Z) : (inject_Z k * 10 == 0)%Q <-> k = 0.
Proof.
  rewrite inject_Z_tens. change 0%Q with (inject_Z 0). rewrite inject_Z_injective. lia.
Qed.

Lemma tens_gap (k : Z) (m : Q) :
  (m <= inject_Z k * 10)%Q -> (-10 < m)%Q -> 0 <= k.
Proof.
  intros Hle Hlt.
  assert (H : (inject_Z (-1) < inject_Z k)%Q).
  { change (inject_Z (-1)) with (-1)%Q. lra. }
  rewrite <- Zlt_Qlt in H. lia.
Qed.

Lemma tens_gap_below (k : Z) (m : Q) :
  (inject_Z k * 10 <= m)%Q -> (m < 10)%Q -> k <= 0.
Proof.
  intros Hle Hlt.
  assert (H : (inject_Z k < inject_Z 1)%Q).
  { change (inject_Z 1) with 1%Q. lra. }
  rewrite <- Zlt_Qlt in H. lia.
Qed.


(** ** Ticks of the y axis *)

Lemma py_int_inject (q : Q) (z : Z) : (q == inject_Z z)%Q -> py_int q = z.
Proof.
  destruct q as [a d]. unfold Qeq, py_int. simpl. intros H.
  rewrite Z.mul_1_r in H. subst a. apply Z.quot_mul. discriminate.
Qed.

Lemma Qceiling_unique (x : Q) (z : Z) :
  (inject_Z z - 1 < x)%Q -> (x <= inject_Z z)%Q -> Qceiling x = z.
Proof.
  intros Hlo Hhi. destruct (ceiling_bounds x) as [Hle Hlt].
  assert (H1 : (inject_Z (Qceiling x - 1) < inject_Z z)%Q)
    by (rewrite inject_Z_pred; lra).
  assert (H2 : (inject_Z (z - 1) < inject_Z (Qceiling x))%Q)
    by (rewrite inject_Z_pred; lra).
  rewrite <- Zlt_Qlt in H1, H2. lia.
Qed.

Lemma Qeq_bool_false (x y : Q) : ~ (x == y)%Q -> Qeq_bool x y = false.
Proof.
  intros Hne. destruct (Qeq_bool x y) eqn:E; [|reflexivity].
  apply Qeq_bool_iff in E. contradiction.
Qed.

(** Three steps of [v / 2] from 0 stay above [v - 1] when [v <= -10]. *)
Lemma hla_arange_length (v : Q) :
  (v <= -10)%Q -> Qceiling ((v - 1 - 0) / (v / 2)) = 3.
Proof.
  intros Hv.
  assert (Hflip : ((v - 1 - 0) / (v / 2) == (1 - v) / (- v / 2))%Q).
  { field. intros Hz. lra. }
  apply Qceiling_unique; rewrite Hflip; change (inject_Z 3) with 3%Q.
  - apply Qlt_shift_div_l; qdiv; lra.
  - apply Qle_shift_div_r; qdiv; lra.
Qed.

(** A step of 0 never yields labels. *)
Lemma arange_zero_step (stop step : Q) :
  (step == 0)%Q -> ~ (stop - 0 == 0)%Q ->
  np_arange (fin 0) (fin stop) (fin step) = Raise zero_step.
Proof.
  intros Hstep Hstop. unfold np_arange.
  apply Qeq_bool_iff in Hstep. rewrite Hstep.
  now rewrite Qeq_bool_false.
Qed.


(** ** The drawing monad *)

Lemma bind_Ok {A B} (m : M A) (k : A -> M B) (fig fig' : figure) (a : A) :
  m fig = Ok (a, fig') -> bind m k fig = k a fig'.
Proof. unfold bind. now intros ->. Qed.

Lemma bind_Raise {A B} (m : M A) (k : A -> M B) (fig : figure) (e : exn) :
  m fig = Raise e -> bind m k fig = Raise e.
Proof. unfold bind. now intros ->. Qed.

Lemma bind_Ok_inv {A B} (m : M A) (k : A -> M B) (fig : figure) (r : B * figure) :
  bind m k fig = Ok r ->
  exists (a : A) (fig' : figure), m fig = Ok (a, fig') /\ k a fig' = Ok r.
Proof.
  unfold bind. destruct (m fig) as [[a fig']|e]; [eauto|discriminate].
Qed.

Lemma lift_Ok_inv {A} (r : result A) (fig fig' : figure) (a : A) :
  lift r fig = Ok (a, fig') -> r = Ok a /\ fig' = fig.
Proof. unfold lift. destruct r; [|discriminate]. now intros [= -> ->]. Qed.

Lemma emit_Ok_inv (d : draw) (fig fig' : figure) (u : unit) :
  emit d fig = Ok (u, fig') -> fig' = fig ++ [d].
Proof. unfold emit. now intros [= _ <-]. Qed.

Lemma local_Ok_inv {A} (var : string) (v : option A) (fig fig' : figure) (a : A) :
  local var v fig = Ok (a, fig') -> v = Some a /\ fig' = fig.
Proof.
  destruct v as [a0|]; simpl; [|discriminate].
  unfold ret. now intros [= -> ->].
Qed.

Lemma rbind_Ok_inv {A B} (r : result A) (k : A -> result B) (b : B) :
  rbind r k = Ok b -> exists a : A, r = Ok a /\ k a = Ok b.
Proof. destruct r; simpl; [eauto|discriminate]. Qed.

(** Peel the next statement off a run that is known to have succeeded. *)
Ltac peel H a fig Ha :=
  apply bind_Ok_inv in H as (a & fig & Ha & H).

Ltac peel_emit H :=
  let u := fresh "u" in
  let fig := fresh "fig" in
  let Hu := fresh "Hu" in
  apply bind_Ok_inv in H as (u & fig & Hu & H);
  apply emit_Ok_inv in Hu; subst fig.

Ltac peel_lift H a Ha :=
  let fig := fresh "fig" in
  apply bind_Ok_inv in H as (a & fig & Ha & H);
  apply lift_Ok_inv in Ha as [Ha ->].

(** ** Columns *)

Lemma getitem_has_column (df : DataFrame) (c : string) (col : Series) :
  getitem df c = Ok col -> has_column df c.
Proof.
  unfold getitem, has_column. destruct (get_loc c (columns df)); [|discriminate].
  discriminate.
Qed.

Lemma has_column_getitem (df : DataFrame) (c : string) :
  has_column df c -> exists col : Series, getitem df c = Ok col.
Proof.
  unfold getitem, has_column. destruct (get_loc c (columns df)); [eauto|].
  intros H. now contradiction H.
Qed.

Lemma missing_column_getitem (df : DataFrame) (c : string) :
  ~ has_column df c -> getitem df c = Raise (KeyError c).
Proof.
  unfold getitem, has_column. destruct (get_loc c (columns df)); [|reflexivity].
  intros H. contradiction H. discriminate.
Qed.

Lemma where_eq_columns (df df' : DataFrame) (c : string) (v : cell) :
  where_eq df c v = Ok df' -> columns df' = columns df.
Proof.
  unfold where_eq. destruct (get_loc c (columns df)); [|discriminate].
  now intros [= <-].
Qed.

Lemma where_eq_total (df : DataFrame) (c : string) (v : cell) :
  has_column df c -> exists df', where_eq df c v = Ok df' /\ columns df' = columns df.
Proof.
  unfold where_eq, has_column. destruct (get_loc c (columns df)); [eauto|].
  intros H. now contradiction H.
Qed.

(** ** The cursors *)

Lemma cursor_cons (start : Z) (n : nat) :
  cursor start (S n) = (start + 1) :: cursor (start + 1) n.
Proof.
  unfold cursor. simpl. f_equal; [lia|].
  rewrite <- seq_shift, map_map. apply map_ext. intros k. lia.
Qed.

Lemma cursor_nth (start : Z) (n k : nat) :
  (k < n)%nat -> nth_error (cursor start n) k = Some (start + 1 + Z.of_nat k).
Proof.
  intros Hk. unfold cursor.
  rewrite nth_error_map, nth_error_seq.
  apply Nat.ltb_lt in Hk. rewrite Hk. reflexivity.
Qed.

(** ** The loops of plot_circos *)

Lemma filtered_getitem (df df' : DataFrame) (c : string) :
  columns df' = columns df -> has_column df c ->
  exists col : Series, getitem df' c = Ok col.
Proof.
  intros Hcols Hc. apply has_column_getitem. unfold has_column. now rewrite Hcols.
Qed.


Lemma filtered_has_column (df df' : DataFrame) (c : string) (col : Series) :
  columns df' = columns df -> getitem df' c = Ok col -> has_column df c.
Proof.
  intros Hcols Hget. apply getitem_has_column in Hget.
  unfold has_column in *. now rewrite <- Hcols.
Qed.

Section CancerDriversLoops.

Import CancerDrivers.

Opaque cursor.

Variable df : DataFrame.
Variable o : options.

(** The category ring never raises; it fills sector k with colour
    [start + 1 + k]. *)
Lemma cancer_type_track_run (ss : list Sector) :
  forall (col_1 : Z) (track1 : option Track) (fig : figure),
  exists (track1' : option Track) (ds : figure),
    cancer_type_track ss col_1 track1 fig = Ok (track1', fig ++ ds) /\
    fill_colors ds = map ColorCycler (cursor col_1 (List.length ss)) /\
    bar_colors ds = [] /\
    heatmap_cmaps ds = [] /\
    (ss = [] -> track1' = track1) /\
    (ss <> [] -> track1' <> None).
Proof.
  induction ss as [|sec ss' IH]; intros col_1 track1 fig.
  - exists track1, []. simpl. unfold ret. rewrite app_nil_r.
    repeat split; congruence.
  - simpl. unfold bind at 1 2 3. unfold emit.
    match goal with
    | |- context [cancer_type_track ss' ?c ?t ?f] =>
        destruct (IH c t f) as (t' & ds & Hrun & Hfill & Hbar & Hmap & _ & Hsome)
    end.
    eexists t', (_ :: _ :: _ :: ds).
    split; [rewrite Hrun, <- !app_assoc; reflexivity|].
    change (List.length (sec :: ss')) with (S (List.length ss')).
    rewrite cursor_cons. simpl. rewrite Hfill, Hbar, Hmap.
    repeat split; try congruence.
    intros _. destruct ss'; [|apply Hsome; discriminate].
    simpl in Hrun. unfold ret in Hrun. congruence.
Qed.

(** What a finished frequency ring has drawn and read. *)
Lemma tumor_frequency_track_inv (v : float64) (ss : list Sector) :
  forall (col_2 : Z) (track2 track2' : option Track) (fig fig' : figure),
    tumor_frequency_track df o v ss col_2 track2 fig = Ok (track2', fig') ->
    exists ds : figure,
      fig' = fig ++ ds /\
      bar_colors ds = map ColorCycler (cursor col_2 (List.length ss)) /\
      fill_colors ds = [] /\
      heatmap_cmaps ds = [] /\
      (ss = [] -> track2' = track2) /\
      (ss <> [] ->
       track2' <> None /\ has_column df "query" /\
       exists labels, yticks_labels v = Ok labels).
Proof.
  induction ss as [|sec ss' IH]; intros col_2 track2 track2' fig fig' Hrun.
  - simpl in Hrun. unfold ret in Hrun. injection Hrun as <- <-.
    exists []. rewrite app_nil_r. repeat split; congruence.
  - simpl in Hrun.
    peel_emit Hrun.
    peel_lift Hrun filtered Hfiltered.
    peel_lift Hrun y Hy.
    peel_lift Hrun labels Hlabels.
    peel_emit Hrun.
    peel_lift Hrun ylabels Hylabels.
    do 4 peel_emit Hrun.
    apply where_eq_columns in Hfiltered.
    apply (filtered_has_column df) in Hlabels; [|exact Hfiltered].
    destruct ss' as [|sec' ss''].
    + simpl in Hrun. unfold ret in Hrun. injection Hrun as <- <-.
      eexists (_ :: _ :: _ :: _ :: _ :: _ :: []).
      split; [rewrite <- !app_assoc; reflexivity|].
      simpl. rewrite cursor_cons. simpl.
      repeat split; try congruence; eauto.
    + apply IH in Hrun as (ds & -> & Hbar & Hfill & Hmap & _ & Hsome).
      destruct Hsome as (Hsome & _); [discriminate|].
      eexists (_ :: _ :: _ :: _ :: _ :: _ :: ds).
      split; [rewrite <- !app_assoc; reflexivity|].
      change (List.length (sec :: sec' :: ss'')) with (S (List.length (sec' :: ss''))).
      rewrite cursor_cons. simpl bar_colors. simpl fill_colors. simpl heatmap_cmaps.
      rewrite Hbar, Hfill, Hmap.
      repeat split; try congruence; eauto.
Qed.

(** What a finished heatmap ring has drawn and read. *)
Lemma driver_status_track_inv (ss : list Sector) :
  forall (col_pal : Z) (track3 track3' : option Track) (fig fig' : figure),
    driver_status_track df o ss col_pal track3 fig = Ok (track3', fig') ->
    exists ds : figure,
      fig' = fig ++ ds /\
      map Ok (heatmap_cmaps ds) =
        map (py_getitem pal_list) (cursor col_pal (List.length ss)) /\
      fill_colors ds = [] /\
      bar_colors ds = [] /\
      (ss = [] -> track3' = track3) /\
      (ss <> [] -> track3' <> None /\ has_column df "driver").
Proof.
  induction ss as [|sec ss' IH]; intros col_pal track3 track3' fig fig' Hrun.
  - simpl in Hrun. unfold ret in Hrun. injection Hrun as <- <-.
    exists []. rewrite app_nil_r. repeat split; congruence.
  - simpl in Hrun.
    peel_emit Hrun.
    peel_lift Hrun filtered Hfiltered.
    peel_lift Hrun data Hdata.
    peel_lift Hrun scale Hcmap.
    peel_emit Hrun.
    apply where_eq_columns in Hfiltered.
    apply (filtered_has_column df) in Hdata; [|exact Hfiltered].
    destruct ss' as [|sec' ss''].
    + simpl in Hrun. unfold ret in Hrun. injection Hrun as <- <-.
      eexists (_ :: _ :: []).
      split; [rewrite <- !app_assoc; reflexivity|].
      simpl. rewrite cursor_cons. simpl. rewrite Hcmap.
      repeat split; try congruence; eauto.
    + apply IH in Hrun as (ds & -> & Hmap & Hfill & Hbar & _ & Hsome).
      destruct Hsome as (Hsome & _); [discriminate|].
      eexists (_ :: _ :: ds).
      split; [rewrite <- !app_assoc; reflexivity|].
      change (List.length (sec :: sec' :: ss'')) with (S (List.length (sec' :: ss''))).
      rewrite cursor_cons. simpl bar_colors. simpl fill_colors. simpl heatmap_cmaps.
      rewrite Hbar, Hfill. simpl map. rewrite Hmap, Hcmap.
      repeat split; try congruence; eauto.
Qed.

Transparent cursor.

End CancerDriversLoops.

(** Run the next statement of a call forward, from what is known of it. *)
Lemma lift_Ok {A} (r : result A) (a : A) (fig : figure) :
  r = Ok a -> lift r fig = Ok (a, fig).
Proof. now intros ->. Qed.

Lemma lift_Raise {A} (r : result A) (e : exn) (fig : figure) :
  r = Raise e -> @lift A r fig = Raise e.
Proof. now intros ->. Qed.

Ltac run_emit := erewrite bind_Ok by reflexivity; cbv beta.
Ltac run_with H := erewrite bind_Ok by (exact H); cbv beta.
Ltac run_lift H := erewrite bind_Ok by (apply lift_Ok; exact H); cbv beta.
Ltac raise_lift H := erewrite bind_Raise by (apply lift_Raise; exact H).

Section CancerDriversRuns.

Import CancerDrivers.

Variable df : DataFrame.
Variable o : options.
Hypothesis has_track_1 : has_column df (track_1_data o).


Lemma tumor_frequency_track_labels (v : float64) (e : exn) (sec : Sector)
    (ss : list Sector) (col_2 : Z) (track2 : option Track) (fig : figure) :
  has_column df (track_2_data o) ->
  has_column df "query" ->
  yticks_labels v = Raise e ->
  tumor_frequency_track df o v (sec :: ss) col_2 track2 fig = Raise e.
Proof.
  intros Htrack_2 Hquery Hraise. simpl.
  destruct (where_eq_total df (track_1_data o) (name sec) has_track_1)
    as (filtered & Hfiltered & Hcols).
  destruct (filtered_getitem df filtered _ Hcols Htrack_2) as (y & Hy).
  destruct (filtered_getitem df filtered _ Hcols Hquery) as (labels & Hlabels).
  run_emit. run_lift Hfiltered. run_lift Hy. run_lift Hlabels. run_emit.
  raise_lift Hraise. reflexivity.
Qed.



End CancerDriversRuns.

(** ** A call of plot_circos, as a whole *)

Lemma fill_colors_app (a b : figure) :
  fill_colors (a ++ b) = fill_colors a ++ fill_colors b.
Proof. apply flat_map_app. Qed.

Lemma bar_colors_app (a b : figure) :
  bar_colors (a ++ b) = bar_colors a ++ bar_colors b.
Proof. apply flat_map_app. Qed.

Lemma heatmap_cmaps_app (a b : figure) :
  heatmap_cmaps (a ++ b) = heatmap_cmaps a ++ heatmap_cmaps b.
Proof. apply flat_map_app. Qed.

Lemma drivers_layout_sectors (df : DataFrame) (o : CancerDrivers.options) (circos : Circos) :
  CancerDrivers.layout df o = Ok circos ->
  exists counted : Series,
    getitem df (CancerDrivers.track_1_data o) = Ok counted /\
    circos = new_Circos (value_counts counted) 7 0 360.
Proof.
  unfold CancerDrivers.layout. intros H.
  apply rbind_Ok_inv in H as (counted & Hcol & [= <-]). eauto.
Qed.

Section CancerDriversCall.

Import CancerDrivers.

Variable df : DataFrame.
Variable o : options.

(** What a finished [compose] has read and drawn. *)
Lemma drivers_compose_inv (circos : Circos) (fig : figure) :
  compose df o [] = Ok (circos, fig) ->
  layout df o = Ok circos /\
  sectors circos <> [] /\
  Forall (has_column df) (drivers_columns o) /\
  fill_colors fig =
    map ColorCycler (cursor (bar_pal_start o) (List.length (sectors circos))) /\
  bar_colors fig =
    map ColorCycler (cursor (bar_pal_start o) (List.length (sectors circos))) /\
  map Ok (heatmap_cmaps fig) =
    map (py_getitem pal_list) (cursor (hmap_pal_start o) (List.length (sectors circos))).
Proof.
  intros H. unfold compose in H.
  peel_lift H circos0 Hlayout.
  peel H track1 fig1 HA.
  destruct (cancer_type_track_run (sectors circos0) (bar_pal_start o) None [])
    as (t1 & dsA & HA' & HfillA & HbarA & HmapA & HnilA & _).
  rewrite HA' in HA. injection HA as <- <-.
  peel H tr1 fig1' Hlocal. apply local_Ok_inv in Hlocal as [-> ->].
  assert (Hss : sectors circos0 <> []).
  { intros Hnil. specialize (HnilA Hnil). discriminate. }
  peel_emit H.
  peel_lift H max_value Hmax.
  apply rbind_Ok_inv in Hmax as (col2 & Hcol2 & _).
  peel H track2 fig2 HB.
  apply tumor_frequency_track_inv in HB
    as (dsB & -> & HbarB & HfillB & HmapB & _ & HsomeB).
  destruct (HsomeB Hss) as (_ & Hquery & _).
  peel H tr2 fig2' Hlocal. apply local_Ok_inv in Hlocal as [-> ->].
  peel_emit H.
  peel H track3 fig3 HC.
  apply driver_status_track_inv in HC
    as (dsC & -> & HmapC & HfillC & HbarC & _ & HsomeC).
  destruct (HsomeC Hss) as (_ & Hdriver).
  peel H tr3 fig3' Hlocal. apply local_Ok_inv in Hlocal as [-> ->].
  do 5 peel_emit H.
  unfold ret in H. injection H as <- <-.
  destruct (drivers_layout_sectors df o circos0 Hlayout) as (counted & Hcol1 & _).
  split; [exact Hlayout|]. split; [exact Hss|]. split.
  { repeat constructor;
      [ now apply getitem_has_column with (col := counted)
      | now apply getitem_has_column with (col := col2)
      | exact Hquery | exact Hdriver ]. }
  rewrite !fill_colors_app, !bar_colors_app, !heatmap_cmaps_app.
  rewrite HfillA, HfillB, HfillC, HbarA, HbarB, HbarC, HmapA, HmapB.
  simpl. rewrite !app_nil_r. repeat split; try reflexivity.
  rewrite <- HmapC. reflexivity.
Qed.

End CancerDriversCall.

(** ** The loops of plot_circos_hla *)

Lemma py_getitem_nat {A} (l : list A) (i : nat) :
  (i < List.length l)%nat -> exists a : A, py_getitem l (Z.of_nat i) = Ok a.
Proof.
  intros Hi. unfold py_getitem.
  destruct (Z.ltb_spec (Z.of_nat i) 0) as [Hneg|_]; [lia|].
  destruct (Z.ltb_spec (Z.of_nat i) 0) as [Hneg|_]; [lia|].
  destruct (Z.leb_spec (Z.of_nat (List.length l)) (Z.of_nat i)) as [Hbig|_]; [lia|].
  simpl. rewrite Nat2Z.id.
  destruct (nth_error l i) eqn:E; [eauto|].
  apply nth_error_None in E. lia.
Qed.

Lemma count_filter {A} (f : A -> cell) (k : cell) (l : list A) :
  k <> NaN ->
  List.length (filter (fun r => cell_eqb (f r) k) l) =
  count_occ cell_eq_dec (map f l) k.
Proof.
  intros Hk. induction l as [|r l IH]; simpl; [reflexivity|].
  destruct (cell_eq_dec (f r) k) as [E|E].
  - assert (Ht : cell_eqb (f r) k = true) by (apply cell_eqb_true; split; congruence).
    rewrite Ht. simpl. now rewrite IH.
  - assert (Hf : cell_eqb (f r) k = false).
    { destruct (cell_eqb (f r) k) eqn:Ht; [|reflexivity].
      apply cell_eqb_true in Ht. tauto. }
    rewrite Hf. exact IH.
Qed.

(** The rows kept for a sector are as many as the sector is wide. *)
Lemma filtered_length (df filtered : DataFrame) (c c' : string)
    (counted col : Series) (sec : Sector) (sp st en : Z) :
  getitem df c = Ok counted ->
  In sec (sectors (new_Circos (value_counts counted) sp st en)) ->
  where_eq df c (name sec) = Ok filtered ->
  getitem filtered c' = Ok col ->
  List.length col = size sec.
Proof.
  intros Hcounted Hin Hfiltered Hcol.
  destruct (value_counts_sectors counted sp st en)
    as [_ Hexact _ Hcount _ _ _ _].
  rewrite (Hcount sec Hin).
  assert (Hname : name sec <> NaN).
  { apply (Hexact (name sec)). now apply in_map. }
  unfold getitem in Hcounted. unfold where_eq in Hfiltered.
  destruct (get_loc c (columns df)) as [i|]; [|discriminate].
  injection Hcounted as <-. injection Hfiltered as <-.
  unfold getitem in Hcol. simpl in Hcol.
  destruct (get_loc c' (columns df)) as [j|]; [|discriminate].
  injection Hcol as <-. rewrite length_map. now apply count_filter.
Qed.

Section HlaLoops.

Import Hla.

Variable df : DataFrame.
Variable o : options.

Lemma hla_cancer_type_track_run (ss : list Sector) :
  forall (col_1 : Z) (track1 : option Track) (fig : figure),
  exists (track1' : option Track) (fig' : figure),
    cancer_type_track ss col_1 track1 fig = Ok (track1', fig') /\
    (ss = [] -> track1' = track1) /\
    (ss <> [] -> track1' <> None).
Proof.
  induction ss as [|sec ss' IH]; intros col_1 track1 fig.
  - exists track1, fig. repeat split; congruence.
  - simpl. do 3 run_emit.
    match goal with
    | |- context [cancer_type_track ss' ?c ?t ?f] =>
        destruct (IH c t f) as (t' & fig' & Hrun & Hnil & Hsome)
    end.
    exists t', fig'. repeat split; try congruence.
    intros _. destruct ss'; [|apply Hsome; discriminate].
    rewrite Hnil; [discriminate|reflexivity].
Qed.

Lemma rectangles_run (track1 : Track) (length_list : Series) (col_3 : Z)
    (range : list nat) :
  (forall i, In i range -> (i < List.length length_list)%nat) ->
  forall fig : figure,
  exists fig' : figure,
    rectangles track1 length_list col_3 range fig = Ok (tt, fig').
Proof.
  induction range as [|i range' IH]; intros Hrange fig.
  - exists fig. reflexivity.
  - simpl.
    destruct (py_getitem_nat length_list i) as (txt & Htxt);
      [apply Hrange; now left|].
    run_emit. run_lift Htxt. run_emit.
    apply IH. intros j Hj. apply Hrange. now right.
Qed.

(** What a finished length ring has read. *)
Lemma peptide_length_track_inv (ss : list Sector) :
  forall (col_3 : Z) (track1 track1' : option Track) (fig fig' : figure),
    peptide_length_track df o ss col_3 track1 fig = Ok (track1', fig') ->
    (ss = [] -> track1' = track1) /\
    (ss <> [] -> track1' <> None /\ has_column df (track_2_data o)).
Proof.
  induction ss as [|sec ss' IH]; intros col_3 track1 track1' fig fig' Hrun.
  - simpl in Hrun. unfold ret in Hrun. injection Hrun as <- <-.
    split; congruence.
  - simpl in Hrun.
    peel_emit Hrun.
    peel_lift Hrun filtered Hfiltered.
    peel_lift Hrun length_list Hlist.
    peel Hrun rects fig1 Hrect.
    apply where_eq_columns in Hfiltered.
    apply (filtered_has_column df) in Hlist; [|exact Hfiltered].
    apply IH in Hrun as (Hnil & Hsome).
    split; [discriminate|]. intros _. split; [|exact Hlist].
    destruct ss'; [|apply Hsome; discriminate].
    rewrite Hnil; [discriminate|reflexivity].
Qed.

(** What a finished affinity ring has read. *)
Lemma affinity_track_inv (vmin vmax : float64) (ss : list Sector) :
  forall (col_2 : Z) (track track' : option Track) (fig fig' : figure),
    affinity_track df o vmin vmax ss col_2 track fig = Ok (track', fig') ->
    (ss = [] -> track' = track) /\
    (ss <> [] ->
     track' <> None /\ has_column df (track_3_labels o) /\
     exists labels, yticks_labels vmin = Ok labels).
Proof.
  induction ss as [|sec ss' IH]; intros col_2 track track' fig fig' Hrun.
  - simpl in Hrun. unfold ret in Hrun. injection Hrun as <- <-.
    split; congruence.
  - simpl in Hrun.
    peel_emit Hrun.
    peel_lift Hrun filtered Hfiltered.
    peel_lift Hrun y Hy.
    peel_lift Hrun labels Hlabels.
    peel_emit Hrun.
    peel_lift Hrun ylabels Hylabels.
    do 4 peel_emit Hrun.
    apply where_eq_columns in Hfiltered.
    apply (filtered_has_column df) in Hlabels; [|exact Hfiltered].
    apply IH in Hrun as (Hnil & Hsome).
    split; [discriminate|]. intros _.
    split; [|split; [exact Hlabels|eauto]].
    destruct ss'; [|apply Hsome; discriminate].
    rewrite Hnil; [discriminate|reflexivity].
Qed.

Hypothesis has_track_1 : has_column df (track_1_data o).


(** The length ring completes for the sectors of the layout. *)
Lemma peptide_length_track_run (counted : Series) (sp st en : Z)
    (ss : list Sector) :
  getitem df (track_1_data o) = Ok counted ->
  has_column df (track_2_data o) ->
  (forall sec, In sec ss ->
     In sec (sectors (new_Circos (value_counts counted) sp st en))) ->
  forall (col_3 : Z) (track1 : option Track) (fig : figure),
  exists (track1' : option Track) (fig' : figure),
    peptide_length_track df o ss col_3 track1 fig = Ok (track1', fig') /\
    (ss = [] -> track1' = track1) /\
    (ss <> [] -> track1' <> None).
Proof.
  intros Hcounted Htrack_2.
  induction ss as [|sec ss' IH]; intros Hss col_3 track1 fig.
  - exists track1, fig. repeat split; congruence.
  - simpl.
    destruct (where_eq_total df (track_1_data o) (name sec) has_track_1)
      as (filtered & Hfiltered & Hcols).
    destruct (filtered_getitem df filtered _ Hcols Htrack_2)
      as (length_list & Hlist).
    run_emit. run_lift Hfiltered. run_lift Hlist.
    match goal with
    | |- context [rectangles ?t ?l ?c ?r] =>
        destruct (rectangles_run t l c r) with (fig := fig ++ [add_track t])
          as (fig1 & Hrect)
    end.
    { intros i Hi. apply in_seq in Hi. unfold track_size in Hi. simpl in Hi.
      rewrite Nat2Z.id in Hi.
      rewrite (filtered_length df filtered _ _ counted length_list sec sp st en
                 Hcounted (Hss sec (or_introl eq_refl)) Hfiltered Hlist).
      lia. }
    run_with Hrect.
    match goal with
    | |- context [peptide_length_track df o ss' ?c ?t ?f] =>
        destruct (IH (fun s Hs => Hss s (or_intror Hs)) c t f)
          as (t' & fig' & Hrun & Hnil & Hsome)
    end.
    exists t', fig'. repeat split; try congruence.
    intros _. destruct ss'; [|apply Hsome; discriminate].
    rewrite Hnil; [discriminate|reflexivity].
Qed.


Lemma affinity_track_labels (vmin vmax : float64) (e : exn) (sec : Sector)
    (ss : list Sector) (col_2 : Z) (track : option Track) (fig : figure) :
  has_column df (track_3_data o) ->
  has_column df (track_3_labels o) ->
  yticks_labels vmin = Raise e ->
  affinity_track df o vmin vmax (sec :: ss) col_2 track fig = Raise e.
Proof.
  intros Htrack_3 Hlabels Hraise. simpl.
  destruct (where_eq_total df (track_1_data o) (name sec) has_track_1)
    as (filtered & Hfiltered & Hcols).
  destruct (filtered_getitem df filtered _ Hcols Htrack_3) as (y & Hy).
  destruct (filtered_getitem df filtered _ Hcols Hlabels) as (labels & Hl).
  run_emit. run_lift Hfiltered. run_lift Hy. run_lift Hl. run_emit.
  raise_lift Hraise. reflexivity.
Qed.

End HlaLoops.

Lemma new_Circos_nonempty (d : list (cell * nat)) (sp st en : Z) :
  d <> [] -> sectors (new_Circos d sp st en) <> [].
Proof. destruct d; simpl; congruence. Qed.

Section CancerDriversFailures.

Import CancerDrivers.

Variable df : DataFrame.
Variable o : options.


Variable counted : Series.
Hypothesis Hcounted : getitem df (track_1_data o) = Ok counted.

Lemma drivers_layout_counted : layout df o = Ok (new_Circos (value_counts counted) 7 0 360).
Proof. unfold layout. now rewrite Hcounted. Qed.

Lemma drivers_compose_no_sector :
  value_counts counted = [] ->
  compose df o [] = Raise (UnboundLocalError "track1").
Proof.
  intros Hnil. unfold compose. run_lift drivers_layout_counted.
  rewrite Hnil. reflexivity.
Qed.

Hypothesis Hsectors : value_counts counted <> [].

Lemma drivers_ss_cons : exists sec ss',
    (sectors (new_Circos (value_counts counted) 7 0 360)) = sec :: ss'.
Proof.
  destruct (value_counts counted) as [|kv d] eqn:E; [congruence|].
  simpl. eauto.
Qed.


Variable max_value : float64.
Hypothesis Hmax : rbind (getitem df (track_2_data o)) np_max = Ok max_value.

Lemma drivers_has_track_1 : has_column df (track_1_data o).
Proof. now apply getitem_has_column with (col := counted). Qed.

Lemma drivers_has_track_2 : has_column df (track_2_data o).
Proof.
  apply rbind_Ok_inv in Hmax as (col & Hcol & _).
  now apply getitem_has_column with (col := col).
Qed.


Hypothesis Hquery : has_column df "query".

Lemma drivers_compose_labels (e : exn) :
  yticks_labels (rounded_max_value max_value) = Raise e ->
  compose df o [] = Raise e.
Proof.
  intros Hraise. unfold compose. run_lift drivers_layout_counted.
  destruct (cancer_type_track_run
      (sectors (new_Circos (value_counts counted) 7 0 360)) (bar_pal_start o) None [])
    as (t1 & dsA & HA & _ & _ & _ & _ & Hsome).
  destruct t1 as [track1|];
    [|exfalso; apply Hsome; [now apply new_Circos_nonempty|reflexivity]].
  run_with HA. run_emit. run_emit. run_lift Hmax.
  destruct drivers_ss_cons as (sec & ss' & ->).
  erewrite bind_Raise; [reflexivity|].
  apply tumor_frequency_track_labels;
    [exact drivers_has_track_1|exact drivers_has_track_2|exact Hquery|exact Hraise].
Qed.


End CancerDriversFailures.

(** ** A call of plot_circos_hla, as a whole *)

Section HlaCall.

Import Hla.

Variable df : DataFrame.
Variable o : options.

(** What a finished [compose] has read. *)
Lemma hla_compose_inv (circos : Circos) (fig : figure) :
  compose df o [] = Ok (circos, fig) ->
  layout df o = Ok circos /\
  sectors circos <> [] /\
  Forall (has_column df) (hla_columns o).
Proof.
  intros H. unfold compose in H.
  peel_lift H circos0 Hlayout.
  peel H track1 fig1 HA.
  destruct (hla_cancer_type_track_run (sectors circos0) (pal_start o) None [])
    as (t1 & figA & HA' & HnilA & _).
  rewrite HA' in HA. injection HA as <- <-.
  peel H tr1 fig1' Hlocal. apply local_Ok_inv in Hlocal as [-> ->].
  assert (Hss : sectors circos0 <> []).
  { intros Hnil. specialize (HnilA Hnil). discriminate. }
  peel_emit H.
  peel H track1b fig2 HB.
  apply peptide_length_track_inv in HB as (_ & HsomeB).
  destruct (HsomeB Hss) as (_ & Htrack_2).
  peel H tr1b fig2' Hlocal. apply local_Ok_inv in Hlocal as [-> ->].
  peel_emit H.
  peel_lift H min_value Hmin.
  apply rbind_Ok_inv in Hmin as (col3 & Hcol3 & _).
  peel H track fig3 HC.
  apply affinity_track_inv in HC as (_ & HsomeC).
  destruct (HsomeC Hss) as (_ & Hlabels & _).
  peel H tr fig3' Hlocal. apply local_Ok_inv in Hlocal as [-> ->].
  do 6 peel_emit H.
  unfold ret in H. injection H as <- <-.
  unfold layout in Hlayout.
  destruct (rbind_Ok_inv _ _ _ Hlayout) as (counted & Hcol1 & _).
  split; [exact Hlayout|]. split; [exact Hss|].
  repeat constructor;
    [ now apply getitem_has_column with (col := counted)
    | exact Htrack_2
    | now apply getitem_has_column with (col := col3)
    | exact Hlabels ].
Qed.

Lemma hla_compose_track_1 :
  ~ has_column df (track_1_data o) ->
  compose df o [] = Raise (KeyError (track_1_data o)).
Proof.
  intros Hmissing.
  assert (Hlayout : layout df o = Raise (KeyError (track_1_data o)))
    by (unfold layout; now rewrite missing_column_getitem).
  unfold compose. raise_lift Hlayout. reflexivity.
Qed.

Variable counted : Series.
Hypothesis Hcounted : getitem df (track_1_data o) = Ok counted.

Lemma hla_layout_counted :
  layout df o = Ok (new_Circos (value_counts counted) 7 4 360).
Proof. unfold layout. now rewrite Hcounted. Qed.

Lemma hla_compose_no_sector :
  value_counts counted = [] ->
  compose df o [] = Raise (UnboundLocalError "track1").
Proof.
  intros Hnil. unfold compose. run_lift hla_layout_counted.
  rewrite Hnil. reflexivity.
Qed.

Hypothesis Hsectors : value_counts counted <> [].

Lemma hla_ss_cons : exists sec ss',
    (sectors (new_Circos (value_counts counted) 7 4 360)) = sec :: ss'.
Proof.
  destruct (value_counts counted) as [|kv d] eqn:E; [congruence|].
  simpl. eauto.
Qed.

Lemma hla_has_track_1 : has_column df (track_1_data o).
Proof. now apply getitem_has_column with (col := counted). Qed.


Hypothesis Htrack_2 : has_column df (track_2_data o).

(** The first two rings complete. *)
Lemma hla_first_rings :
  exists (track1 track1b : Track) (figA figB : figure),
    cancer_type_track
        (sectors (new_Circos (value_counts counted) 7 4 360))
        (pal_start o) None [] = Ok (Some track1, figA) /\
    peptide_length_track df o
        (sectors (new_Circos (value_counts counted) 7 4 360)) (pal_start o) (Some track1)
      (figA ++ [text track1 (Str "A") (Some (track_end track1 + (65 # 100))%Q)
                  (Some 96) 7]) = Ok (Some track1b, figB).
Proof.
  destruct (hla_cancer_type_track_run
      (sectors (new_Circos (value_counts counted) 7 4 360)) (pal_start o) None [])
    as (t1 & figA & HA & _ & Hsome).
  destruct t1 as [track1|];
    [|exfalso; apply Hsome; [now apply new_Circos_nonempty|reflexivity]].
  destruct (peptide_length_track_run df o hla_has_track_1 counted 7 4 360
      (sectors (new_Circos (value_counts counted) 7 4 360))
              Hcounted Htrack_2 (fun s H => H) (pal_start o) (Some track1)
              (figA ++ [text track1 (Str "A")
                          (Some (track_end track1 + (65 # 100))%Q) (Some 96) 7]))
    as (t2 & figB & HB & _ & Hsome2).
  destruct t2 as [track1b|];
    [|exfalso; apply Hsome2; [now apply new_Circos_nonempty|reflexivity]].
  exists track1, track1b, figA, figB. split; assumption.
Qed.


Variable min_value : float64.
Hypothesis Hmin : rbind (getitem df (track_3_data o)) np_min = Ok min_value.

Lemma hla_has_track_3 : has_column df (track_3_data o).
Proof.
  apply rbind_Ok_inv in Hmin as (col & Hcol & _).
  now apply getitem_has_column with (col := col).
Qed.


Lemma hla_compose_labels (e : exn) :
  has_column df (track_3_labels o) ->
  yticks_labels (rounded_min_value min_value) = Raise e ->
  compose df o [] = Raise e.
Proof.
  intros Hlabels Hraise.
  destruct hla_first_rings as (track1 & track1b & figA & figB & HA & HB).
  unfold compose. run_lift hla_layout_counted.
  run_with HA. run_emit. run_emit. run_with HB. run_emit. run_emit.
  run_lift Hmin.
  destruct hla_ss_cons as (sec & ss' & ->).
  erewrite bind_Raise; [reflexivity|].
  apply affinity_track_labels;
    [exact hla_has_track_1|exact hla_has_track_3|exact Hlabels|exact Hraise].
Qed.

End HlaCall.

(** ** Calls and the files they write *)

Lemma plot_circos_result (w : world) (file_path : string) (o : CancerDrivers.options) :
  (exists e, CancerDrivers.plot_circos w file_path o = (Raise e, w)) \/
  (exists df circos fig,
     read_csv w file_path = Ok df /\
     CancerDrivers.compose df o [] = Ok (circos, fig) /\
     CancerDrivers.plot_circos w file_path o =
       (Ok tt, savefig w (CancerDrivers.file_name o)
                 {| plotted := circos; cmap := CancerDrivers.palette o;
                    drawn := fig; format := "pdf"; dpi := 300 |})).
Proof.
  unfold CancerDrivers.plot_circos.
  destruct (read_csv w file_path) as [df|e]; simpl; [|eauto].
  destruct (CancerDrivers.compose df o []) as [[circos fig]|e] eqn:E; [|eauto].
  right. exists df, circos, fig. auto.
Qed.

Lemma plot_circos_raise (w : world) (file_path : string) (df : DataFrame)
    (o : CancerDrivers.options) (e : exn) :
  read_csv w file_path = Ok df ->
  CancerDrivers.compose df o [] = Raise e ->
  CancerDrivers.plot_circos w file_path o = (Raise e, w).
Proof. unfold CancerDrivers.plot_circos. intros -> Hc. simpl. now rewrite Hc. Qed.

Lemma plot_circos_hla_result (w : world) (file_path : string) (o : Hla.options) :
  (exists e, Hla.plot_circos_hla w file_path o = (Raise e, w)) \/
  (exists df circos fig,
     read_csv w file_path = Ok df /\
     Hla.compose df o [] = Ok (circos, fig) /\
     Hla.plot_circos_hla w file_path o =
       (Ok tt, savefig w (Hla.file_name o)
                 {| plotted := circos; cmap := Hla.palette o;
                    drawn := fig; format := "pdf"; dpi := 300 |})).
Proof.
  unfold Hla.plot_circos_hla.
  destruct (read_csv w file_path) as [df|e]; simpl; [|eauto].
  destruct (Hla.compose df o []) as [[circos fig]|e] eqn:E; [|eauto].
  right. exists df, circos, fig. auto.
Qed.

Lemma plot_circos_hla_raise (w : world) (file_path : string) (df : DataFrame)
    (o : Hla.options) (e : exn) :
  read_csv w file_path = Ok df ->
  Hla.compose df o [] = Raise e ->
  Hla.plot_circos_hla w file_path o = (Raise e, w).
Proof. unfold Hla.plot_circos_hla. intros -> Hc. simpl. now rewrite Hc. Qed.







(** ** A bound that rounds to 0 *)

Lemma Qfloor_unique (x : Q) (z : Z) :
  (inject_Z z <= x)%Q -> (x < inject_Z z + 1)%Q -> Qfloor x = z.
Proof.
  intros Hlo Hhi. destruct (floor_bounds x) as [Hle Hlt].
  assert (H1 : (inject_Z z < inject_Z (Qfloor x + 1))%Q)
    by (rewrite inject_Z_succ; lra).
  assert (H2 : (inject_Z (Qfloor x) < inject_Z (z + 1))%Q)
    by (rewrite inject_Z_succ; lra).
  rewrite <- Zlt_Qlt in H1, H2. lia.
Qed.

Lemma rounded_max_value_zero (m : Q) :
  (-10 < m)%Q -> (m <= 0)%Q ->
  CancerDrivers.rounded_max_value (fin m) = fin (inject_Z 0 * 10).
Proof.
  intros Hlo Hhi.
  unfold CancerDrivers.rounded_max_value, fmul, np_ceil, fdiv, fmap.
  rewrite (Qceiling_unique (m / 10) 0); [reflexivity| |];
    change (inject_Z 0) with 0%Q; qdiv; lra.
Qed.

Lemma rounded_min_value_zero (m : Q) :
  (0 <= m)%Q -> (m < 10)%Q ->
  Hla.rounded_min_value (fin m) = fin (inject_Z 0 * 10).
Proof.
  intros Hlo Hhi.
  unfold Hla.rounded_min_value, fmul, np_floor, fdiv, fmap.
  rewrite (Qfloor_unique (m / 10) 0); [reflexivity| |];
    change (inject_Z 0) with 0%Q; qdiv; lra.
Qed.

(** C10.  In both renderers, on a table that has the columns the renderer
    reads and yields at least one sector: when the bound of the y axis rounds
    to 0 (the maximum of the frequency column in (-10, 0], the minimum of the
    binding column in [0, 10)), the labels of the y ticks are asked for with
    a step of 0, numpy refuses, and the call ends with that exception and
    without writing a file. *)
Theorem C10_zero_bound_zero_step :
  forall (wd wh : world) (pd ph : string) (dfd dfh : DataFrame)
         (od : CancerDrivers.options) (oh : Hla.options)
         (counted_d counted_h : Series) (max_value min_value : Q),
    read_csv wd pd = Ok dfd ->
    getitem dfd (CancerDrivers.track_1_data od) = Ok counted_d ->
    value_counts counted_d <> [] ->
    rbind (getitem dfd (CancerDrivers.track_2_data od)) np_max = Ok (fin max_value) ->
    (-10 < max_value)%Q -> (max_value <= 0)%Q ->
    has_column dfd "query" ->
    read_csv wh ph = Ok dfh ->
    getitem dfh (Hla.track_1_data oh) = Ok counted_h ->
    value_counts counted_h <> [] ->
    has_column dfh (Hla.track_2_data oh) ->
    rbind (getitem dfh (Hla.track_3_data oh)) np_min = Ok (fin min_value) ->
    (0 <= min_value)%Q -> (min_value < 10)%Q ->
    has_column dfh (Hla.track_3_labels oh) ->
    (exists r : Q,
       CancerDrivers.rounded_max_value (fin max_value) = fin r /\ (r == 0)%Q /\
       CancerDrivers.yticks_labels (fin r) = Raise zero_step /\
       CancerDrivers.plot_circos wd pd od = (Raise zero_step, wd)) /\
    (exists r : Q,
       Hla.rounded_min_value (fin min_value) = fin r /\ (r == 0)%Q /\
       Hla.yticks_labels (fin r) = Raise zero_step /\
       Hla.plot_circos_hla wh ph oh = (Raise zero_step, wh)).
Proof.
  intros wd wh pd ph dfd dfh od oh counted_d counted_h max_value min_value
         Hread_d Hcounted_d Hsectors_d Hmax Hlo_d Hhi_d Hquery
         Hread_h Hcounted_h Hsectors_h Htrack_2 Hmin Hlo_h Hhi_h Hlabels.
  split.
  - exists (inject_Z 0 * 10)%Q.
    pose proof (rounded_max_value_zero max_value Hlo_d Hhi_d) as Hr.
    split; [exact Hr|]. split; [reflexivity|]. split; [reflexivity|].
    apply plot_circos_raise with (df := dfd); [exact Hread_d|].
    apply drivers_compose_labels
      with (counted := counted_d) (max_value := fin max_value);
      try assumption.
    rewrite Hr. reflexivity.
  - exists (inject_Z 0 * 10)%Q.
    pose proof (rounded_min_value_zero min_value Hlo_h Hhi_h) as Hr.
    split; [exact Hr|]. split; [reflexivity|]. split; [reflexivity|].
    apply plot_circos_hla_raise with (df := dfh); [exact Hread_h|].
    apply hla_compose_labels
      with (counted := counted_h) (min_value := fin min_value);
      try assumption.
    rewrite Hr. reflexivity.
Qed.

Lemma C10_zero_bound_zero_step_witness :
  (exists r : Q,
     CancerDrivers.rounded_max_value (fin 0) = fin r /\ (r == 0)%Q /\
     CancerDrivers.yticks_labels (fin r) = Raise zero_step /\
     CancerDrivers.plot_circos (on_disk df_zero) "in.tsv" CancerDrivers.defaults =
       (Raise zero_step, on_disk df_zero)) /\
  (exists r : Q,
     Hla.rounded_min_value (fin 3) = fin r /\ (r == 0)%Q /\
     Hla.yticks_labels (fin r) = Raise zero_step /\
     Hla.plot_circos_hla (on_disk df_hla_zero) "in.tsv" hla_named =
       (Raise zero_step, on_disk df_hla_zero)).
Proof.
  apply (C10_zero_bound_zero_step
           (on_disk df_zero) (on_disk df_hla_zero) "in.tsv" "in.tsv"
           df_zero df_hla_zero CancerDrivers.defaults hla_named
           [txt "a"; txt "b"] [txt "A1"; txt "B7"] 0 3);
    try reflexivity; try discriminate; try (intros H; discriminate H).
Defined.

(** ** The colour scales of the heatmap *)

(** Indexing the seven scales: the cursor values -7 .. 6 select the entry at
    the cursor modulo 7, every other value raises. *)
Lemma pal_list_getitem (i : Z) :
  (-7 <= i < 7 ->
   py_getitem CancerDrivers.pal_list i =
     Ok (nth (Z.to_nat (i mod 7)) CancerDrivers.pal_list EmptyString)) /\
  (i < -7 \/ 7 <= i -> py_getitem CancerDrivers.pal_list i = Raise IndexError).
Proof.
  split.
  - intros Hi.
    assert (H : i = -7 \/ i = -6 \/ i = -5 \/ i = -4 \/ i = -3 \/ i = -2 \/ i = -1 \/
                i = 0 \/ i = 1 \/ i = 2 \/ i = 3 \/ i = 4 \/ i = 5 \/ i = 6) by lia.
    repeat (destruct H as [->|H]; [reflexivity|]). subst i. reflexivity.
  - intros Hi. unfold py_getitem.
    change (Z.of_nat (List.length CancerDrivers.pal_list)) with 7.
    destruct (Z.ltb_spec i 0) as [Hneg|Hpos].
    + destruct (Z.ltb_spec (i + 7) 0) as [_|H]; [reflexivity|lia].
    + destruct (Z.ltb_spec i 0) as [H|_]; [lia|].
      destruct (Z.leb_spec 7 i) as [_|H]; [reflexivity|lia].
Qed.

(** A call that returns has stayed inside the list: with [n] sectors the
    last cursor value [hmap_pal_start + n] is at most 6. *)
Lemma heatmap_needs_few_sectors (w w' : world) (file_path : string)
    (o : CancerDrivers.options) :
  CancerDrivers.plot_circos w file_path o = (Ok tt, w') ->
  exists doc : document,
    w' = savefig w (CancerDrivers.file_name o) doc /\
    CancerDrivers.hmap_pal_start o + Z.of_nat (List.length (sectors (plotted doc))) < 7.
Proof.
  intros Hcall.
  destruct (plot_circos_result w file_path o)
    as [(e & He)|(df & circos & fig & _ & Hcompose & Hcall')]; [congruence|].
  rewrite Hcall' in Hcall. injection Hcall as <-.
  apply drivers_compose_inv in Hcompose as (_ & Hss & _ & _ & _ & Hmap).
  eexists. split; [reflexivity|]. simpl.
  destruct (List.length (sectors circos)) as [|n] eqn:Hlen.
  { destruct (sectors circos); [congruence|discriminate]. }
  assert (Hnth : nth_error (map (py_getitem CancerDrivers.pal_list)
                   (cursor (CancerDrivers.hmap_pal_start o) (S n))) n =
                 Some (py_getitem CancerDrivers.pal_list
                         (CancerDrivers.hmap_pal_start o + 1 + Z.of_nat n)))
    by (rewrite nth_error_map, cursor_nth by lia; reflexivity).
  rewrite <- Hmap, nth_error_map in Hnth.
  destruct (nth_error (heatmap_cmaps fig) n) as [scale|]; [|discriminate].
  injection Hnth as Hnth.
  destruct (Z_lt_le_dec (CancerDrivers.hmap_pal_start o + 1 + Z.of_nat n) 7)
    as [Hlt|Hge]; [lia|].
  destruct (pal_list_getitem (CancerDrivers.hmap_pal_start o + 1 + Z.of_nat n))
    as [_ Hraise].
  rewrite Hraise in Hnth by lia. discriminate.
Qed.

(** C2, the failing call.  With eight categories and the default offsets the
    cursor of the heatmap ring reaches 7 at the eighth sector; the list of
    seven scales is indexed with 7 as it is, not with 7 modulo 7, and the call
    ends with [IndexError] and without a file. *)
Theorem C2_eighth_sector_raises :
  List.length (value_counts [txt "c1"; txt "c2"; txt "c3"; txt "c4";
                             txt "c5"; txt "c6"; txt "c7"; txt "c8"]) = 8%nat /\
  cursor (CancerDrivers.hmap_pal_start CancerDrivers.defaults) 8 =
    [0; 1; 2; 3; 4; 5; 6; 7] /\
  py_getitem CancerDrivers.pal_list 7 = Raise IndexError /\
  nth (Z.to_nat (7 mod 7)) CancerDrivers.pal_list EmptyString = "Reds" /\
  CancerDrivers.plot_circos (on_disk df_eight) "in.tsv" CancerDrivers.defaults =
    (Raise IndexError, on_disk df_eight).
Proof. repeat split; vm_compute; reflexivity. Qed.

(** ** Defaults *)

(** C9, as amended.  Every option of both renderers has a default value, the
    column names of the HLA renderer included: they default to the empty
    string.  A call of the HLA renderer that leaves them out is bound to the
    empty names and, on a table without a column of that name, ends with the
    column lookup error for the empty name and without a file. *)
Theorem C9_every_option_has_a_default :
  forall (w : world) (file_path : string) (df : DataFrame),
    read_csv w file_path = Ok df ->
    ~ has_column df EmptyString ->
    (forall p d, In (p, d) CancerDrivers.parameters -> p <> "file_path" -> d <> None) /\
    (forall p d, In (p, d) Hla.parameters -> p <> "file_path" -> d <> None) /\
    default_of "track_1_data" Hla.parameters =
      Some (Some (PyStr (Hla.track_1_data Hla.defaults))) /\
    default_of "track_2_data" Hla.parameters =
      Some (Some (PyStr (Hla.track_2_data Hla.defaults))) /\
    default_of "track_3_data" Hla.parameters =
      Some (Some (PyStr (Hla.track_3_data Hla.defaults))) /\
    default_of "track_3_labels" Hla.parameters =
      Some (Some (PyStr (Hla.track_3_labels Hla.defaults))) /\
    hla_columns Hla.defaults = [EmptyString; EmptyString; EmptyString; EmptyString] /\
    Hla.plot_circos_hla w file_path Hla.defaults = (Raise (KeyError EmptyString), w).
Proof.
  intros w file_path df Hread Hmissing.
  split; [|split].
  - intros p d Hin Hp. simpl in Hin.
    repeat (destruct Hin as [[= <- <-]|Hin]; [congruence|]). contradiction.
  - intros p d Hin Hp. simpl in Hin.
    repeat (destruct Hin as [[= <- <-]|Hin]; [congruence|]). contradiction.
  - repeat (split; [reflexivity|]).
    apply plot_circos_hla_raise with (df := df); [exact Hread|].
    now apply hla_compose_track_1.
Qed.

Lemma C9_every_option_has_a_default_witness :
  read_csv (on_disk df_hla) "in.tsv" = Ok df_hla /\
  ~ has_column df_hla EmptyString /\
  (forall p d, In (p, d) CancerDrivers.parameters -> p <> "file_path" -> d <> None) /\
  (forall p d, In (p, d) Hla.parameters -> p <> "file_path" -> d <> None) /\
  default_of "track_1_data" Hla.parameters =
    Some (Some (PyStr (Hla.track_1_data Hla.defaults))) /\
  default_of "track_2_data" Hla.parameters =
    Some (Some (PyStr (Hla.track_2_data Hla.defaults))) /\
  default_of "track_3_data" Hla.parameters =
    Some (Some (PyStr (Hla.track_3_data Hla.defaults))) /\
  default_of "track_3_labels" Hla.parameters =
    Some (Some (PyStr (Hla.track_3_labels Hla.defaults))) /\
  hla_columns Hla.defaults = [EmptyString; EmptyString; EmptyString; EmptyString] /\
  Hla.plot_circos_hla (on_disk df_hla) "in.tsv" Hla.defaults =
    (Raise (KeyError EmptyString), on_disk df_hla).
Proof.
  split; [reflexivity|].
  split; [intros H; apply H; reflexivity|].
  apply (C9_every_option_has_a_default (on_disk df_hla) "in.tsv" df_hla);
    [reflexivity|intros H; apply H; reflexivity].
Defined.

(** C9 as stated fails: the three column names of the HLA renderer do have a
    default in the [def] line. *)
Lemma C9_counterexample :
  ~ (default_of "track_1_data" Hla.parameters = Some None /\
     default_of "track_2_data" Hla.parameters = Some None /\
     default_of "track_3_data" Hla.parameters = Some None).
Proof. intros [H _]. vm_compute in H. discriminate H. Qed.

(** ** Worked calls *)

(** The three-row table is drawn and saved once. *)
Example drivers_call_returns :
  fst (CancerDrivers.plot_circos (on_disk df_abb) "in.tsv" CancerDrivers.defaults) = Ok tt /\
  map fst (written (snd (CancerDrivers.plot_circos (on_disk df_abb) "in.tsv"
                           CancerDrivers.defaults))) = ["plot.pdf"].
Proof. split; vm_compute; reflexivity. Qed.

Example hla_call_returns :
  fst (Hla.plot_circos_hla (on_disk df_hla) "in.tsv" hla_named) = Ok tt /\
  map fst (written (snd (Hla.plot_circos_hla (on_disk df_hla) "in.tsv" hla_named))) =
    ["plot.pdf"].
Proof. split; vm_compute; reflexivity. Qed.

(** A table without data lines has no sector: the call stops where it reads
    the variable that only the first loop assigns. *)
Example drivers_call_without_rows :
  CancerDrivers.plot_circos (on_disk df_header_only) "in.tsv" CancerDrivers.defaults =
    (Raise (UnboundLocalError "track1"), on_disk df_header_only).
Proof. vm_compute. reflexivity. Qed.

(** A file that is not there. *)
Example drivers_call_without_file :
  CancerDrivers.plot_circos (on_disk df_abb) "other.tsv" CancerDrivers.defaults =
    (Raise (FileNotFoundError "other.tsv"), on_disk df_abb).
Proof. vm_compute. reflexivity. Qed.

(** The HLA table read by the driver renderer: the category column is the
    first one it misses. *)
Example drivers_call_names_category :
  CancerDrivers.plot_circos (on_disk df_hla) "in.tsv" CancerDrivers.defaults =
    (Raise (KeyError "Cancer_type"), on_disk df_hla).
Proof. vm_compute. reflexivity. Qed.

(** The HLA renderer on the driver table, with a label column that is not
    there. *)
Example hla_call_names_labels :
  Hla.plot_circos_hla (on_disk df_abb) "in.tsv"
    (hla_options "Cancer_type" "Tumors" "Tumors" "pep") =
    (Raise (KeyError "pep"), on_disk df_abb).
Proof. vm_compute. reflexivity. Qed.

(** Seven categories fit the seven colour scales. *)
Example seven_scales :
  map (py_getitem CancerDrivers.pal_list) (cursor (-1) 7) =
    map Ok CancerDrivers.pal_list.
Proof. vm_compute. reflexivity. Qed.

(** ** binary64: powers of two, logarithm, nearest integer *)

Lemma pow2_pos (e : Z) : (0 < B64.pow2 e)%Q.
Proof. unfold B64.pow2. apply Qpower_0_lt. reflexivity. Qed.

Lemma pow2_add (a b : Z) : (B64.pow2 (a + b) == B64.pow2 a * B64.pow2 b)%Q.
Proof. unfold B64.pow2. apply Qpower_plus. discriminate. Qed.

Lemma pow2_le (a b : Z) : a <= b -> (B64.pow2 a <= B64.pow2 b)%Q.
Proof. intros H. unfold B64.pow2. apply Qpower_le_compat_l; [exact H|discriminate]. Qed.

Lemma pow2_lt (a b : Z) : a < b -> (B64.pow2 a < B64.pow2 b)%Q.
Proof. intros H. unfold B64.pow2. apply Qpower_lt_compat_l; [exact H|reflexivity]. Qed.

Lemma pow2_lt_inv (a b : Z) : (B64.pow2 a < B64.pow2 b)%Q -> a < b.
Proof. intros H. unfold B64.pow2 in H. apply Qpower_lt_compat_l_inv in H; [exact H|reflexivity]. Qed.

Lemma pow2_Z (e : Z) : 0 <= e -> (B64.pow2 e == inject_Z (2 ^ e))%Q.
Proof. intros H. unfold B64.pow2. now rewrite Zpower_Qpower. Qed.

Lemma pow2_succ (e : Z) : (B64.pow2 (e + 1) == 2 * B64.pow2 e)%Q.
Proof. rewrite pow2_add. change (B64.pow2 1) with 2%Q. ring. Qed.

Lemma pow2_sub (a b : Z) : (B64.pow2 (a - b) == B64.pow2 a / B64.pow2 b)%Q.
Proof. unfold B64.pow2. apply Qpower_minus. discriminate. Qed.

(** A multiple of [2^E] is a multiple of [2^e] for [e <= E]. *)
Lemma grid_refine (C e E : Z) :
  e <= E ->
  (inject_Z C * B64.pow2 E == inject_Z (C * 2 ^ (E - e)) * B64.pow2 e)%Q.
Proof.
  intros H. rewrite inject_Z_mult, <- pow2_Z by lia.
  replace E with ((E - e) + e) at 1 by lia. rewrite pow2_add. ring.
Qed.

Lemma ilog2_spec (x : Q) :
  (0 < x)%Q ->
  (B64.pow2 (B64.ilog2 x) <= x /\ x < B64.pow2 (B64.ilog2 x + 1))%Q.
Proof.
  intros Hx. destruct x as [n d].
  assert (Hn : 0 < n).
  { unfold Qlt in Hx. simpl in Hx. lia. }
  unfold B64.ilog2. cbn [Qnum Qden].
  set (ln := Z.log2 n). set (ld := Z.log2 (Z.pos d)).
  destruct (Z.log2_spec n Hn) as [Hn1 Hn2]. fold ln in Hn1, Hn2.
  destruct (Z.log2_spec (Z.pos d) (Pos2Z.is_pos d)) as [Hd1 Hd2]. fold ld in Hd1, Hd2.
  assert (Hln : 0 <= ln) by apply Z.log2_nonneg.
  assert (Hld : 0 <= ld) by apply Z.log2_nonneg.
  assert (Hx' : (n # d == inject_Z n / inject_Z (Z.pos d))%Q) by apply Qmake_Qdiv.
  assert (Hdpos : (0 < inject_Z (Z.pos d))%Q).
  { change 0%Q with (inject_Z 0). rewrite <- Zlt_Qlt. lia. }
  assert (Hup : (n # d < B64.pow2 (ln - ld + 1))%Q).
  { rewrite Hx'. apply Qlt_shift_div_r; [exact Hdpos|].
    replace (ln - ld + 1) with ((ln + 1) - ld) by lia.
    rewrite pow2_sub. rewrite !pow2_Z by lia.
    assert (H1 : (inject_Z n < inject_Z (2 ^ (ln + 1)))%Q).
    { rewrite <- Zlt_Qlt. exact Hn2. }
    assert (H2 : (inject_Z (2 ^ ld) <= inject_Z (Z.pos d))%Q).
    { rewrite <- Zle_Qle. exact Hd1. }
    assert (H3 : (0 < inject_Z (2 ^ ld))%Q).
    { change 0%Q with (inject_Z 0). rewrite <- Zlt_Qlt. apply Z.pow_pos_nonneg; lia. }
    assert (H4 : (0 < inject_Z (2 ^ (ln + 1)))%Q).
    { change 0%Q with (inject_Z 0). rewrite <- Zlt_Qlt. apply Z.pow_pos_nonneg; lia. }
    eapply Qlt_le_trans; [exact H1|].
    setoid_replace (inject_Z (2 ^ (ln + 1)) / inject_Z (2 ^ ld) * inject_Z (Z.pos d))%Q
      with (inject_Z (2 ^ (ln + 1)) * (inject_Z (Z.pos d) / inject_Z (2 ^ ld)))%Q
      by (field; intros Hz; rewrite Hz in H3; discriminate).
    rewrite <- (Qmult_1_r (inject_Z (2 ^ (ln + 1)))) at 1.
    apply Qmult_le_l; [exact H4|].
    apply Qle_shift_div_l; [exact H3|]. now rewrite Qmult_1_l. }
  assert (Hlow : (B64.pow2 (ln - ld - 1) < n # d)%Q).
  { rewrite Hx'. apply Qlt_shift_div_l; [exact Hdpos|].
    replace (ln - ld - 1) with (ln - (ld + 1)) by lia.
    rewrite pow2_sub. rewrite !pow2_Z by lia.
    assert (H1 : (inject_Z (2 ^ ln) <= inject_Z n)%Q).
    { rewrite <- Zle_Qle. exact Hn1. }
    assert (H2 : (inject_Z (Z.pos d) < inject_Z (2 ^ (ld + 1)))%Q).
    { rewrite <- Zlt_Qlt. exact Hd2. }
    assert (H3 : (0 < inject_Z (2 ^ (ld + 1)))%Q).
    { change 0%Q with (inject_Z 0). rewrite <- Zlt_Qlt. apply Z.pow_pos_nonneg; lia. }
    assert (H4 : (0 < inject_Z (2 ^ ln))%Q).
    { change 0%Q with (inject_Z 0). rewrite <- Zlt_Qlt. apply Z.pow_pos_nonneg; lia. }
    eapply Qlt_le_trans; [|exact H1].
    assert (H5 : (inject_Z (2 ^ ln) / inject_Z (2 ^ (ld + 1)) * inject_Z (Z.pos d) ==
                  inject_Z (2 ^ ln) * (inject_Z (Z.pos d) / inject_Z (2 ^ (ld + 1))))%Q).
    { field. intros Hz. rewrite Hz in H3. discriminate. }
    rewrite H5.
    rewrite <- (Qmult_1_r (inject_Z (2 ^ ln))) at 2.
    apply Qmult_lt_l; [exact H4|].
    apply Qlt_shift_div_r; [exact H3|]. now rewrite Qmult_1_l. }
  destruct (Qle_bool (B64.pow2 (ln - ld)) (n # d)) eqn:E.
  - apply Qle_bool_iff in E. split; assumption.
  - assert (Hlt : (n # d < B64.pow2 (ln - ld))%Q).
    { apply Qnot_le_lt. intros H. apply Qle_bool_iff in H. congruence. }
    replace (ln - ld - 1 + 1) with (ln - ld) by lia.
    split; [apply Qlt_le_weak; exact Hlow|exact Hlt].
Qed.

Lemma ilog2_unique (x : Q) (L : Z) :
  (B64.pow2 L <= x)%Q -> (x < B64.pow2 (L + 1))%Q -> B64.ilog2 x = L.
Proof.
  intros H1 H2.
  assert (Hx : (0 < x)%Q) by (eapply Qlt_le_trans; [apply (pow2_pos L)|exact H1]).
  destruct (ilog2_spec x Hx) as [H3 H4].
  assert (A : B64.ilog2 x < L + 1).
  { apply pow2_lt_inv. eapply Qle_lt_trans; [exact H3|exact H2]. }
  assert (B : L < B64.ilog2 x + 1).
  { apply pow2_lt_inv. eapply Qle_lt_trans; [exact H1|exact H4]. }
  lia.
Qed.

Lemma ilog2_mono (x y : Q) :
  (0 < x)%Q -> (x <= y)%Q -> B64.ilog2 x <= B64.ilog2 y.
Proof.
  intros Hx Hxy.
  assert (Hy : (0 < y)%Q) by (eapply Qlt_le_trans; eassumption).
  destruct (ilog2_spec x Hx) as [H1 _]. destruct (ilog2_spec y Hy) as [_ H2].
  assert (A : B64.ilog2 x < B64.ilog2 y + 1).
  { apply pow2_lt_inv. eapply Qle_lt_trans; [exact H1|].
    eapply Qle_lt_trans; [exact Hxy|exact H2]. }
  lia.
Qed.

Lemma ilog2_comp (x y : Q) : (0 < x)%Q -> (x == y)%Q -> B64.ilog2 x = B64.ilog2 y.
Proof.
  intros Hx Hxy. destruct (ilog2_spec x Hx) as [H1 H2].
  symmetry. apply ilog2_unique; rewrite <- Hxy; assumption.
Qed.

(** The nearest integer. *)
Lemma rne_cases (y : Q) :
  (B64.rne y = Qfloor y /\ (y - inject_Z (Qfloor y) <= 1 # 2)%Q) \/
  (B64.rne y = Qfloor y + 1 /\ (1 # 2 <= y - inject_Z (Qfloor y))%Q).
Proof.
  unfold B64.rne.
  destruct (Qcompare_spec (y - inject_Z (Qfloor y)) (1 # 2)) as [E|E|E].
  - destruct (Z.even (Qfloor y)).
    + left. split; [reflexivity|]. rewrite E. apply Qle_refl.
    + right. split; [reflexivity|]. rewrite E. apply Qle_refl.
  - left. split; [reflexivity|]. now apply Qlt_le_weak.
  - right. split; [reflexivity|]. now apply Qlt_le_weak.
Qed.

Lemma rne_err (y : Q) :
  (y - (1 # 2) <= inject_Z (B64.rne y) /\ inject_Z (B64.rne y) <= y + (1 # 2))%Q.
Proof.
  pose proof (Qfloor_le y) as Hlo. pose proof (Qlt_floor y) as Hhi.
  rewrite inject_Z_plus in Hhi. change (inject_Z 1) with 1%Q in Hhi.
  destruct (rne_cases y) as [[-> H]|[-> H]].
  - split; lra.
  - rewrite inject_Z_plus. change (inject_Z 1) with 1%Q. split; lra.
Qed.

Lemma rne_Z (y : Q) (n : Z) : (y == inject_Z n)%Q -> B64.rne y = n.
Proof.
  intros Hy. unfold B64.rne.
  assert (Hf : Qfloor y = n) by (rewrite Hy; apply Qfloor_Z).
  rewrite Hf.
  destruct (Qcompare_spec (y - inject_Z n) (1 # 2)) as [E|E|E].
  - rewrite Hy in E. exfalso. revert E. unfold Qminus. rewrite Qplus_opp_r. discriminate.
  - reflexivity.
  - rewrite Hy in E. exfalso. revert E. unfold Qminus. rewrite Qplus_opp_r. discriminate.
Qed.

Lemma rne_mono (x y : Q) : (x <= y)%Q -> B64.rne x <= B64.rne y.
Proof.
  intros Hxy.
  assert (Hf : Qfloor x <= Qfloor y) by now apply Qfloor_resp_le.
  unfold B64.rne.
  destruct (Z.eq_dec (Qfloor x) (Qfloor y)) as [E|E].
  - rewrite E.
    destruct (Qcompare_spec (x - inject_Z (Qfloor y)) (1 # 2)) as [A|A|A];
      destruct (Qcompare_spec (y - inject_Z (Qfloor y)) (1 # 2)) as [B|B|B];
      try destruct (Z.even (Qfloor y)); try lia; exfalso; lra.
  - destruct (Qcompare (x - inject_Z (Qfloor x)) (1 # 2));
      destruct (Qcompare (y - inject_Z (Qfloor y)) (1 # 2));
      try destruct (Z.even (Qfloor x)); try destruct (Z.even (Qfloor y)); lia.
Qed.

Lemma rne_comp (x y : Q) : (x == y)%Q -> B64.rne x = B64.rne y.
Proof.
  intros H. apply Z.le_antisymm; apply rne_mono; rewrite H; apply Qle_refl.
Qed.

(** ** binary64: rounding *)

Lemma ulp_exp_bounds (x : Q) :
  B64.ilog2 x - 52 <= B64.ulp_exp x /\ -1074 <= B64.ulp_exp x.
Proof. unfold B64.ulp_exp. lia. Qed.

Lemma ulp_exp_mono (x y : Q) :
  (0 < x)%Q -> (x <= y)%Q -> B64.ulp_exp x <= B64.ulp_exp y.
Proof.
  intros Hx Hxy. pose proof (ilog2_mono x y Hx Hxy). unfold B64.ulp_exp. lia.
Qed.

Lemma ulp_exp_comp (x y : Q) :
  (0 < x)%Q -> (x == y)%Q -> B64.ulp_exp x = B64.ulp_exp y.
Proof. intros Hx Hxy. unfold B64.ulp_exp. now rewrite (ilog2_comp x y). Qed.

Lemma scaled (x : Q) (e : Z) : (x / B64.pow2 e * B64.pow2 e == x)%Q.
Proof. field. intros H. pose proof (pow2_pos e) as P. rewrite H in P. discriminate. Qed.

(** Rounding does not cross a multiple of the last place. *)
Lemma rnd_pos_le_grid (x : Q) (C E : Z) :
  B64.ulp_exp x <= E ->
  (x <= inject_Z C * B64.pow2 E)%Q ->
  (B64.rnd_pos x <= inject_Z C * B64.pow2 E)%Q.
Proof.
  intros HE Hx. rewrite (grid_refine C (B64.ulp_exp x) E HE) in *.
  unfold B64.rnd_pos. set (e := B64.ulp_exp x) in *.
  apply Qmult_le_compat_r; [|apply Qlt_le_weak, pow2_pos].
  rewrite <- Zle_Qle.
  apply Z.le_trans with (B64.rne (inject_Z (C * 2 ^ (E - e)))).
  - apply rne_mono. apply Qle_shift_div_r; [apply pow2_pos|exact Hx].
  - rewrite (rne_Z _ (C * 2 ^ (E - e))) by reflexivity. lia.
Qed.

Lemma rnd_pos_ge_grid (x : Q) (C E : Z) :
  B64.ulp_exp x <= E ->
  (inject_Z C * B64.pow2 E <= x)%Q ->
  (inject_Z C * B64.pow2 E <= B64.rnd_pos x)%Q.
Proof.
  intros HE Hx. rewrite (grid_refine C (B64.ulp_exp x) E HE) in *.
  unfold B64.rnd_pos. set (e := B64.ulp_exp x) in *.
  apply Qmult_le_compat_r; [|apply Qlt_le_weak, pow2_pos].
  rewrite <- Zle_Qle.
  apply Z.le_trans with (B64.rne (inject_Z (C * 2 ^ (E - e)))).
  - rewrite (rne_Z _ (C * 2 ^ (E - e))) by reflexivity. lia.
  - apply rne_mono. apply Qle_shift_div_l; [apply pow2_pos|exact Hx].
Qed.

Lemma rnd_pos_nonneg (x : Q) : (0 <= x)%Q -> (0 <= B64.rnd_pos x)%Q.
Proof.
  intros Hx.
  assert (H : (inject_Z 0 * B64.pow2 (B64.ulp_exp x) <= B64.rnd_pos x)%Q).
  { apply rnd_pos_ge_grid; [lia|]. change (inject_Z 0) with 0%Q.
    rewrite Qmult_0_l. exact Hx. }
  change (inject_Z 0) with 0%Q in H. now rewrite Qmult_0_l in H.
Qed.

(** The error of rounding is at most half a unit in the last place. *)
Lemma rnd_pos_err (x : Q) :
  (x - B64.pow2 (B64.ulp_exp x) / 2 <= B64.rnd_pos x /\
   B64.rnd_pos x <= x + B64.pow2 (B64.ulp_exp x) / 2)%Q.
Proof.
  unfold B64.rnd_pos. set (e := B64.ulp_exp x).
  pose proof (pow2_pos e) as Hp.
  destruct (rne_err (x / B64.pow2 e)) as [Hlo Hhi].
  set (R := inject_Z (B64.rne (x / B64.pow2 e))) in *.
  apply (Qmult_le_compat_r _ _ (B64.pow2 e)) in Hlo; [|now apply Qlt_le_weak].
  apply (Qmult_le_compat_r _ _ (B64.pow2 e)) in Hhi; [|now apply Qlt_le_weak].
  split.
  - eapply Qle_trans; [|exact Hlo]. apply Qle_lteq. right.
    field. intros Hz. rewrite Hz in Hp. discriminate.
  - eapply Qle_trans; [exact Hhi|]. apply Qle_lteq. right.
    field. intros Hz. rewrite Hz in Hp. discriminate.
Qed.

Lemma rnd_pos_comp (x y : Q) :
  (0 < x)%Q -> (x == y)%Q -> (B64.rnd_pos x == B64.rnd_pos y)%Q.
Proof.
  intros Hx Hxy. unfold B64.rnd_pos.
  rewrite (ulp_exp_comp x y Hx Hxy).
  rewrite (rne_comp (x / B64.pow2 (B64.ulp_exp y)) (y / B64.pow2 (B64.ulp_exp y)));
    [reflexivity|]. now rewrite Hxy.
Qed.

Lemma rnd_pos_mono (x y : Q) :
  (0 < x)%Q -> (x <= y)%Q -> (B64.rnd_pos x <= B64.rnd_pos y)%Q.
Proof.
  intros Hx Hxy.
  assert (Hy : (0 < y)%Q) by (eapply Qlt_le_trans; eassumption).
  pose proof (ulp_exp_mono x y Hx Hxy) as He.
  destruct (Z.eq_dec (B64.ulp_exp x) (B64.ulp_exp y)) as [E|E].
  - unfold B64.rnd_pos. rewrite E.
    apply Qmult_le_compat_r; [|apply Qlt_le_weak, pow2_pos].
    rewrite <- Zle_Qle. apply rne_mono.
    apply Qmult_le_compat_r; [exact Hxy|].
    apply Qlt_le_weak, Qinv_lt_0_compat, pow2_pos.
  - (* a power of two lies between them *)
    assert (Hy52 : B64.ulp_exp y = B64.ilog2 y - 52).
    { unfold B64.ulp_exp in *. lia. }
    assert (HL : B64.ilog2 x + 1 <= B64.ilog2 y).
    { unfold B64.ulp_exp in *. lia. }
    destruct (ilog2_spec x Hx) as [_ Hx2]. destruct (ilog2_spec y Hy) as [Hy1 _].
    set (L := B64.ilog2 y) in *.
    assert (Hmid : (inject_Z 1 * B64.pow2 L == B64.pow2 L)%Q) by (change (inject_Z 1) with 1%Q; ring).
    apply Qle_trans with (inject_Z 1 * B64.pow2 L)%Q.
    + apply rnd_pos_le_grid; [lia|]. rewrite Hmid.
      apply Qlt_le_weak. eapply Qlt_le_trans; [exact Hx2|]. now apply pow2_le.
    + apply rnd_pos_ge_grid; [lia|]. now rewrite Hmid.
Qed.

(** Numbers with a mantissa of 53 bits are left alone. *)
Lemma rnd_pos_fix (x : Q) (M E : Z) :
  (0 < x)%Q ->
  (x == inject_Z M * B64.pow2 E)%Q ->
  M < 2 ^ 53 -> -1074 <= E ->
  (B64.rnd_pos x == x)%Q.
Proof.
  intros Hx HM Hlt HE.
  assert (He : B64.ulp_exp x <= E).
  { destruct (ilog2_spec x Hx) as [H1 _].
    assert (H2 : (x < B64.pow2 (53 + E))%Q).
    { rewrite HM, pow2_add. apply Qmult_lt_compat_r; [apply pow2_pos|].
      rewrite pow2_Z by lia. now rewrite <- Zlt_Qlt. }
    assert (B64.ilog2 x < 53 + E).
    { apply pow2_lt_inv. eapply Qle_lt_trans; eassumption. }
    unfold B64.ulp_exp. lia. }
  apply Qle_antisym.
  - rewrite HM at 2. apply rnd_pos_le_grid; [exact He|]. rewrite HM. apply Qle_refl.
  - rewrite HM at 1. apply rnd_pos_ge_grid; [exact He|]. rewrite HM. apply Qle_refl.
Qed.

Lemma Qopp_opp_eq (x : Q) : (- - x)%Q = x.
Proof. destruct x as [n d]. unfold Qopp. cbn. now rewrite Z.opp_involutive. Qed.

Lemma rnd_pos_spec (x : Q) : (0 < x)%Q -> B64.rnd x = B64.rnd_pos x.
Proof.
  intros H. unfold B64.rnd.
  destruct (Qcompare_spec x 0) as [E|E|E]; [exfalso; lra|exfalso; lra|reflexivity].
Qed.

Lemma rnd_neg_spec (x : Q) : (x < 0)%Q -> B64.rnd x = (- B64.rnd_pos (- x))%Q.
Proof.
  intros H. unfold B64.rnd.
  destruct (Qcompare_spec x 0) as [E|E|E]; [exfalso; lra|reflexivity|exfalso; lra].
Qed.

Lemma rnd_zero_spec (x : Q) : (x == 0)%Q -> B64.rnd x = 0%Q.
Proof.
  intros H. unfold B64.rnd.
  destruct (Qcompare_spec x 0) as [E|E|E]; [reflexivity|exfalso; lra|exfalso; lra].
Qed.

Lemma rnd_opp (x : Q) : (B64.rnd (- x) == - B64.rnd x)%Q.
Proof.
  destruct (Q_dec x 0) as [[H|H]|H].
  - rewrite (rnd_neg_spec x H), (rnd_pos_spec (- x)) by lra. ring.
  - rewrite (rnd_pos_spec x H), (rnd_neg_spec (- x)) by lra.
    now rewrite Qopp_opp_eq.
  - rewrite (rnd_zero_spec x H), (rnd_zero_spec (- x)) by lra. reflexivity.
Qed.

Lemma rnd_comp (x y : Q) : (x == y)%Q -> (B64.rnd x == B64.rnd y)%Q.
Proof.
  intros Hxy. destruct (Q_dec x 0) as [[H|H]|H].
  - rewrite (rnd_neg_spec x H), (rnd_neg_spec y) by lra.
    rewrite (rnd_pos_comp (- x) (- y)); [reflexivity|lra|lra].
  - rewrite (rnd_pos_spec x H), (rnd_pos_spec y) by lra.
    now apply rnd_pos_comp.
  - rewrite (rnd_zero_spec x H), (rnd_zero_spec y) by lra. reflexivity.
Qed.

Lemma rnd_mono (x y : Q) : (x <= y)%Q -> (B64.rnd x <= B64.rnd y)%Q.
Proof.
  intros Hxy.
  destruct (Q_dec x 0) as [[Hx|Hx]|Hx]; destruct (Q_dec y 0) as [[Hy|Hy]|Hy];
    try (exfalso; lra).
  - rewrite (rnd_neg_spec x Hx), (rnd_neg_spec y Hy).
    apply Qopp_le_compat. apply rnd_pos_mono; lra.
  - rewrite (rnd_neg_spec x Hx), (rnd_pos_spec y Hy).
    pose proof (rnd_pos_nonneg (- x)). pose proof (rnd_pos_nonneg y). lra.
  - rewrite (rnd_neg_spec x Hx), (rnd_zero_spec y Hy).
    pose proof (rnd_pos_nonneg (- x)). lra.
  - rewrite (rnd_pos_spec x Hx), (rnd_pos_spec y Hy). now apply rnd_pos_mono.
  - rewrite (rnd_zero_spec x Hx), (rnd_pos_spec y Hy).
    apply rnd_pos_nonneg. lra.
  - rewrite (rnd_zero_spec x Hx), (rnd_zero_spec y Hy). apply Qle_refl.
Qed.

Lemma rnd_fix (x : Q) (M E : Z) :
  (x == inject_Z M * B64.pow2 E)%Q ->
  - 2 ^ 53 < M < 2 ^ 53 -> -1074 <= E ->
  (B64.rnd x == x)%Q.
Proof.
  intros HM Hlt HE. pose proof (pow2_pos E) as Hp.
  destruct (Q_dec x 0) as [[H|H]|H].
  - rewrite (rnd_neg_spec x H).
    rewrite (rnd_pos_fix (- x) (- M) E); [ring|lra| |lia|exact HE].
    rewrite HM, inject_Z_opp. ring.
  - rewrite (rnd_pos_spec x H).
    apply (rnd_pos_fix x M E); [exact H|exact HM|lia|exact HE].
  - now rewrite (rnd_zero_spec x H), H.
Qed.

(** Integers below [2^53] are binary64 numbers. *)
Lemma rnd_Z (x : Q) (n : Z) :
  (x == inject_Z n)%Q -> - 2 ^ 53 < n < 2 ^ 53 -> (B64.rnd x == x)%Q.
Proof.
  intros Hx Hn. apply (rnd_fix x n 0); [|exact Hn|lia].
  rewrite Hx. change (B64.pow2 0) with 1%Q. ring.
Qed.

(** ** binary64: a tenth of a number, and the integer next to it *)

Lemma Z_small (D : Z) (p : Q) :
  (0 < p)%Q -> (- p < inject_Z D * p)%Q -> (inject_Z D * p < p)%Q -> D = 0.
Proof.
  intros Hp Hlo Hhi.
  assert (H1 : (inject_Z D < inject_Z 1)%Q).
  { change (inject_Z 1) with 1%Q.
    apply (Qmult_lt_r _ _ p Hp). now rewrite Qmult_1_l. }
  assert (H2 : (inject_Z (-1) < inject_Z D)%Q).
  { change (inject_Z (-1)) with (-1)%Q.
    apply (Qmult_lt_r _ _ p Hp). setoid_replace (-1 * p)%Q with (- p)%Q by ring.
    exact Hlo. }
  rewrite <- Zlt_Qlt in H1, H2. lia.
Qed.

(** If a tenth of a binary64 number rounds to an integer, it is that
    integer: the number and ten times the integer are both multiples of
    eight units in the last place of the tenth, and less than that apart. *)
Lemma tenth_integer_pos (m : Q) (j : Z) :
  (B64.rnd m == m)%Q ->
  (B64.pow2 (-1000) <= m)%Q -> (m <= B64.pow2 52)%Q ->
  (B64.rnd (m / 10) == inject_Z j)%Q ->
  (m == inject_Z (10 * j))%Q.
Proof.
  intros Hm Hlo Hhi Hj.
  pose proof (pow2_pos (-1000)) as Hp.
  assert (Hmpos : (0 < m)%Q) by lra.
  set (x := (m / 10)%Q) in *.
  assert (Hx : (x * 10 == m)%Q) by (unfold x; field).
  assert (Hxpos : (0 < x)%Q) by lra.
  destruct (ilog2_spec x Hxpos) as [Lx1 Lx2].
  destruct (ilog2_spec m Hmpos) as [Lm1 Lm2].
  set (Lx := B64.ilog2 x) in *. set (Lm := B64.ilog2 m) in *.
  (* the exponent of the tenth *)
  assert (HLx_lo : -1004 <= Lx).
  { assert (H : (B64.pow2 (-1004) < B64.pow2 (Lx + 1))%Q).
    { eapply Qle_lt_trans; [|exact Lx2].
      assert (H16 : (B64.pow2 (-1000) == 16 * B64.pow2 (-1004))%Q).
      { replace (-1000) with (4 + -1004) by lia. rewrite pow2_add.
        change (B64.pow2 4) with 16%Q. ring. }
      pose proof (pow2_pos (-1004)). lra. }
    apply pow2_lt_inv in H. lia. }
  assert (HLx_hi : Lx <= 49).
  { assert (H : (B64.pow2 Lx < B64.pow2 50)%Q).
    { eapply Qle_lt_trans; [exact Lx1|].
      assert (H4 : (B64.pow2 52 == 4 * B64.pow2 50)%Q).
      { replace 52 with (2 + 50) by lia. rewrite pow2_add.
        change (B64.pow2 2) with 4%Q. ring. }
      pose proof (pow2_pos 50). lra. }
    apply pow2_lt_inv in H. lia. }
  assert (Hex : B64.ulp_exp x = Lx - 52).
  { unfold B64.ulp_exp. fold Lx. lia. }
  assert (HLm : Lx + 3 <= Lm).
  { assert (H : (B64.pow2 (Lx + 3) < B64.pow2 (Lm + 1))%Q).
    { eapply Qle_lt_trans; [|exact Lm2].
      rewrite pow2_add. change (B64.pow2 3) with 8%Q. lra. }
    apply pow2_lt_inv in H. lia. }
  set (g := Lx - 49).
  assert (Hg : g <= 0) by (unfold g; lia).
  assert (Hem : g <= B64.ulp_exp m).
  { unfold B64.ulp_exp. fold Lm. unfold g. lia. }
  (* both numbers on the grid of 2^g *)
  rewrite (rnd_pos_spec m Hmpos) in Hm. unfold B64.rnd_pos in Hm.
  set (Zm := B64.rne (m / B64.pow2 (B64.ulp_exp m))) in *.
  rewrite (grid_refine Zm g (B64.ulp_exp m) Hem) in Hm.
  assert (H10 : (inject_Z (10 * j) == inject_Z (10 * j * 2 ^ (0 - g)) * B64.pow2 g)%Q).
  { rewrite <- (grid_refine (10 * j) g 0 Hg). change (B64.pow2 0) with 1%Q. ring. }
  set (A := Zm * 2 ^ (B64.ulp_exp m - g)) in *.
  set (B := 10 * j * 2 ^ (0 - g)) in *.
  assert (Hdiff : (m - inject_Z (10 * j) == inject_Z (A - B) * B64.pow2 g)%Q).
  { rewrite <- Hm at 1. rewrite H10. unfold Z.sub. rewrite inject_Z_plus, inject_Z_opp. ring. }
  (* and close to each other *)
  rewrite (rnd_pos_spec x Hxpos) in Hj.
  destruct (rnd_pos_err x) as [E1 E2]. rewrite Hex in E1, E2. rewrite Hj in E1, E2.
  assert (Hg8 : (B64.pow2 g == 8 * B64.pow2 (Lx - 52))%Q).
  { unfold g. replace (Lx - 49) with (3 + (Lx - 52)) by lia. rewrite pow2_add.
    change (B64.pow2 3) with 8%Q. ring. }
  pose proof (pow2_pos (Lx - 52)) as Hu. pose proof (pow2_pos g) as Hgp.
  assert (Hj10 : (inject_Z (10 * j) == 10 * inject_Z j)%Q).
  { rewrite inject_Z_mult. reflexivity. }
  assert (HD : A - B = 0).
  { apply (Z_small (A - B) (B64.pow2 g) Hgp); rewrite <- Hdiff, Hj10; qdiv; lra. }
  rewrite HD in Hdiff. change (inject_Z 0) with 0%Q in Hdiff. lra.
Qed.

Lemma tenth_integer (m : Q) (j : Z) :
  (B64.rnd m == m)%Q ->
  (B64.pow2 (-1000) <= Qabs m)%Q -> (Qabs m <= B64.pow2 52)%Q ->
  (B64.rnd (m / 10) == inject_Z j)%Q ->
  (m == inject_Z (10 * j))%Q.
Proof.
  intros Hm Hlo Hhi Hj. pose proof (pow2_pos (-1000)) as Hp.
  destruct (Qlt_le_dec m 0) as [Hneg|Hpos].
  - rewrite (Qabs_neg m) in Hlo, Hhi by lra.
    assert (H : (- m == inject_Z (10 * - j))%Q).
    { apply tenth_integer_pos; [|exact Hlo|exact Hhi|].
      - rewrite rnd_opp. now rewrite Hm.
      - rewrite (rnd_comp (- m / 10) (- (m / 10))) by (field).
        rewrite rnd_opp, Hj, inject_Z_opp. reflexivity. }
    replace (10 * - j) with (- (10 * j)) in H by lia.
    rewrite inject_Z_opp in H. lra.
  - rewrite (Qabs_pos m Hpos) in Hlo, Hhi.
    now apply tenth_integer_pos.
Qed.

(** Rounding the tenth does not change its ceiling. *)
Lemma ceiling_of_tenth (m : Q) :
  (B64.rnd m == m)%Q ->
  (Qabs m <= B64.pow2 52)%Q ->
  (m <= 0 \/ B64.pow2 (-1000) <= m)%Q ->
  Qceiling (B64.rnd (m / 10)) = Qceiling (m / 10).
Proof.
  intros Hm Hhi Hdom.
  pose proof (pow2_pos (-1000)) as Hp.
  set (x := (m / 10)%Q). set (k := Qceiling x).
  destruct (ceiling_bounds x) as [Hle Hlt]. fold k in Hle, Hlt.
  assert (H52 : (B64.pow2 52 == inject_Z (2 ^ 52))%Q) by (apply pow2_Z; lia).
  apply Qabs_Qle_condition in Hhi as [Hhi1 Hhi2].
  assert (Hk : - 2 ^ 53 < k - 1 /\ k < 2 ^ 53).
  { assert (H1 : (inject_Z k < inject_Z (2 ^ 52) + 1)%Q) by (unfold x in *; qdiv; lra).
    assert (H2 : (- inject_Z (2 ^ 52) <= inject_Z k)%Q) by (unfold x in *; qdiv; lra).
    rewrite <- inject_Z_succ in H1. rewrite <- inject_Z_opp in H2.
    rewrite <- Zlt_Qlt in H1. rewrite <- Zle_Qle in H2.
    change (2 ^ 52) with 4503599627370496 in *.
    change (2 ^ 53) with 9007199254740992. lia. }
  assert (Hup : (B64.rnd x <= inject_Z k)%Q).
  { rewrite <- (rnd_Z (inject_Z k) k) by (reflexivity || lia). now apply rnd_mono. }
  assert (Hdown : (inject_Z (k - 1) <= B64.rnd x)%Q).
  { rewrite <- (rnd_Z (inject_Z (k - 1)) (k - 1)) by (reflexivity || lia).
    apply rnd_mono. rewrite inject_Z_pred. lra. }
  apply Qceiling_unique; [|exact Hup].
  rewrite <- inject_Z_pred.
  apply Qle_lteq in Hdown as [Hdown|Hdown]; [exact Hdown|exfalso].
  symmetry in Hdown.
  destruct (Qlt_le_dec (Qabs m) (B64.pow2 (-1000))) as [Hsmall|Hbig].
  - (* a small number that is not positive: its tenth rounds above -1/2 *)
    assert (Hm0 : (m <= 0)%Q).
    { destruct Hdom as [H|H]; [exact H|]. rewrite Qabs_pos in Hsmall; lra. }
    rewrite (Qabs_neg m Hm0) in Hsmall.
    assert (Hp1 : (B64.pow2 (-1000) < 1)%Q).
    { change 1%Q with (B64.pow2 0). apply pow2_lt. lia. }
    assert (Hk0 : k = 0).
    { apply Qceiling_unique; unfold x; change (inject_Z 0) with 0%Q; qdiv; lra. }
    assert (Hhalf : (- (1 # 2) <= B64.rnd x)%Q).
    { rewrite <- (rnd_fix (- (1 # 2)) (-1) (-1)); [| |lia|lia].
      - apply rnd_mono. unfold x. qdiv. lra.
      - change (B64.pow2 (-1)) with (1 # 2)%Q. reflexivity. }
    rewrite Hdown, Hk0 in Hhalf. change (inject_Z (0 - 1)) with (-1)%Q in Hhalf. lra.
  - assert (H : (m == inject_Z (10 * (k - 1)))%Q).
    { apply tenth_integer; [exact Hm|exact Hbig| |exact Hdown].
      apply Qabs_Qle_condition. split; assumption. }
    rewrite inject_Z_mult, inject_Z_pred in H. change (inject_Z 10) with 10%Q in H.
    unfold x in Hlt. qdiv. lra.
Qed.

(** Rounding the tenth does not change its floor. *)
Lemma floor_of_tenth (m : Q) :
  (B64.rnd m == m)%Q ->
  (Qabs m <= B64.pow2 52)%Q ->
  (0 <= m \/ m <= - B64.pow2 (-1000))%Q ->
  Qfloor (B64.rnd (m / 10)) = Qfloor (m / 10).
Proof.
  intros Hm Hhi Hdom.
  assert (H : Qceiling (B64.rnd (- m / 10)) = Qceiling (- m / 10)).
  { apply ceiling_of_tenth.
    - rewrite rnd_opp. now rewrite Hm.
    - now rewrite Qabs_opp.
    - destruct Hdom; [left|right]; lra. }
  unfold Qceiling in H.
  assert (E1 : Qfloor (- B64.rnd (- m / 10)) = Qfloor (B64.rnd (m / 10))).
  { apply Qfloor_comp.
    rewrite (rnd_comp (- m / 10) (- (m / 10))) by field.
    rewrite rnd_opp. ring. }
  assert (E2 : Qfloor (- (- m / 10)) = Qfloor (m / 10)).
  { apply Qfloor_comp. field. }
  rewrite E1, E2 in H. lia.
Qed.

(** ** binary64: results that stay finite *)

Lemma rnd_pow2 (e : Z) : -1074 <= e -> (B64.rnd (B64.pow2 e) == B64.pow2 e)%Q.
Proof.
  intros He. apply (rnd_fix _ 1 e); [|lia|exact He].
  change (inject_Z 1) with 1%Q. ring.
Qed.

Lemma round_small (x : Q) :
  (Qabs x <= B64.pow2 1000)%Q -> B64.round x = B64.Fin (B64.rnd x).
Proof.
  intros Hx. apply Qabs_Qle_condition in Hx as [H1 H2].
  assert (Hlt : (B64.pow2 1000 < B64.pow2 1024)%Q) by (apply pow2_lt; lia).
  assert (Hup : (B64.rnd x <= B64.pow2 1000)%Q).
  { rewrite <- (rnd_pow2 1000) by lia. now apply rnd_mono. }
  assert (Hdn : (- B64.pow2 1000 <= B64.rnd x)%Q).
  { rewrite <- (rnd_pow2 1000) by lia. rewrite <- rnd_opp. now apply rnd_mono. }
  unfold B64.round.
  destruct (Qle_bool (B64.pow2 1024) (B64.rnd x)) eqn:E1.
  { apply Qle_bool_iff in E1. exfalso. lra. }
  destruct (Qle_bool (B64.rnd x) (- B64.pow2 1024)) eqn:E2.
  { apply Qle_bool_iff in E2. exfalso. lra. }
  reflexivity.
Qed.

(** ** The axis bounds in binary64 *)

Lemma binary64_rnd (m : Q) : B64.binary64 m = true -> (B64.rnd m == m)%Q.
Proof.
  unfold B64.binary64. intros H. apply andb_prop in H as [H _].
  now apply Qeq_bool_iff in H.
Qed.

Lemma pow2_52_1000 : (B64.pow2 52 <= B64.pow2 1000)%Q.
Proof. apply pow2_le. lia. Qed.

Lemma Qabs_tenth (m b : Q) : (Qabs m <= b)%Q -> (Qabs (m / 10) <= b)%Q.
Proof.
  intros H. apply Qabs_Qle_condition in H as [H1 H2].
  apply Qabs_Qle_condition. split; qdiv; lra.
Qed.

(** The tenth of a number of moderate size, rounded up or down to an
    integer and taken times ten, in binary64 and exactly. *)
Lemma round_exact (x : Q) (n : Z) :
  (x == inject_Z n)%Q -> - 2 ^ 53 < n < 2 ^ 53 ->
  exists r : Q, B64.round x = B64.Fin r /\ (r == inject_Z n)%Q.
Proof.
  intros Hx Hn. exists (B64.rnd x). split.
  - apply round_small. rewrite Hx. apply Qabs_Qle_condition.
    assert (H : (B64.pow2 1000 == inject_Z (2 ^ 1000))%Q) by (apply pow2_Z; lia).
    rewrite H, <- inject_Z_opp, <- !Zle_Qle.
    assert (2 ^ 53 < 2 ^ 1000) by (apply Z.pow_lt_mono_r; lia). lia.
  - rewrite (rnd_Z x n Hx Hn). exact Hx.
Qed.

Lemma tenth_size (m : Q) (k : Z) :
  (Qabs m <= B64.pow2 52)%Q ->
  (inject_Z k - 1 < m / 10)%Q -> (m / 10 < inject_Z k + 1)%Q ->
  - 2 ^ 53 < 10 * k < 2 ^ 53.
Proof.
  intros Hm Hlo Hhi.
  assert (H52 : (B64.pow2 52 == inject_Z (2 ^ 52))%Q) by (apply pow2_Z; lia).
  apply Qabs_Qle_condition in Hm as [H1 H2]. rewrite H52 in H1, H2.
  assert (A : (inject_Z (10 * k) < inject_Z (2 ^ 52 + 10))%Q).
  { rewrite inject_Z_mult, inject_Z_plus. change (inject_Z 10) with 10%Q. qdiv. lra. }
  assert (B : (inject_Z (- 2 ^ 52 - 10) < inject_Z (10 * k))%Q).
  { rewrite inject_Z_mult. unfold Z.sub. rewrite inject_Z_plus, !inject_Z_opp.
    change (inject_Z 10) with 10%Q. qdiv. lra. }
  rewrite <- Zlt_Qlt in A, B.
  change (2 ^ 52) with 4503599627370496 in *.
  change (2 ^ 53) with 9007199254740992. lia.
Qed.

Lemma rounded_max_value_binary64 (m : Q) :
  (B64.rnd m == m)%Q ->
  (Qabs m <= B64.pow2 52)%Q ->
  (m <= 0 \/ B64.pow2 (-1000) <= m)%Q ->
  exists r : Q,
    CancerDriversB64.rounded_max_value (fin m) = B64.Fin r /\
    (r == inject_Z (Qceiling (m / 10)) * 10)%Q.
Proof.
  intros Hm Hsize Hdom.
  unfold CancerDriversB64.rounded_max_value, B64.of_number.
  rewrite (round_small m) by (eapply Qle_trans; [exact Hsize|apply pow2_52_1000]).
  unfold B64.div. change (Qeq_bool 10 0) with false. cbv iota.
  assert (Htenth : (B64.rnd m / 10 == m / 10)%Q) by now rewrite Hm.
  rewrite (round_small (B64.rnd m / 10)).
  2:{ rewrite Htenth. apply Qabs_tenth.
      eapply Qle_trans; [exact Hsize|apply pow2_52_1000]. }
  unfold B64.ceil.
  assert (Hk : Qceiling (B64.rnd (B64.rnd m / 10)) = Qceiling (m / 10)).
  { rewrite (Qceiling_comp _ _ (rnd_comp _ _ Htenth)).
    now apply ceiling_of_tenth. }
  rewrite Hk. set (k := Qceiling (m / 10)).
  destruct (ceiling_bounds (m / 10)) as [Hle Hlt]. fold k in Hle, Hlt.
  unfold B64.mul.
  destruct (round_exact (inject_Z k * 10) (10 * k)) as (r & Hr & Hrk).
  - rewrite inject_Z_mult. change (inject_Z 10) with 10%Q. ring.
  - apply (tenth_size m k Hsize); lra.
  - exists r. split; [exact Hr|]. rewrite Hrk, inject_Z_mult.
    change (inject_Z 10) with 10%Q. ring.
Qed.

Lemma rounded_min_value_binary64 (m : Q) :
  (B64.rnd m == m)%Q ->
  (Qabs m <= B64.pow2 52)%Q ->
  (0 <= m \/ m <= - B64.pow2 (-1000))%Q ->
  exists r : Q,
    HlaB64.rounded_min_value (fin m) = B64.Fin r /\
    (r == inject_Z (Qfloor (m / 10)) * 10)%Q.
Proof.
  intros Hm Hsize Hdom.
  unfold HlaB64.rounded_min_value, B64.of_number.
  rewrite (round_small m) by (eapply Qle_trans; [exact Hsize|apply pow2_52_1000]).
  unfold B64.div. change (Qeq_bool 10 0) with false. cbv iota.
  assert (Htenth : (B64.rnd m / 10 == m / 10)%Q) by now rewrite Hm.
  rewrite (round_small (B64.rnd m / 10)).
  2:{ rewrite Htenth. apply Qabs_tenth.
      eapply Qle_trans; [exact Hsize|apply pow2_52_1000]. }
  unfold B64.floor.
  assert (Hk : Qfloor (B64.rnd (B64.rnd m / 10)) = Qfloor (m / 10)).
  { rewrite (Qfloor_comp _ _ (rnd_comp _ _ Htenth)).
    now apply floor_of_tenth. }
  rewrite Hk. set (k := Qfloor (m / 10)).
  destruct (floor_bounds (m / 10)) as [Hle Hlt]. fold k in Hle, Hlt.
  unfold B64.mul.
  destruct (round_exact (inject_Z k * 10) (10 * k)) as (r & Hr & Hrk).
  - rewrite inject_Z_mult. change (inject_Z 10) with 10%Q. ring.
  - apply (tenth_size m k Hsize); lra.
  - exists r. split; [exact Hr|]. rewrite Hrk, inject_Z_mult.
    change (inject_Z 10) with 10%Q. ring.
Qed.

(** Where binary64 parts from the exact bound: above [2^53], and for the
    smallest positive numbers. *)
Lemma rounded_max_value_large :
  B64.binary64 90071992547409968 = true /\
  CancerDriversB64.rounded_max_value (fin 90071992547409968) =
    B64.Fin 90071992547409952.
Proof. split; vm_compute; reflexivity. Qed.

Lemma rounded_max_value_tiny :
  B64.binary64 (B64.pow2 (-1074)) = true /\
  exists r : Q,
    CancerDriversB64.rounded_max_value (fin (B64.pow2 (-1074))) = B64.Fin r /\
    (r == 0)%Q.
Proof.
  split; [vm_compute; reflexivity|].
  eexists. split; [vm_compute; reflexivity|reflexivity].
Qed.

Lemma rounded_min_value_large :
  B64.binary64 (-90071992547409968) = true /\
  HlaB64.rounded_min_value (fin (-90071992547409968)) =
    B64.Fin (-90071992547409952).
Proof. split; vm_compute; reflexivity. Qed.

(** ** The labels of the y ticks in binary64 *)

Lemma strings_three (a b c : Q) (x y z : Z) :
  (a == inject_Z x)%Q -> (b == inject_Z y)%Q -> (c == inject_Z z)%Q ->
  B64.strings [B64.Fin a; B64.Fin b; B64.Fin c] = Ok [py_str x; py_str y; py_str z].
Proof.
  intros Ha Hb Hc. simpl.
  now rewrite (py_int_inject a x Ha), (py_int_inject b y Hb), (py_int_inject c z Hc).
Qed.

(** Three steps of an integer [a]: when the stop lies a little more than
    two and at most three steps from 0, [np.arange] has the entries 0, [a]
    and [2 a]. *)
Lemma arange_three (stop h : Q) (s a : Z) :
  (stop == inject_Z s)%Q -> - 2 ^ 53 < s < 2 ^ 53 ->
  (h == inject_Z a)%Q -> a <> 0 -> - 2 ^ 53 < 2 * a < 2 ^ 53 ->
  (2 + B64.pow2 (-51) <= stop / h)%Q -> (stop / h <= 3)%Q ->
  exists e1 e2 : Q,
    B64.np_arange (B64.Fin 0) (B64.Fin stop) (B64.Fin h) =
      Ok [B64.Fin 0; B64.Fin e1; B64.Fin e2] /\
    (e1 == inject_Z a)%Q /\ (e2 == inject_Z (2 * a))%Q.
Proof.
  intros Hstop Hs Hh Ha Ha2 Hlo Hhi.
  unfold B64.np_arange, B64.sub, B64.opp, B64.add.
  destruct (round_exact (stop + - 0) s) as (s' & -> & Hs'); [rewrite Hstop; ring|exact Hs|].
  assert (Hh0 : ~ (h == 0)%Q).
  { rewrite Hh. change 0%Q with (inject_Z 0). rewrite inject_Z_injective. exact Ha. }
  unfold B64.div. rewrite (Qeq_bool_false h 0 Hh0).
  assert (Hratio : (s' / h == stop / h)%Q) by (rewrite Hs', Hstop; reflexivity).
  assert (H51 : (0 < B64.pow2 (-51))%Q) by apply pow2_pos.
  rewrite (round_small (s' / h)).
  2:{ rewrite Hratio. apply Qabs_Qle_condition.
      assert (H3 : (3 <= B64.pow2 1000)%Q).
      { apply Qle_trans with (B64.pow2 2); [vm_compute; discriminate|apply pow2_le; lia]. }
      split; lra. }
  unfold B64.ceil.
  assert (Hlen : Qceiling (B64.rnd (s' / h)) = 3).
  { apply Qceiling_unique.
    - apply Qlt_le_trans with (2 + B64.pow2 (-51))%Q;
        [change (inject_Z 3) with 3%Q; lra|].
      rewrite <- (rnd_fix (2 + B64.pow2 (-51)) (2 ^ 52 + 1) (-51)); [| |lia|lia].
      + apply rnd_mono. now rewrite Hratio.
      + vm_compute. reflexivity.
    - rewrite <- (rnd_Z (inject_Z 3) 3) by (reflexivity || lia).
      apply rnd_mono. now rewrite Hratio. }
  rewrite Hlen.
  change (Qle_bool (B64.pow2 63) (inject_Z 3)) with false. cbv iota.
  rewrite Qceiling_Z. change (Z.to_nat 3) with 3%nat. cbn [seq map B64.arange_entry].
  unfold B64.sub, B64.opp, B64.add, B64.mul.
  destruct (round_exact (0 + h) a) as (e1 & -> & He1); [rewrite Hh; ring|lia|].
  destruct (round_exact (e1 + - 0) a) as (d & -> & Hd); [rewrite He1; ring|lia|].
  change (inject_Z (Z.of_nat 2)) with 2%Q.
  destruct (round_exact (2 * d) (2 * a)) as (p & -> & Hp).
  { rewrite Hd, inject_Z_mult. reflexivity. }
  { exact Ha2. }
  destruct (round_exact (0 + p) (2 * a)) as (e2 & -> & He2); [rewrite Hp; ring|exact Ha2|].
  exists e1, e2. auto.
Qed.

(** ** binary64 against the floats of the machine *)

(** On the samples, sums, differences, products and quotients of [B64] are
    the ones the processor computes. *)
Lemma samples_agree :
  forallb (fun p => B64Samples.agree (fst p) (snd p)) B64Samples.samples = true.
Proof. vm_compute. reflexivity. Qed.

Lemma generated_samples_agree :
  forallb (fun p => B64Samples.agree (fst p) (snd p)) (B64Samples.generated 150 2024) = true.
Proof. vm_compute. reflexivity. Qed.

(** ** The axis bounds, as numpy computes them *)

(** C3, as amended.  For a frequency column that holds at least one number
    and whose maximum [m] is a binary64 number of magnitude at most [2^52]
    that is not a positive number below [2^-1000], the rounded maximum that
    line 85 computes in binary64 is a multiple of 10, at least the true
    maximum of the column and less than 10 above it; it is non-negative
    exactly when the maximum is above -10, and it is 0 only when every value
    is at most 0.  On this range it is the number the exact reading of
    line 85 gives. *)
Theorem C3_rounded_max_value :
  forall (col : Series) (l : list Q) (m : Q),
    to_numeric col = Ok l ->
    maximum l = fin m ->
    B64.binary64 m = true ->
    (Qabs m <= B64.pow2 52)%Q ->
    (m <= 0 \/ B64.pow2 (-1000) <= m)%Q ->
    exists (r : Q) (k : Z),
      np_max col = Ok (fin m) /\
      In m l /\ (forall y, In y l -> y <= m)%Q /\
      CancerDriversB64.rounded_max_value (fin m) = B64.Fin r /\
      (r == inject_Z (10 * k))%Q /\
      (m <= r)%Q /\ (r < m + 10)%Q /\
      ((0 <= r)%Q <-> (-10 < m)%Q) /\
      ((r == 0)%Q -> forall y, In y l -> (y <= 0)%Q) /\
      exists r' : Q,
        CancerDrivers.rounded_max_value (fin m) = fin r' /\ (r' == r)%Q.
Proof.
  intros col l m Hnum Hmax Hb64 Hsize Hdom.
  assert (Hne : l <> []) by (intros ->; discriminate).
  destruct (maximum_spec l Hne) as [m' [Hmax' [Hin Hub]]].
  rewrite Hmax in Hmax'. injection Hmax' as <-.
  destruct (rounded_max_value_binary64 m (binary64_rnd m Hb64) Hsize Hdom)
    as (r & Hr & Hrk).
  set (k := Qceiling (m / 10)) in *.
  destruct (ceiling_bounds (m / 10)) as [Hle Hlt]. fold k in Hle, Hlt.
  exists r, k.
  split; [unfold np_max; rewrite Hnum; simpl; now rewrite Hmax|].
  split; [exact Hin|]. split; [exact Hub|]. split; [exact Hr|].
  split; [rewrite Hrk; apply inject_Z_tens|].
  split; [rewrite Hrk; qdiv; lra|].
  split; [rewrite Hrk; qdiv; lra|].
  split; [|split].
  - rewrite Hrk. split.
    + intros Hnn. qdiv. lra.
    + intros Hgt. apply tens_nonneg. apply tens_gap with (m := m); [qdiv; lra|exact Hgt].
  - intros Hz y Hy. specialize (Hub y Hy). rewrite Hrk in Hz. qdiv. lra.
  - exists (inject_Z k * 10)%Q. split; [reflexivity|]. now rewrite Hrk.
Qed.

Lemma C3_rounded_max_value_witness :
  to_numeric [num 5; num 12; num 30; num 1; num 9; num 4] =
    Ok [5; 12; 30; 1; 9; 4]%Q /\
  maximum [5; 12; 30; 1; 9; 4]%Q = fin 30 /\
  B64.binary64 30 = true /\
  (Qabs 30 <= B64.pow2 52)%Q /\
  (30 <= 0 \/ B64.pow2 (-1000) <= 30)%Q /\
  exists (r : Q) (k : Z),
    np_max [num 5; num 12; num 30; num 1; num 9; num 4] = Ok (fin 30) /\
    In 30%Q [5; 12; 30; 1; 9; 4]%Q /\
    (forall y, In y [5; 12; 30; 1; 9; 4]%Q -> y <= 30)%Q /\
    CancerDriversB64.rounded_max_value (fin 30) = B64.Fin r /\
    (r == inject_Z (10 * k))%Q /\
    (30 <= r)%Q /\ (r < 30 + 10)%Q /\
    ((0 <= r)%Q <-> (-10 < 30)%Q) /\
    ((r == 0)%Q -> forall y, In y [5; 12; 30; 1; 9; 4]%Q -> (y <= 0)%Q) /\
    exists r' : Q,
      CancerDrivers.rounded_max_value (fin 30) = fin r' /\ (r' == r)%Q.
Proof.
  split; [reflexivity|]. split; [reflexivity|]. split; [vm_compute; reflexivity|].
  split; [vm_compute; discriminate|]. split; [right; vm_compute; discriminate|].
  apply (C3_rounded_max_value [num 5; num 12; num 30; num 1; num 9; num 4]
           [5; 12; 30; 1; 9; 4]%Q 30);
    [reflexivity|reflexivity|vm_compute; reflexivity|vm_compute; discriminate|
     right; vm_compute; discriminate].
Defined.

(** C3 as stated fails: a column whose only value is -25 rounds to -20. *)
Lemma C3_counterexample :
  ~ (forall (col : Series) (l : list Q) (m : Q),
       to_numeric col = Ok l ->
       maximum l = fin m ->
       B64.binary64 m = true ->
       exists r : Q,
         CancerDriversB64.rounded_max_value (fin m) = B64.Fin r /\
         (0 <= r)%Q).
Proof.
  intros H.
  destruct (H [num (-25)] [(-25)%Q] (-25)%Q eq_refl eq_refl) as [r [Hr Hnn]];
    [vm_compute; reflexivity|].
  vm_compute in Hr. injection Hr as <-.
  vm_compute in Hnn. apply Hnn. reflexivity.
Qed.

(** C4, as amended.  For a binding column that holds at least one number
    and whose minimum [m] is a binary64 number of magnitude at most [2^52]
    that is not a negative number above [-2^-1000], the axis floor that line
    115 computes in binary64 is a multiple of 10, at most the true minimum of
    the column and less than 10 below it; it is non-positive exactly when the
    minimum is below 10.  On this range it is the number the exact reading
    of line 115 gives. *)
Theorem C4_rounded_min_value :
  forall (col : Series) (l : list Q) (m : Q),
    to_numeric col = Ok l ->
    minimum l = fin m ->
    B64.binary64 m = true ->
    (Qabs m <= B64.pow2 52)%Q ->
    (0 <= m \/ m <= - B64.pow2 (-1000))%Q ->
    exists (r : Q) (k : Z),
      np_min col = Ok (fin m) /\
      In m l /\ (forall y, In y l -> m <= y)%Q /\
      HlaB64.rounded_min_value (fin m) = B64.Fin r /\
      (r == inject_Z (10 * k))%Q /\
      (r <= m)%Q /\ (m - 10 < r)%Q /\
      ((r <= 0)%Q <-> (m < 10)%Q) /\
      exists r' : Q,
        Hla.rounded_min_value (fin m) = fin r' /\ (r' == r)%Q.
Proof.
  intros col l m Hnum Hmin Hb64 Hsize Hdom.
  assert (Hne : l <> []) by (intros ->; discriminate).
  destruct (minimum_spec l Hne) as [m' [Hmin' [Hin Hlb]]].
  rewrite Hmin in Hmin'. injection Hmin' as <-.
  destruct (rounded_min_value_binary64 m (binary64_rnd m Hb64) Hsize Hdom)
    as (r & Hr & Hrk).
  set (k := Qfloor (m / 10)) in *.
  destruct (floor_bounds (m / 10)) as [Hle Hlt]. fold k in Hle, Hlt.
  exists r, k.
  split; [unfold np_min; rewrite Hnum; simpl; now rewrite Hmin|].
  split; [exact Hin|]. split; [exact Hlb|]. split; [exact Hr|].
  split; [rewrite Hrk; apply inject_Z_tens|].
  split; [rewrite Hrk; qdiv; lra|].
  split; [rewrite Hrk; qdiv; lra|].
  split.
  - rewrite Hrk. split.
    + intros Hnp. qdiv. lra.
    + intros Hlt10. apply tens_nonpos.
      apply tens_gap_below with (m := m); [qdiv; lra|exact Hlt10].
  - exists (inject_Z k * 10)%Q. split; [reflexivity|]. now rewrite Hrk.
Qed.

Lemma C4_rounded_min_value_witness :
  to_numeric [num (-25); num (-12); num (-3)] = Ok [-25; -12; -3]%Q /\
  minimum [-25; -12; -3]%Q = fin (-25) /\
  B64.binary64 (-25) = true /\
  (Qabs (-25) <= B64.pow2 52)%Q /\
  (0 <= -25 \/ -25 <= - B64.pow2 (-1000))%Q /\
  exists (r : Q) (k : Z),
    np_min [num (-25); num (-12); num (-3)] = Ok (fin (-25)) /\
    In (-25)%Q [-25; -12; -3]%Q /\
    (forall y, In y [-25; -12; -3]%Q -> -25 <= y)%Q /\
    HlaB64.rounded_min_value (fin (-25)) = B64.Fin r /\
    (r == inject_Z (10 * k))%Q /\
    (r <= -25)%Q /\ (-25 - 10 < r)%Q /\
    ((r <= 0)%Q <-> (-25 < 10)%Q) /\
    exists r' : Q,
      Hla.rounded_min_value (fin (-25)) = fin r' /\ (r' == r)%Q.
Proof.
  split; [reflexivity|]. split; [reflexivity|]. split; [vm_compute; reflexivity|].
  split; [vm_compute; discriminate|]. split; [right; vm_compute; discriminate|].
  apply (C4_rounded_min_value [num (-25); num (-12); num (-3)]
           [-25; -12; -3]%Q (-25));
    [reflexivity|reflexivity|vm_compute; reflexivity|vm_compute; discriminate|
     right; vm_compute; discriminate].
Defined.

(** C4 as stated fails: a column whose only value is 25 has floor 20. *)
Lemma C4_counterexample :
  ~ (forall (col : Series) (l : list Q) (m : Q),
       to_numeric col = Ok l ->
       minimum l = fin m ->
       B64.binary64 m = true ->
       exists r : Q,
         HlaB64.rounded_min_value (fin m) = B64.Fin r /\
         (r <= 0)%Q).
Proof.
  intros H.
  destruct (H [num 25] [25%Q] 25%Q eq_refl eq_refl) as [r [Hr Hnp]];
    [vm_compute; reflexivity|].
  vm_compute in Hr. injection Hr as <-.
  vm_compute in Hnp. apply Hnp. reflexivity.
Qed.

(** ** The labels of the y ticks, as numpy computes them *)

Lemma half_exact (v : Q) (k : Z) :
  (v == inject_Z (10 * k))%Q -> - 2 ^ 53 < 10 * k < 2 ^ 53 ->
  exists h : Q,
    B64.div (B64.Fin v) (B64.Fin 2) = B64.Fin h /\ (h == inject_Z (5 * k))%Q.
Proof.
  intros Hv Hk. unfold B64.div. change (Qeq_bool 2 0) with false. cbv iota.
  apply round_exact; [|lia].
  rewrite Hv, !inject_Z_mult. change (inject_Z 10) with 10%Q.
  change (inject_Z 5) with 5%Q. field.
Qed.

Lemma hla_labels_binary64 (v : Q) (k : Z) :
  k < 0 -> - 4503599627370496 <= 10 * k ->
  (v == inject_Z (10 * k))%Q ->
  HlaB64.yticks_labels (B64.Fin v) = Ok [py_str 0; py_str (5 * k); py_str (10 * k)].
Proof.
  intros Hk Hsize Hv.
  unfold HlaB64.yticks_labels.
  destruct (half_exact v k Hv) as (h & -> & Hh);
    [change (2 ^ 53) with 9007199254740992; lia|].
  unfold B64.sub, B64.opp, B64.add.
  match goal with
  | |- context [B64.round ?x] =>
      destruct (round_exact x (10 * k - 1)) as (s & -> & Hs)
  end.
  { rewrite Hv, inject_Z_pred. ring. }
  { change (2 ^ 53) with 9007199254740992. lia. }
  assert (HK : (inject_Z k <= -1)%Q).
  { change (-1)%Q with (inject_Z (-1)). rewrite <- Zle_Qle. lia. }
  assert (HK2 : (- 4503599627370496 <= 10 * inject_Z k)%Q).
  { change 10%Q with (inject_Z 10). rewrite <- inject_Z_mult.
    change (- 4503599627370496)%Q with (inject_Z (- 4503599627370496)).
    rewrite <- Zle_Qle. exact Hsize. }
  assert (Hratio : (s / h == (1 - 10 * inject_Z k) / (- (5 * inject_Z k)))%Q).
  { rewrite Hs, Hh, inject_Z_pred, !inject_Z_mult.
    change (inject_Z 10) with 10%Q. change (inject_Z 5) with 5%Q.
    field. lra. }
  destruct (arange_three s h (10 * k - 1) (5 * k)) as (e1 & e2 & -> & He1 & He2).
  - exact Hs.
  - change (2 ^ 53) with 9007199254740992. lia.
  - exact Hh.
  - lia.
  - change (2 ^ 53) with 9007199254740992. lia.
  - rewrite Hratio. apply Qle_shift_div_l; [lra|].
    change (B64.pow2 (-51)) with (1 # 2251799813685248)%Q. lra.
  - rewrite Hratio. apply Qle_shift_div_r; lra.
  - simpl rbind. apply strings_three; [reflexivity|exact He1|].
    rewrite He2. replace (2 * (5 * k)) with (10 * k) by lia. reflexivity.
Qed.

Lemma drivers_labels_binary64 (v : Q) (k : Z) :
  0 < k -> 10 * k <= 4503599627370496 ->
  (v == inject_Z (10 * k))%Q ->
  CancerDriversB64.yticks_labels (B64.Fin v) =
    Ok [py_str 0; py_str (5 * k); py_str (10 * k)].
Proof.
  intros Hk Hsize Hv.
  unfold CancerDriversB64.yticks_labels.
  destruct (half_exact v k Hv) as (h & -> & Hh);
    [change (2 ^ 53) with 9007199254740992; lia|].
  unfold B64.add.
  destruct (round_exact (v + 1) (10 * k + 1)) as (s & -> & Hs).
  { rewrite Hv, inject_Z_succ. ring. }
  { change (2 ^ 53) with 9007199254740992. lia. }
  assert (HK : (1 <= inject_Z k)%Q).
  { change 1%Q with (inject_Z 1). rewrite <- Zle_Qle. lia. }
  assert (HK2 : (10 * inject_Z k <= 4503599627370496)%Q).
  { change 10%Q with (inject_Z 10). rewrite <- inject_Z_mult.
    change (4503599627370496)%Q with (inject_Z (4503599627370496)).
    rewrite <- Zle_Qle. exact Hsize. }
  assert (Hratio : (s / h == (10 * inject_Z k + 1) / (5 * inject_Z k))%Q).
  { rewrite Hs, Hh, inject_Z_succ, !inject_Z_mult.
    change (inject_Z 10) with 10%Q. change (inject_Z 5) with 5%Q. reflexivity. }
  destruct (arange_three s h (10 * k + 1) (5 * k)) as (e1 & e2 & -> & He1 & He2).
  - exact Hs.
  - change (2 ^ 53) with 9007199254740992. lia.
  - exact Hh.
  - lia.
  - change (2 ^ 53) with 9007199254740992. lia.
  - rewrite Hratio. apply Qle_shift_div_l; [lra|].
    change (B64.pow2 (-51)) with (1 # 2251799813685248)%Q. lra.
  - rewrite Hratio. apply Qle_shift_div_r; lra.
  - simpl rbind. apply strings_three; [reflexivity|exact He1|].
    rewrite He2. replace (2 * (5 * k)) with (10 * k) by lia. reflexivity.
Qed.

(** Beyond [2^53] adding or subtracting 1 changes nothing, the stop lies
    exactly two steps from 0, and the third label is lost. *)
Lemma labels_beyond :
  HlaB64.yticks_labels (B64.Fin (-9007199254741000)) =
    Ok ["0"; "-4503599627370500"] /\
  CancerDriversB64.yticks_labels (B64.Fin 9007199254741000) =
    Ok ["0"; "4503599627370500"].
Proof. split; vm_compute; reflexivity. Qed.

(** The same labels in the exact reading of lines 144-147. *)
Lemma hla_labels_exact (v : Q) (k : Z) :
  k < 0 ->
  (v == inject_Z (10 * k))%Q ->
  Hla.yticks_labels (fin v) = Ok [py_str 0; py_str (5 * k); py_str (10 * k)].
Proof.
  intros Hk Hv.
  assert (Hle : (v <= -10)%Q).
  { rewrite Hv. change (-10)%Q with (inject_Z (-10)). rewrite <- Zle_Qle. lia. }
  assert (Hhalf : (v / 2 == inject_Z (5 * k))%Q).
  { rewrite Hv, !inject_Z_mult. change (inject_Z 10) with 10%Q.
    change (inject_Z 5) with 5%Q. field. }
  unfold Hla.yticks_labels, np_arange. simpl.
  rewrite Qeq_bool_false by (intros Hz; qdiv; lra).
  rewrite hla_arange_length by exact Hle. simpl.
  rewrite (py_int_inject _ 0) by (simpl; ring).
  rewrite (py_int_inject _ (5 * k)) by (rewrite <- Hhalf; simpl; ring).
  rewrite (py_int_inject _ (10 * k)) by (rewrite <- Hv; simpl; field).
  reflexivity.
Qed.

(** C6, as amended.  For an axis floor [v] that is a negative multiple of
    10 not below [-2^52], the ticks are put at 0, v/2 and v, the labels are
    made separately by stepping from 0 toward v-1 in steps of v/2, all in
    binary64, and the labels that result are the texts of 0, v/2 and v:
    label and tick position agree, one by one.  On this range the exact
    reading of the lines gives the same labels. *)
Theorem C6_hla_labels_follow_positions :
  forall (v : Q) (k : Z),
    k < 0 ->
    - 4503599627370496 <= 10 * k ->
    (v == inject_Z (10 * k))%Q ->
    exists h : Q,
      HlaB64.yticks_positions (B64.Fin v) (B64.Fin 0) =
        [B64.Fin 0; B64.Fin h; B64.Fin v] /\
      (h == inject_Z (5 * k))%Q /\
      HlaB64.yticks_labels (B64.Fin v) =
        rbind (B64.np_arange (B64.Fin 0) (B64.sub (B64.Fin v) (B64.Fin 1)) (B64.Fin h))
              B64.strings /\
      HlaB64.yticks_labels (B64.Fin v) = Ok [py_str 0; py_str (5 * k); py_str (10 * k)] /\
      map B64.tick_text (HlaB64.yticks_positions (B64.Fin v) (B64.Fin 0)) =
        map Some [py_str 0; py_str (5 * k); py_str (10 * k)] /\
      Hla.yticks_labels (fin v) = HlaB64.yticks_labels (B64.Fin v).
Proof.
  intros v k Hk Hsize Hv.
  destruct (half_exact v k Hv) as (h & Hhalf & Hh);
    [change (2 ^ 53) with 9007199254740992; lia|].
  exists h. unfold HlaB64.yticks_positions. rewrite Hhalf.
  split; [reflexivity|]. split; [exact Hh|].
  split; [unfold HlaB64.yticks_labels; now rewrite Hhalf|].
  split; [now apply hla_labels_binary64|].
  split.
  - unfold B64.tick_text. simpl.
    rewrite (py_int_inject 0 0) by reflexivity.
    rewrite (py_int_inject h (5 * k)) by exact Hh.
    rewrite (py_int_inject v (10 * k)) by exact Hv.
    reflexivity.
  - rewrite (hla_labels_exact v k Hk Hv). symmetry. now apply hla_labels_binary64.
Qed.

Lemma C6_hla_labels_follow_positions_witness :
  -2 < 0 /\
  - 4503599627370496 <= 10 * -2 /\
  (-20 == inject_Z (10 * -2))%Q /\
  exists h : Q,
    HlaB64.yticks_positions (B64.Fin (-20)) (B64.Fin 0) =
      [B64.Fin 0; B64.Fin h; B64.Fin (-20)] /\
    (h == inject_Z (5 * -2))%Q /\
    HlaB64.yticks_labels (B64.Fin (-20)) =
      rbind (B64.np_arange (B64.Fin 0) (B64.sub (B64.Fin (-20)) (B64.Fin 1)) (B64.Fin h))
            B64.strings /\
    HlaB64.yticks_labels (B64.Fin (-20)) =
      Ok [py_str 0; py_str (5 * -2); py_str (10 * -2)] /\
    map B64.tick_text (HlaB64.yticks_positions (B64.Fin (-20)) (B64.Fin 0)) =
      map Some [py_str 0; py_str (5 * -2); py_str (10 * -2)] /\
    Hla.yticks_labels (fin (-20)) = HlaB64.yticks_labels (B64.Fin (-20)).
Proof.
  split; [lia|]. split; [lia|]. split; [reflexivity|].
  apply (C6_hla_labels_follow_positions (-20) (-2)); [lia|lia|reflexivity].
Defined.

(** C6 as stated fails: for a floor of -20 the labels are "0", "-10" and
    "-20", the texts of the three tick positions. *)
Lemma C6_counterexample :
  ~ (forall (v : Q) (k : Z) (labels : list string),
       k < 0 ->
       (v == inject_Z (10 * k))%Q ->
       HlaB64.yticks_labels (B64.Fin v) = Ok labels ->
       map B64.tick_text (HlaB64.yticks_positions (B64.Fin v) (B64.Fin 0)) <>
         map Some labels).
Proof.
  intros H.
  apply (H (-20)%Q (-2) ["0"; "-10"; "-20"]);
    [lia|reflexivity|vm_compute; reflexivity|vm_compute; reflexivity].
Qed.

(** * Further properties of the two renderers *)

(** ** What the loops draw *)

Lemma sector_labels_app (a b : figure) :
  sector_labels (a ++ b) = sector_labels a ++ sector_labels b.
Proof. apply flat_map_app. Qed.

Lemma bar_heights_app (a b : figure) :
  bar_heights (a ++ b) = bar_heights a ++ bar_heights b.
Proof. apply flat_map_app. Qed.

Lemma rect_colors_app (a b : figure) :
  rect_colors (a ++ b) = rect_colors a ++ rect_colors b.
Proof. apply flat_map_app. Qed.

Lemma arange_nat_length (n : nat) : List.length (arange_nat n) = n.
Proof. unfold arange_nat. now rewrite length_map, length_seq. Qed.

Lemma shift_length (c : Q) (x : list Q) : List.length (shift c x) = List.length x.
Proof. unfold shift. apply length_map. Qed.

Lemma last_track_cons (r : Z * Z) (p : Q) (sec : Sector) (ss : list Sector)
    (before : option Track) :
  last_track r p (sec :: ss) before =
  last_track r p ss (Some {| parent := sec; r_lim := r; r_pad_ratio := p |}).
Proof. reflexivity. Qed.

Lemma last_track_last (r : Z * Z) (p : Q) (ss : list Sector) (d : Sector) :
  ss <> [] ->
  forall before : option Track,
    last_track r p ss before =
    Some {| parent := last ss d; r_lim := r; r_pad_ratio := p |}.
Proof.
  induction ss as [|sec ss IH]; [congruence|]. intros _ before.
  rewrite last_track_cons. destruct ss as [|sec' ss']; [reflexivity|].
  rewrite IH by discriminate. reflexivity.
Qed.

Section CancerDriversEffects.

Import CancerDrivers.

Variable df : DataFrame.
Variable o : options.
Variable counted : Series.
Hypothesis Hcounted : getitem df (track_1_data o) = Ok counted.

Lemma cancer_type_track_effects (ss : list Sector) :
  forall (col_1 : Z) (track1 : option Track) (fig : figure),
  exists ds : figure,
    cancer_type_track ss col_1 track1 fig =
      Ok (last_track (94, 100) 0 ss track1, fig ++ ds) /\
    sector_labels ds = map name ss /\
    bar_heights ds = [] /\
    Forall aligned ds.
Proof.
  induction ss as [|sec ss' IH]; intros col_1 track1 fig.
  - exists []. simpl. unfold ret. rewrite app_nil_r. repeat split. constructor.
  - simpl cancer_type_track. do 3 run_emit.
    match goal with
    | |- context [cancer_type_track ss' ?c ?t ?f] =>
        destruct (IH c t f) as (ds & Hrun & Hlabels & Hheights & Haligned)
    end.
    eexists (_ :: _ :: _ :: ds).
    split; [rewrite Hrun, <- !app_assoc; reflexivity|].
    simpl. rewrite Hlabels, Hheights.
    repeat split. repeat (constructor; [exact I|]). exact Haligned.
Qed.

Lemma tumor_frequency_track_effects (v : float64) (sp st en : Z) (ss : list Sector) :
  (forall sec, In sec ss ->
     In sec (sectors (new_Circos (value_counts counted) sp st en))) ->
  forall (col_2 : Z) (track2 track2' : option Track) (fig fig' : figure),
    tumor_frequency_track df o v ss col_2 track2 fig = Ok (track2', fig') ->
    exists ds : figure,
      fig' = fig ++ ds /\
      track2' = last_track (66, 48) (1 # 10) ss track2 /\
      sector_labels ds = [] /\
      map (@List.length cell) (bar_heights ds) = map size ss /\
      Forall aligned ds.
Proof.
  induction ss as [|sec ss' IH]; intros Hss col_2 track2 track2' fig fig' Hrun.
  - simpl in Hrun. unfold ret in Hrun. injection Hrun as <- <-.
    exists []. rewrite app_nil_r. repeat split. constructor.
  - simpl in Hrun.
    peel_emit Hrun.
    peel_lift Hrun filtered Hfiltered.
    peel_lift Hrun y Hy.
    peel_lift Hrun labels Hlabels.
    peel_emit Hrun.
    peel_lift Hrun ylabels Hylabels.
    do 4 peel_emit Hrun.
    pose proof (filtered_length df filtered _ _ counted y sec sp st en
                  Hcounted (Hss sec (or_introl eq_refl)) Hfiltered Hy) as Hly.
    pose proof (filtered_length df filtered _ _ counted labels sec sp st en
                  Hcounted (Hss sec (or_introl eq_refl)) Hfiltered Hlabels) as Hll.
    apply IH in Hrun as (ds & -> & -> & Hlab & Hheights & Haligned);
      [|intros s Hs; apply Hss; now right].
    eexists (_ :: _ :: _ :: _ :: _ :: _ :: ds).
    split; [rewrite <- !app_assoc; reflexivity|].
    split; [reflexivity|].
    simpl. rewrite Hlab, Hheights, Hly.
    repeat split.
    constructor; [exact I|].
    constructor; [simpl; now rewrite shift_length, arange_nat_length|].
    do 3 (constructor; [exact I|]).
    constructor; [simpl; now rewrite arange_nat_length|].
    exact Haligned.
Qed.

Lemma driver_status_track_effects (sp st en : Z) (ss : list Sector) :
  (forall sec, In sec ss ->
     In sec (sectors (new_Circos (value_counts counted) sp st en))) ->
  forall (col_pal : Z) (track3 track3' : option Track) (fig fig' : figure),
    driver_status_track df o ss col_pal track3 fig = Ok (track3', fig') ->
    exists ds : figure,
      fig' = fig ++ ds /\
      track3' = last_track (44, 46) 0 ss track3 /\
      sector_labels ds = [] /\
      bar_heights ds = [] /\
      Forall aligned ds.
Proof.
  induction ss as [|sec ss' IH]; intros Hss col_pal track3 track3' fig fig' Hrun.
  - simpl in Hrun. unfold ret in Hrun. injection Hrun as <- <-.
    exists []. rewrite app_nil_r. repeat split. constructor.
  - simpl in Hrun.
    peel_emit Hrun.
    peel_lift Hrun filtered Hfiltered.
    peel_lift Hrun data Hdata.
    peel_lift Hrun scale Hscale.
    peel_emit Hrun.
    pose proof (filtered_length df filtered _ _ counted data sec sp st en
                  Hcounted (Hss sec (or_introl eq_refl)) Hfiltered Hdata) as Hld.
    apply IH in Hrun as (ds & -> & -> & Hlab & Hheights & Haligned);
      [|intros s Hs; apply Hss; now right].
    eexists (_ :: _ :: ds).
    split; [rewrite <- !app_assoc; reflexivity|].
    split; [reflexivity|].
    simpl. rewrite Hlab, Hheights.
    repeat split.
    constructor; [exact I|]. constructor; [exact Hld|]. exact Haligned.
Qed.

(** The stages of a finished [compose]. *)
Lemma drivers_compose_stages (circos : Circos) (fig : figure) :
  compose df o [] = Ok (circos, fig) ->
  exists (max_value : float64) (track1 track2 track3 : Track)
         (figA figB figC : figure),
    circos = new_Circos (value_counts counted) 7 0 360 /\
    sectors circos <> [] /\
    cancer_type_track (sectors circos) (bar_pal_start o) None [] =
      Ok (Some track1, figA) /\
    tumor_frequency_track df o (rounded_max_value max_value) (sectors circos)
      (bar_pal_start o) None
      (figA ++ [text track1 (Str "A") (Some (track_end track1 + (8 # 10))%Q)
                  (Some 96) 7]) = Ok (Some track2, figB) /\
    driver_status_track df o (sectors circos) (hmap_pal_start o) None
      (figB ++ [text track2 (Str "B") (Some (track_end track2 + (8 # 10))%Q)
                  (Some 68) 7]) = Ok (Some track3, figC) /\
    fig = figC ++
          [ text track3 (Str "C") (Some (track_end track3 + (8 # 10))%Q) (Some 45) 7;
            circos_text "A: Cancer type" 106 180 8;
            circos_text (track_2_label o) 108 180 8;
            circos_text "C: Driver gene status" 110 180 8;
            circos_text (plot_title o) 110 0 14 ].
Proof.
  intros H. unfold compose in H.
  peel_lift H circos0 Hlayout.
  unfold layout in Hlayout. rewrite Hcounted in Hlayout. simpl in Hlayout.
  injection Hlayout as <-.
  peel H track1 fig1 HA.
  peel H tr1 fig1' Hlocal. apply local_Ok_inv in Hlocal as [-> ->].
  peel_emit H.
  peel_lift H max_value Hmax.
  peel H track2 fig2 HB.
  peel H tr2 fig2' Hlocal. apply local_Ok_inv in Hlocal as [-> ->].
  peel_emit H.
  peel H track3 fig3 HC.
  peel H tr3 fig3' Hlocal. apply local_Ok_inv in Hlocal as [-> ->].
  do 5 peel_emit H.
  unfold ret in H. injection H as <- <-.
  exists max_value, tr1, tr2, tr3, fig1, fig2, fig3.
  split; [reflexivity|]. split.
  { intros Hnil. rewrite Hnil in HA. simpl in HA. unfold ret in HA. discriminate. }
  split; [exact HA|]. split; [exact HB|]. split; [exact HC|].
  rewrite <- !app_assoc. reflexivity.
Qed.

End CancerDriversEffects.

Lemma py_getitem_nth {A} (l : list A) (i : nat) (d : A) :
  (i < List.length l)%nat -> py_getitem l (Z.of_nat i) = Ok (nth i l d).
Proof.
  intros Hi. unfold py_getitem.
  destruct (Z.ltb_spec (Z.of_nat i) 0) as [Hneg|_]; [lia|].
  destruct (Z.ltb_spec (Z.of_nat i) 0) as [Hneg|_]; [lia|].
  destruct (Z.leb_spec (Z.of_nat (List.length l)) (Z.of_nat i)) as [Hbig|_]; [lia|].
  simpl. rewrite Nat2Z.id.
  rewrite (nth_error_nth' l d Hi). reflexivity.
Qed.

Lemma colors_by_row_cons (start : Z) (sec : Sector) (ss : list Sector) :
  colors_by_row start (sec :: ss) =
  repeat (ColorCycler (start + 1)) (size sec) ++ colors_by_row (start + 1) ss.
Proof.
  unfold colors_by_row.
  change (List.length (sec :: ss)) with (S (List.length ss)).
  rewrite cursor_cons. reflexivity.
Qed.

Section HlaEffects.

Import Hla.

Variable df : DataFrame.
Variable o : options.
Variable counted : Series.
Hypothesis Hcounted : getitem df (track_1_data o) = Ok counted.

Opaque cursor.

Lemma hla_cancer_type_track_effects (ss : list Sector) :
  forall (col_1 : Z) (track1 : option Track) (fig : figure),
  exists ds : figure,
    cancer_type_track ss col_1 track1 fig =
      Ok (last_track (94, 100) 0 ss track1, fig ++ ds) /\
    sector_labels ds = map name ss /\
    bar_heights ds = [] /\
    Forall aligned ds /\
    fill_colors ds = map ColorCycler (cursor col_1 (List.length ss)) /\
    rect_colors ds = [] /\
    bar_colors ds = [].
Proof.
  induction ss as [|sec ss' IH]; intros col_1 track1 fig.
  - exists []. simpl. unfold ret. rewrite app_nil_r. repeat split. constructor.
  - simpl cancer_type_track. do 3 run_emit.
    match goal with
    | |- context [cancer_type_track ss' ?c ?t ?f] =>
        destruct (IH c t f)
          as (ds & Hrun & Hlabels & Hheights & Haligned & Hfill & Hrect & Hbar)
    end.
    eexists (_ :: _ :: _ :: ds).
    split; [rewrite Hrun, <- !app_assoc; reflexivity|].
    change (List.length (sec :: ss')) with (S (List.length ss')).
    rewrite cursor_cons. simpl. rewrite Hlabels, Hheights, Hfill, Hrect, Hbar.
    repeat split. repeat (constructor; [exact I|]). exact Haligned.
Qed.

(** The inner loop of the length ring draws, for each index of its range,
    a rectangle and the text of that row. *)
Lemma rectangles_effects (track1 : Track) (length_list : Series) (col_3 : Z)
    (range : list nat) :
  (forall i, In i range -> (i < List.length length_list)%nat) ->
  forall fig : figure,
    rectangles track1 length_list col_3 range fig =
      Ok (tt, fig ++ flat_map (row_marks track1 length_list col_3) range).
Proof.
  induction range as [|i range' IH]; intros Hrange fig.
  - simpl. unfold ret. now rewrite app_nil_r.
  - simpl rectangles.
    run_emit.
    run_lift (py_getitem_nth length_list i NaN (Hrange i (or_introl eq_refl))).
    run_emit.
    rewrite IH by (intros j Hj; apply Hrange; now right).
    simpl. rewrite <- !app_assoc. reflexivity.
Qed.

Lemma row_marks_read (track1 : Track) (length_list : Series) (col_3 : Z)
    (range : list nat) :
  rect_colors (flat_map (row_marks track1 length_list col_3) range) =
    repeat (ColorCycler col_3) (List.length range) /\
  sector_labels (flat_map (row_marks track1 length_list col_3) range) = [] /\
  bar_heights (flat_map (row_marks track1 length_list col_3) range) = [] /\
  fill_colors (flat_map (row_marks track1 length_list col_3) range) = [] /\
  bar_colors (flat_map (row_marks track1 length_list col_3) range) = [] /\
  Forall aligned (flat_map (row_marks track1 length_list col_3) range).
Proof.
  induction range as [|i range' (Hrect & Hlab & Hheights & Hfill & Hbar & Hal)];
    simpl.
  - repeat split. constructor.
  - rewrite Hrect, Hlab, Hheights, Hfill, Hbar.
    repeat split. repeat (constructor; [exact I|]). exact Hal.
Qed.

Lemma peptide_length_track_effects (sp st en : Z) (ss : list Sector) :
  (forall sec, In sec ss ->
     In sec (sectors (new_Circos (value_counts counted) sp st en))) ->
  forall (col_3 : Z) (track1 track1' : option Track) (fig fig' : figure),
    peptide_length_track df o ss col_3 track1 fig = Ok (track1', fig') ->
    exists ds : figure,
      fig' = fig ++ ds /\
      track1' = last_track (91, 84) 0 ss track1 /\
      sector_labels ds = [] /\
      bar_heights ds = [] /\
      Forall aligned ds /\
      rect_colors ds = colors_by_row col_3 ss /\
      fill_colors ds = [] /\
      bar_colors ds = [].
Proof.
  induction ss as [|sec ss' IH]; intros Hss col_3 track1 track1' fig fig' Hrun.
  - simpl in Hrun. unfold ret in Hrun. injection Hrun as <- <-.
    exists []. rewrite app_nil_r. repeat split. constructor.
  - simpl in Hrun.
    peel_emit Hrun.
    peel_lift Hrun filtered Hfiltered.
    peel_lift Hrun length_list Hlist.
    peel Hrun rects fig1 Hrect.
    pose proof (filtered_length df filtered _ _ counted length_list sec sp st en
                  Hcounted (Hss sec (or_introl eq_refl)) Hfiltered Hlist) as Hlen.
    unfold track_size in Hrect. simpl parent in Hrect. rewrite Nat2Z.id in Hrect.
    rewrite rectangles_effects in Hrect
      by (intros i Hi; apply in_seq in Hi; lia).
    injection Hrect as _ <-.
    apply IH in Hrun
      as (ds & -> & -> & Hlab & Hheights & Haligned & Hrects & Hfill & Hbar);
      [|intros s Hs; apply Hss; now right].
    match goal with
    | |- context [flat_map (row_marks ?t ?l ?c) ?r] =>
        destruct (row_marks_read t l c r)
          as (Hrect' & Hlab' & Hheights' & Hfill' & Hbar' & Hal');
        exists (add_track t :: flat_map (row_marks t l c) r ++ ds)
    end.
    split; [rewrite <- !app_assoc; reflexivity|].
    split; [reflexivity|].
    rewrite colors_by_row_cons.
    change (?d :: ?a ++ ?b) with ([d] ++ a ++ b).
    rewrite !sector_labels_app, !bar_heights_app, !rect_colors_app,
      !fill_colors_app, !bar_colors_app.
    rewrite Hrect', Hlab', Hheights', Hfill', Hbar', Hlab, Hheights, Hrects,
      Hfill, Hbar, length_seq.
    simpl. repeat split.
    constructor; [exact I|].
    apply Forall_app. split; assumption.
Qed.

Lemma affinity_track_effects (vmin vmax : float64) (sp st en : Z)
    (ss : list Sector) :
  (forall sec, In sec ss ->
     In sec (sectors (new_Circos (value_counts counted) sp st en))) ->
  forall (col_2 : Z) (track track' : option Track) (fig fig' : figure),
    affinity_track df o vmin vmax ss col_2 track fig = Ok (track', fig') ->
    exists ds : figure,
      fig' = fig ++ ds /\
      track' = last_track (66, 48) (1 # 10) ss track /\
      sector_labels ds = [] /\
      map (@List.length cell) (bar_heights ds) = map size ss /\
      Forall aligned ds /\
      bar_colors ds = map ColorCycler (cursor col_2 (List.length ss)) /\
      fill_colors ds = [] /\
      rect_colors ds = [].
Proof.
  induction ss as [|sec ss' IH]; intros Hss col_2 track track' fig fig' Hrun.
  - simpl in Hrun. unfold ret in Hrun. injection Hrun as <- <-.
    exists []. rewrite app_nil_r. repeat split. constructor.
  - simpl in Hrun.
    peel_emit Hrun.
    peel_lift Hrun filtered Hfiltered.
    peel_lift Hrun y Hy.
    peel_lift Hrun labels Hlabels.
    peel_emit Hrun.
    peel_lift Hrun ylabels Hylabels.
    do 4 peel_emit Hrun.
    pose proof (filtered_length df filtered _ _ counted y sec sp st en
                  Hcounted (Hss sec (or_introl eq_refl)) Hfiltered Hy) as Hly.
    pose proof (filtered_length df filtered _ _ counted labels sec sp st en
                  Hcounted (Hss sec (or_introl eq_refl)) Hfiltered Hlabels) as Hll.
    apply IH in Hrun
      as (ds & -> & -> & Hlab & Hheights & Haligned & Hbar & Hfill & Hrect);
      [|intros s Hs; apply Hss; now right].
    eexists (_ :: _ :: _ :: _ :: _ :: _ :: ds).
    split; [rewrite <- !app_assoc; reflexivity|].
    split; [reflexivity|].
    change (List.length (sec :: ss')) with (S (List.length ss')).
    rewrite cursor_cons.
    simpl. rewrite Hlab, Hheights, Hly, Hbar, Hfill, Hrect.
    repeat split.
    constructor; [exact I|].
    constructor; [simpl; now rewrite shift_length, arange_nat_length|].
    do 3 (constructor; [exact I|]).
    constructor; [simpl; now rewrite arange_nat_length|].
    exact Haligned.
Qed.

Transparent cursor.

(** The stages of a finished [compose]. *)
Lemma hla_compose_stages (circos : Circos) (fig : figure) :
  compose df o [] = Ok (circos, fig) ->
  exists (min_value : float64) (track1 track1b track : Track)
         (figA figB figC : figure),
    circos = new_Circos (value_counts counted) 7 4 360 /\
    sectors circos <> [] /\
    cancer_type_track (sectors circos) (pal_start o) None [] =
      Ok (Some track1, figA) /\
    peptide_length_track df o (sectors circos) (pal_start o) (Some track1)
      (figA ++ [text track1 (Str "A") (Some (track_end track1 + (65 # 100))%Q)
                  (Some 96) 7]) = Ok (Some track1b, figB) /\
    affinity_track df o (rounded_min_value min_value) (fin 0) (sectors circos)
      (pal_start o) None
      (figB ++ [text track1b (Str "B") (Some (track_end track1b + (65 # 100))%Q)
                  (Some 86) 7]) = Ok (Some track, figC) /\
    fig = figC ++
          [ text track (Str "C") (Some (track_end track + (65 # 100))%Q) (Some 72) 7;
            text track (Str "D") (Some (track_end track + (65 # 100))%Q) (Some 58) 7;
            circos_text "A: HLA" 105 180 8;
            circos_text "B: Length" 109 180 8;
            circos_text "C: Peptide" 113 180 8;
            circos_text "D: HLA arena binding energy" 117 180 8 ].
Proof.
  intros H. unfold compose in H.
  peel_lift H circos0 Hlayout.
  unfold layout in Hlayout. rewrite Hcounted in Hlayout. simpl in Hlayout.
  injection Hlayout as <-.
  peel H track1 fig1 HA.
  peel H tr1 fig1' Hlocal. apply local_Ok_inv in Hlocal as [-> ->].
  peel_emit H.
  peel H track1b fig2 HB.
  peel H tr1b fig2' Hlocal. apply local_Ok_inv in Hlocal as [-> ->].
  peel_emit H.
  peel_lift H min_value Hmin.
  peel H track fig3 HC.
  peel H tr fig3' Hlocal. apply local_Ok_inv in Hlocal as [-> ->].
  do 6 peel_emit H.
  unfold ret in H. injection H as <- <-.
  exists min_value, tr1, tr1b, tr, fig1, fig2, fig3.
  split; [reflexivity|]. split.
  { intros Hnil. rewrite Hnil in HA. simpl in HA. unfold ret in HA. discriminate. }
  split; [exact HA|]. split; [exact HB|]. split; [exact HC|].
  rewrite <- !app_assoc. reflexivity.
Qed.

End HlaEffects.

(** ** Calls that return *)

Lemma plot_circos_stages (w w' : world) (file_path : string)
    (o : CancerDrivers.options) :
  CancerDrivers.plot_circos w file_path o = (Ok tt, w') ->
  exists (df : DataFrame) (counted : Series) (circos : Circos) (fig : figure),
    read_csv w file_path = Ok df /\
    getitem df (CancerDrivers.track_1_data o) = Ok counted /\
    CancerDrivers.compose df o [] = Ok (circos, fig) /\
    w' = savefig w (CancerDrivers.file_name o)
           {| plotted := circos; cmap := CancerDrivers.palette o; drawn := fig;
              format := "pdf"; dpi := 300 |}.
Proof.
  intros Hcall.
  destruct (plot_circos_result w file_path o)
    as [(e & He)|(df & circos & fig & Hread & Hcompose & Hcall')]; [congruence|].
  rewrite Hcall' in Hcall. injection Hcall as <-.
  destruct (drivers_compose_inv df o circos fig Hcompose) as (Hlayout & _).
  destruct (drivers_layout_sectors df o circos Hlayout) as (counted & Hcounted & _).
  exists df, counted, circos, fig. auto.
Qed.

Lemma plot_circos_hla_stages (w w' : world) (file_path : string) (o : Hla.options) :
  Hla.plot_circos_hla w file_path o = (Ok tt, w') ->
  exists (df : DataFrame) (counted : Series) (circos : Circos) (fig : figure),
    read_csv w file_path = Ok df /\
    getitem df (Hla.track_1_data o) = Ok counted /\
    Hla.compose df o [] = Ok (circos, fig) /\
    w' = savefig w (Hla.file_name o)
           {| plotted := circos; cmap := Hla.palette o; drawn := fig;
              format := "pdf"; dpi := 300 |}.
Proof.
  intros Hcall.
  destruct (plot_circos_hla_result w file_path o)
    as [(e & He)|(df & circos & fig & Hread & Hcompose & Hcall')]; [congruence|].
  rewrite Hcall' in Hcall. injection Hcall as <-.
  destruct (hla_compose_inv df o circos fig Hcompose) as (Hlayout & _).
  unfold Hla.layout in Hlayout.
  apply rbind_Ok_inv in Hlayout as (counted & Hcounted & _).
  exists df, counted, circos, fig. auto.
Qed.

(** What the three rings of a finished driver figure hold, read back. *)
Lemma drivers_figure_read (df : DataFrame) (o : CancerDrivers.options)
    (counted : Series) (circos : Circos) (fig : figure) (d : Sector) :
  getitem df (CancerDrivers.track_1_data o) = Ok counted ->
  CancerDrivers.compose df o [] = Ok (circos, fig) ->
  circos = new_Circos (value_counts counted) 7 0 360 /\
  sector_labels fig = map name (sectors circos) /\
  map (@List.length cell) (bar_heights fig) = map size (sectors circos) /\
  Forall aligned fig /\
  In (text {| parent := last (sectors circos) d; r_lim := (94, 100); r_pad_ratio := 0 |}
        (Str "A")
        (Some (inject_Z (Z.of_nat (size (last (sectors circos) d))) + (8 # 10))%Q)
        (Some 96) 7) fig /\
  In (text {| parent := last (sectors circos) d; r_lim := (66, 48);
              r_pad_ratio := 1 # 10 |}
        (Str "B")
        (Some (inject_Z (Z.of_nat (size (last (sectors circos) d))) + (8 # 10))%Q)
        (Some 68) 7) fig /\
  In (text {| parent := last (sectors circos) d; r_lim := (44, 46); r_pad_ratio := 0 |}
        (Str "C")
        (Some (inject_Z (Z.of_nat (size (last (sectors circos) d))) + (8 # 10))%Q)
        (Some 45) 7) fig.
Proof.
  intros Hcounted Hcompose.
  destruct (drivers_compose_stages df o counted Hcounted circos fig Hcompose)
    as (max_value & track1 & track2 & track3 & figA & figB & figC &
        Hcircos & Hss & HA & HB & HC & ->).
  destruct (cancer_type_track_effects (sectors circos)
              (CancerDrivers.bar_pal_start o) None [])
    as (dsA & HA' & HlabA & HheightsA & HalA).
  rewrite HA' in HA. injection HA as Htrack1 <-.
  rewrite (last_track_last _ _ _ d Hss) in Htrack1. injection Htrack1 as <-.
  apply tumor_frequency_track_effects with (counted := counted) (sp := 7) (st := 0)
    (en := 360) in HB as (dsB & -> & Htrack2 & HlabB & HheightsB & HalB);
    [|exact Hcounted|intros s Hs; now rewrite <- Hcircos].
  rewrite (last_track_last _ _ _ d Hss) in Htrack2. injection Htrack2 as ->.
  apply driver_status_track_effects with (counted := counted) (sp := 7) (st := 0)
    (en := 360) in HC as (dsC & -> & Htrack3 & HlabC & HheightsC & HalC);
    [|exact Hcounted|intros s Hs; now rewrite <- Hcircos].
  rewrite (last_track_last _ _ _ d Hss) in Htrack3. injection Htrack3 as ->.
  split; [exact Hcircos|].
  rewrite !sector_labels_app, !bar_heights_app.
  rewrite HlabA, HlabB, HlabC, HheightsA, HheightsC.
  simpl. rewrite !app_nil_r. split; [reflexivity|]. split; [exact HheightsB|].
  split.
  { repeat (apply Forall_app; split); try assumption; repeat constructor. }
  unfold track_end, track_size. simpl parent.
  repeat split.
  - apply in_or_app. left. apply in_or_app. left. apply in_or_app. left.
    apply in_or_app. left. apply in_or_app. right. now left.
  - apply in_or_app. left. apply in_or_app. left. apply in_or_app. right. now left.
  - apply in_or_app. right. now left.
Qed.

(** What the three rings of a finished HLA figure hold, read back. *)
Lemma hla_figure_read (df : DataFrame) (o : Hla.options)
    (counted : Series) (circos : Circos) (fig : figure) (d : Sector) :
  getitem df (Hla.track_1_data o) = Ok counted ->
  Hla.compose df o [] = Ok (circos, fig) ->
  circos = new_Circos (value_counts counted) 7 4 360 /\
  sector_labels fig = map name (sectors circos) /\
  map (@List.length cell) (bar_heights fig) = map size (sectors circos) /\
  Forall aligned fig /\
  (fill_colors fig =
     map ColorCycler (cursor (Hla.pal_start o) (List.length (sectors circos))) /\
   rect_colors fig = colors_by_row (Hla.pal_start o) (sectors circos) /\
   bar_colors fig =
     map ColorCycler (cursor (Hla.pal_start o) (List.length (sectors circos)))) /\
  In (text {| parent := last (sectors circos) d; r_lim := (94, 100); r_pad_ratio := 0 |}
        (Str "A")
        (Some (inject_Z (Z.of_nat (size (last (sectors circos) d))) + (65 # 100))%Q)
        (Some 96) 7) fig /\
  In (text {| parent := last (sectors circos) d; r_lim := (91, 84); r_pad_ratio := 0 |}
        (Str "B")
        (Some (inject_Z (Z.of_nat (size (last (sectors circos) d))) + (65 # 100))%Q)
        (Some 86) 7) fig /\
  In (text {| parent := last (sectors circos) d; r_lim := (66, 48);
              r_pad_ratio := 1 # 10 |}
        (Str "C")
        (Some (inject_Z (Z.of_nat (size (last (sectors circos) d))) + (65 # 100))%Q)
        (Some 72) 7) fig /\
  In (text {| parent := last (sectors circos) d; r_lim := (66, 48);
              r_pad_ratio := 1 # 10 |}
        (Str "D")
        (Some (inject_Z (Z.of_nat (size (last (sectors circos) d))) + (65 # 100))%Q)
        (Some 58) 7) fig.
Proof.
  intros Hcounted Hcompose.
  destruct (hla_compose_stages df o counted Hcounted circos fig Hcompose)
    as (min_value & track1 & track1b & track & figA & figB & figC &
        Hcircos & Hss & HA & HB & HC & ->).
  destruct (hla_cancer_type_track_effects (sectors circos) (Hla.pal_start o) None [])
    as (dsA & HA' & HlabA & HheightsA & HalA & HfillA & HrectA & HbarA).
  rewrite HA' in HA. injection HA as Htrack1 <-.
  rewrite (last_track_last _ _ _ d Hss) in Htrack1. injection Htrack1 as <-.
  apply peptide_length_track_effects with (counted := counted) (sp := 7) (st := 4)
    (en := 360) in HB
    as (dsB & -> & Htrack1b & HlabB & HheightsB & HalB & HrectB & HfillB & HbarB);
    [|exact Hcounted|intros s Hs; now rewrite <- Hcircos].
  rewrite (last_track_last _ _ _ d Hss) in Htrack1b. injection Htrack1b as ->.
  apply affinity_track_effects with (counted := counted) (sp := 7) (st := 4)
    (en := 360) in HC
    as (dsC & -> & Htrack & HlabC & HheightsC & HalC & HbarC & HfillC & HrectC);
    [|exact Hcounted|intros s Hs; now rewrite <- Hcircos].
  rewrite (last_track_last _ _ _ d Hss) in Htrack. injection Htrack as ->.
  split; [exact Hcircos|].
  rewrite !sector_labels_app, !bar_heights_app, !fill_colors_app, !rect_colors_app,
    !bar_colors_app.
  rewrite HlabA, HlabB, HlabC, HheightsA, HheightsB, HfillA, HfillB, HfillC,
    HrectA, HrectB, HrectC, HbarA, HbarB, HbarC.
  simpl. rewrite !app_nil_r. split; [reflexivity|]. split; [exact HheightsC|].
  split.
  { repeat (apply Forall_app; split); try assumption; repeat constructor. }
  split; [repeat split|].
  unfold track_end, track_size. simpl parent.
  repeat split.
  - apply in_or_app. left. apply in_or_app. left. apply in_or_app. left.
    apply in_or_app. left. apply in_or_app. right. now left.
  - apply in_or_app. left. apply in_or_app. left. apply in_or_app. right. now left.
  - apply in_or_app. right. now left.
  - apply in_or_app. right. right. now left.
Qed.

(** ** The rows behind a sector *)

Lemma getitem_where_eq (df filtered : DataFrame) (c1 c2 : string) (v : cell)
    (col1 col2 y : Series) :
  getitem df c1 = Ok col1 ->
  getitem df c2 = Ok col2 ->
  where_eq df c1 v = Ok filtered ->
  getitem filtered c2 = Ok y ->
  y = cells_of v col1 col2.
Proof.
  unfold getitem, where_eq.
  destruct (get_loc c1 (columns df)) as [i|]; [|discriminate].
  intros [= <-] H2 [= <-]. simpl.
  destruct (get_loc c2 (columns df)) as [j|]; [|discriminate].
  injection H2 as <-. intros [= <-].
  unfold cells_of. induction (rows df) as [|r rs IH]; simpl; [reflexivity|].
  destruct (cell_eqb (iloc i r) v); simpl; now rewrite IH.
Qed.

Lemma tumor_frequency_track_heights (df : DataFrame) (o : CancerDrivers.options)
    (counted freq : Series) (v : float64) (ss : list Sector) :
  getitem df (CancerDrivers.track_1_data o) = Ok counted ->
  getitem df (CancerDrivers.track_2_data o) = Ok freq ->
  forall (col_2 : Z) (track2 track2' : option Track) (fig fig' : figure),
    CancerDrivers.tumor_frequency_track df o v ss col_2 track2 fig = Ok (track2', fig') ->
    bar_heights fig' =
      bar_heights fig ++ map (fun sec => cells_of (name sec) counted freq) ss.
Proof.
  intros Hcounted Hfreq.
  induction ss as [|sec ss' IH]; intros col_2 track2 track2' fig fig' Hrun.
  - simpl in Hrun. unfold ret in Hrun. injection Hrun as _ <-.
    simpl. now rewrite app_nil_r.
  - simpl in Hrun.
    peel_emit Hrun.
    peel_lift Hrun filtered Hfiltered.
    peel_lift Hrun y Hy.
    peel_lift Hrun labels Hlabels.
    peel_emit Hrun.
    peel_lift Hrun ylabels Hylabels.
    do 4 peel_emit Hrun.
    apply IH in Hrun. rewrite Hrun.
    rewrite (getitem_where_eq df filtered _ _ _ counted freq y
               Hcounted Hfreq Hfiltered Hy).
    rewrite !bar_heights_app. simpl. rewrite !app_nil_r, <- app_assoc. reflexivity.
Qed.

Lemma affinity_track_heights (df : DataFrame) (o : Hla.options)
    (counted energy : Series) (vmin vmax : float64) (ss : list Sector) :
  getitem df (Hla.track_1_data o) = Ok counted ->
  getitem df (Hla.track_3_data o) = Ok energy ->
  forall (col_2 : Z) (track track' : option Track) (fig fig' : figure),
    Hla.affinity_track df o vmin vmax ss col_2 track fig = Ok (track', fig') ->
    bar_heights fig' =
      bar_heights fig ++ map (fun sec => cells_of (name sec) counted energy) ss.
Proof.
  intros Hcounted Henergy.
  induction ss as [|sec ss' IH]; intros col_2 track track' fig fig' Hrun.
  - simpl in Hrun. unfold ret in Hrun. injection Hrun as _ <-.
    simpl. now rewrite app_nil_r.
  - simpl in Hrun.
    peel_emit Hrun.
    peel_lift Hrun filtered Hfiltered.
    peel_lift Hrun y Hy.
    peel_lift Hrun labels Hlabels.
    peel_emit Hrun.
    peel_lift Hrun ylabels Hylabels.
    do 4 peel_emit Hrun.
    apply IH in Hrun. rewrite Hrun.
    rewrite (getitem_where_eq df filtered _ _ _ counted energy y
               Hcounted Henergy Hfiltered Hy).
    rewrite !bar_heights_app. simpl. rewrite !app_nil_r, <- app_assoc. reflexivity.
Qed.

Lemma list_sum_sizes (counted : Series) (sp st en : Z) :
  list_sum (map size (sectors (new_Circos (value_counts counted) sp st en))) =
  List.length (dropna counted).
Proof.
  destruct (value_counts_sectors counted sp st en) as [_ _ _ _ _ _ Htotal _].
  exact Htotal.
Qed.

(** X12.  In a call of either renderer that returns, the bar ring holds one
    series of bars per sector, in layout order; the bars of a sector are the
    cells of the plotted column on the rows of that category, in table order;
    all together there are as many bars as rows with a category. *)
Theorem X12_bars_are_the_rows_of_the_sector :
  forall (wd wd' wh wh' : world) (pd ph : string)
         (od : CancerDrivers.options) (oh : Hla.options)
         (dfd dfh : DataFrame) (counted_d freq counted_h energy : Series),
    read_csv wd pd = Ok dfd ->
    getitem dfd (CancerDrivers.track_1_data od) = Ok counted_d ->
    getitem dfd (CancerDrivers.track_2_data od) = Ok freq ->
    CancerDrivers.plot_circos wd pd od = (Ok tt, wd') ->
    read_csv wh ph = Ok dfh ->
    getitem dfh (Hla.track_1_data oh) = Ok counted_h ->
    getitem dfh (Hla.track_3_data oh) = Ok energy ->
    Hla.plot_circos_hla wh ph oh = (Ok tt, wh') ->
    (exists doc : document,
       wd' = savefig wd (CancerDrivers.file_name od) doc /\
       bar_heights (drawn doc) =
         map (fun sec => cells_of (name sec) counted_d freq) (sectors (plotted doc)) /\
       list_sum (map (@List.length cell) (bar_heights (drawn doc))) =
         List.length (dropna counted_d)) /\
    (exists doc : document,
       wh' = savefig wh (Hla.file_name oh) doc /\
       bar_heights (drawn doc) =
         map (fun sec => cells_of (name sec) counted_h energy) (sectors (plotted doc)) /\
       list_sum (map (@List.length cell) (bar_heights (drawn doc))) =
         List.length (dropna counted_h)).
Proof.
  intros wd wd' wh wh' pd ph od oh dfd dfh counted_d freq counted_h energy
         Hread_d Hcounted_d Hfreq Hcall_d Hread_h Hcounted_h Henergy Hcall_h.
  split.
  - destruct (plot_circos_stages wd wd' pd od Hcall_d)
      as (df & counted & circos & fig & Hread & Hcounted & Hcompose & ->).
    assert (df = dfd) by congruence. subst df.
    assert (counted = counted_d) by congruence. subst counted.
    eexists. split; [reflexivity|]. simpl.
    destruct (drivers_figure_read dfd od counted_d circos fig
                {| name := NaN; size := 0 |} Hcounted Hcompose)
      as (Hcircos & _ & Hlengths & _).
    destruct (drivers_compose_stages dfd od counted_d Hcounted circos fig Hcompose)
      as (max_value & track1 & track2 & track3 & figA & figB & figC &
          _ & _ & HA & HB & HC & Hfig).
    destruct (cancer_type_track_effects (sectors circos)
                (CancerDrivers.bar_pal_start od) None [])
      as (dsA & HA' & _ & HheightsA & _).
    rewrite HA' in HA. injection HA as _ <-.
    pose proof (tumor_frequency_track_heights dfd od counted_d freq _ _
                  Hcounted Hfreq _ _ _ _ _ HB) as HheightsB.
    apply driver_status_track_effects with (counted := counted_d) (sp := 7)
      (st := 0) (en := 360) in HC as (dsC & -> & _ & _ & HheightsC & _);
      [|exact Hcounted|intros s Hs; now rewrite <- Hcircos].
    split.
    + rewrite Hfig, !bar_heights_app, HheightsB, !bar_heights_app, HheightsA, HheightsC.
      simpl. now rewrite !app_nil_r.
    + rewrite Hlengths, Hcircos. apply list_sum_sizes.
  - destruct (plot_circos_hla_stages wh wh' ph oh Hcall_h)
      as (df & counted & circos & fig & Hread & Hcounted & Hcompose & ->).
    assert (df = dfh) by congruence. subst df.
    assert (counted = counted_h) by congruence. subst counted.
    eexists. split; [reflexivity|]. simpl.
    destruct (hla_figure_read dfh oh counted_h circos fig
                {| name := NaN; size := 0 |} Hcounted Hcompose)
      as (Hcircos & _ & Hlengths & _).
    destruct (hla_compose_stages dfh oh counted_h Hcounted circos fig Hcompose)
      as (min_value & track1 & track1b & track & figA & figB & figC &
          _ & _ & HA & HB & HC & Hfig).
    destruct (hla_cancer_type_track_effects (sectors circos)
                (Hla.pal_start oh) None [])
      as (dsA & HA' & _ & HheightsA & _).
    rewrite HA' in HA. injection HA as _ <-.
    apply peptide_length_track_effects with (counted := counted_h) (sp := 7)
      (st := 4) (en := 360) in HB as (dsB & -> & _ & _ & HheightsB & _);
      [|exact Hcounted|intros s Hs; now rewrite <- Hcircos].
    pose proof (affinity_track_heights dfh oh counted_h energy _ _ _
                  Hcounted Henergy _ _ _ _ _ HC) as HheightsC.
    split.
    + rewrite Hfig, !bar_heights_app, HheightsC, !bar_heights_app, HheightsA, HheightsB.
      simpl. now rewrite !app_nil_r.
    + rewrite Hlengths, Hcircos. apply list_sum_sizes.
Qed.

Lemma X12_bars_are_the_rows_of_the_sector_witness :
  exists wd' wh' : world,
    read_csv (on_disk df_abb) "in.tsv" = Ok df_abb /\
    getitem df_abb "Cancer_type" = Ok [txt "a"; txt "b"; txt "b"] /\
    getitem df_abb "Tumors" = Ok [num 5; num 12; num 30] /\
    CancerDrivers.plot_circos (on_disk df_abb) "in.tsv" CancerDrivers.defaults =
      (Ok tt, wd') /\
    read_csv (on_disk df_hla) "in.tsv" = Ok df_hla /\
    getitem df_hla "hla" = Ok [txt "A1"; txt "B7"; txt "B7"] /\
    getitem df_hla "energy" = Ok [num (-25); num (-12); num (-3)] /\
    Hla.plot_circos_hla (on_disk df_hla) "in.tsv" hla_named = (Ok tt, wh') /\
    (exists doc : document,
       wd' = savefig (on_disk df_abb) "plot.pdf" doc /\
       bar_heights (drawn doc) =
         map (fun sec => cells_of (name sec) [txt "a"; txt "b"; txt "b"]
                           [num 5; num 12; num 30]) (sectors (plotted doc)) /\
       list_sum (map (@List.length cell) (bar_heights (drawn doc))) =
         List.length (dropna [txt "a"; txt "b"; txt "b"])) /\
    (exists doc : document,
       wh' = savefig (on_disk df_hla) "plot.pdf" doc /\
       bar_heights (drawn doc) =
         map (fun sec => cells_of (name sec) [txt "A1"; txt "B7"; txt "B7"]
                           [num (-25); num (-12); num (-3)]) (sectors (plotted doc)) /\
       list_sum (map (@List.length cell) (bar_heights (drawn doc))) =
         List.length (dropna [txt "A1"; txt "B7"; txt "B7"])).
Proof.
  eexists. eexists.
  do 8 (split; [reflexivity|]).
  apply (X12_bars_are_the_rows_of_the_sector
           (on_disk df_abb) _ (on_disk df_hla) _ "in.tsv" "in.tsv"
           CancerDrivers.defaults hla_named df_abb df_hla);
    reflexivity.
Defined.

(** ** Series and sectors *)

(** X2.  In a call of either renderer that returns, every series handed to
    a track (the x positions and labels of the x ticks, the x positions and
    heights of the bars, the cells of the heatmap) has exactly one entry per
    unit of the track's sector. *)
Theorem X2_series_are_as_long_as_the_sector :
  forall (wd wd' wh wh' : world) (pd ph : string)
         (od : CancerDrivers.options) (oh : Hla.options),
    CancerDrivers.plot_circos wd pd od = (Ok tt, wd') ->
    Hla.plot_circos_hla wh ph oh = (Ok tt, wh') ->
    (exists doc : document,
       wd' = savefig wd (CancerDrivers.file_name od) doc /\
       Forall aligned (drawn doc)) /\
    (exists doc : document,
       wh' = savefig wh (Hla.file_name oh) doc /\
       Forall aligned (drawn doc)).
Proof.
  intros wd wd' wh wh' pd ph od oh Hcall_d Hcall_h. split.
  - destruct (plot_circos_stages wd wd' pd od Hcall_d)
      as (df & counted & circos & fig & _ & Hcounted & Hcompose & ->).
    eexists. split; [reflexivity|]. simpl.
    now destruct (drivers_figure_read df od counted circos fig
                    {| name := NaN; size := 0 |} Hcounted Hcompose)
      as (_ & _ & _ & Hal & _).
  - destruct (plot_circos_hla_stages wh wh' ph oh Hcall_h)
      as (df & counted & circos & fig & _ & Hcounted & Hcompose & ->).
    eexists. split; [reflexivity|]. simpl.
    now destruct (hla_figure_read df oh counted circos fig
                    {| name := NaN; size := 0 |} Hcounted Hcompose)
      as (_ & _ & _ & Hal & _).
Qed.

Lemma X2_series_are_as_long_as_the_sector_witness :
  exists wd' wh' : world,
    CancerDrivers.plot_circos (on_disk df_abb) "in.tsv" CancerDrivers.defaults =
      (Ok tt, wd') /\
    Hla.plot_circos_hla (on_disk df_hla) "in.tsv" hla_named = (Ok tt, wh') /\
    (exists doc : document,
       wd' = savefig (on_disk df_abb) "plot.pdf" doc /\
       Forall aligned (drawn doc)) /\
    (exists doc : document,
       wh' = savefig (on_disk df_hla) "plot.pdf" doc /\
       Forall aligned (drawn doc)).
Proof.
  eexists. eexists.
  do 2 (split; [reflexivity|]).
  apply (X2_series_are_as_long_as_the_sector
           (on_disk df_abb) _ (on_disk df_hla) _ "in.tsv" "in.tsv"
           CancerDrivers.defaults hla_named);
    reflexivity.
Defined.

(** X8.  In a call of either renderer that returns, the saved document
    holds the layout built from the value counts of the category column
    (gap 7, from 0 or 4 to 360 degrees), and the category ring writes the
    names of the sectors, one per sector, in layout order. *)
Theorem X8_saved_layout_and_sector_names :
  forall (wd wd' wh wh' : world) (pd ph : string)
         (od : CancerDrivers.options) (oh : Hla.options)
         (dfd dfh : DataFrame) (counted_d counted_h : Series),
    read_csv wd pd = Ok dfd ->
    getitem dfd (CancerDrivers.track_1_data od) = Ok counted_d ->
    CancerDrivers.plot_circos wd pd od = (Ok tt, wd') ->
    read_csv wh ph = Ok dfh ->
    getitem dfh (Hla.track_1_data oh) = Ok counted_h ->
    Hla.plot_circos_hla wh ph oh = (Ok tt, wh') ->
    (exists doc : document,
       wd' = savefig wd (CancerDrivers.file_name od) doc /\
       plotted doc = new_Circos (value_counts counted_d) 7 0 360 /\
       sector_labels (drawn doc) = map fst (value_counts counted_d)) /\
    (exists doc : document,
       wh' = savefig wh (Hla.file_name oh) doc /\
       plotted doc = new_Circos (value_counts counted_h) 7 4 360 /\
       sector_labels (drawn doc) = map fst (value_counts counted_h)).
Proof.
  intros wd wd' wh wh' pd ph od oh dfd dfh counted_d counted_h
         Hread_d Hcounted_d Hcall_d Hread_h Hcounted_h Hcall_h.
  split.
  - destruct (plot_circos_stages wd wd' pd od Hcall_d)
      as (df & counted & circos & fig & Hread & Hcounted & Hcompose & ->).
    assert (df = dfd) by congruence. subst df.
    assert (counted = counted_d) by congruence. subst counted.
    eexists. split; [reflexivity|]. simpl.
    destruct (drivers_figure_read dfd od counted_d circos fig
                {| name := NaN; size := 0 |} Hcounted Hcompose)
      as (Hcircos & Hlabels & _).
    split; [exact Hcircos|]. rewrite Hlabels, Hcircos.
    apply sectors_new_Circos.
  - destruct (plot_circos_hla_stages wh wh' ph oh Hcall_h)
      as (df & counted & circos & fig & Hread & Hcounted & Hcompose & ->).
    assert (df = dfh) by congruence. subst df.
    assert (counted = counted_h) by congruence. subst counted.
    eexists. split; [reflexivity|]. simpl.
    destruct (hla_figure_read dfh oh counted_h circos fig
                {| name := NaN; size := 0 |} Hcounted Hcompose)
      as (Hcircos & Hlabels & _).
    split; [exact Hcircos|]. rewrite Hlabels, Hcircos.
    apply sectors_new_Circos.
Qed.

Lemma X8_saved_layout_and_sector_names_witness :
  exists wd' wh' : world,
    read_csv (on_disk df_abb) "in.tsv" = Ok df_abb /\
    getitem df_abb "Cancer_type" = Ok [txt "a"; txt "b"; txt "b"] /\
    CancerDrivers.plot_circos (on_disk df_abb) "in.tsv" CancerDrivers.defaults =
      (Ok tt, wd') /\
    read_csv (on_disk df_hla) "in.tsv" = Ok df_hla /\
    getitem df_hla "hla" = Ok [txt "A1"; txt "B7"; txt "B7"] /\
    Hla.plot_circos_hla (on_disk df_hla) "in.tsv" hla_named = (Ok tt, wh') /\
    (exists doc : document,
       wd' = savefig (on_disk df_abb) "plot.pdf" doc /\
       plotted doc = new_Circos (value_counts [txt "a"; txt "b"; txt "b"]) 7 0 360 /\
       sector_labels (drawn doc) = map fst (value_counts [txt "a"; txt "b"; txt "b"])) /\
    (exists doc : document,
       wh' = savefig (on_disk df_hla) "plot.pdf" doc /\
       plotted doc = new_Circos (value_counts [txt "A1"; txt "B7"; txt "B7"]) 7 4 360 /\
       sector_labels (drawn doc) =
         map fst (value_counts [txt "A1"; txt "B7"; txt "B7"])).
Proof.
  eexists. eexists.
  do 6 (split; [reflexivity|]).
  apply (X8_saved_layout_and_sector_names
           (on_disk df_abb) _ (on_disk df_hla) _ "in.tsv" "in.tsv"
           CancerDrivers.defaults hla_named df_abb df_hla);
    reflexivity.
Defined.

(** ** The ring letters *)

(** X6.  In a call of either renderer that returns, the letter of each ring
    is written on that ring's track of the last sector of the layout, just
    past the end of that sector: at x = size of the last sector + 0.8 in the
    driver renderer (letters A, B, C) and + 0.65 in the HLA renderer (letters
    A, B, and C and D on the same track). *)
Theorem X6_ring_letters_follow_the_last_sector :
  forall (wd wd' wh wh' : world) (pd ph : string)
         (od : CancerDrivers.options) (oh : Hla.options) (d : Sector),
    CancerDrivers.plot_circos wd pd od = (Ok tt, wd') ->
    Hla.plot_circos_hla wh ph oh = (Ok tt, wh') ->
    (exists doc : document,
       wd' = savefig wd (CancerDrivers.file_name od) doc /\
       let final := last (sectors (plotted doc)) d in
       let x := Some (inject_Z (Z.of_nat (size final)) + (8 # 10))%Q in
       In (text {| parent := final; r_lim := (94, 100); r_pad_ratio := 0 |}
             (Str "A") x (Some 96) 7) (drawn doc) /\
       In (text {| parent := final; r_lim := (66, 48); r_pad_ratio := 1 # 10 |}
             (Str "B") x (Some 68) 7) (drawn doc) /\
       In (text {| parent := final; r_lim := (44, 46); r_pad_ratio := 0 |}
             (Str "C") x (Some 45) 7) (drawn doc)) /\
    (exists doc : document,
       wh' = savefig wh (Hla.file_name oh) doc /\
       let final := last (sectors (plotted doc)) d in
       let x := Some (inject_Z (Z.of_nat (size final)) + (65 # 100))%Q in
       In (text {| parent := final; r_lim := (94, 100); r_pad_ratio := 0 |}
             (Str "A") x (Some 96) 7) (drawn doc) /\
       In (text {| parent := final; r_lim := (91, 84); r_pad_ratio := 0 |}
             (Str "B") x (Some 86) 7) (drawn doc) /\
       In (text {| parent := final; r_lim := (66, 48); r_pad_ratio := 1 # 10 |}
             (Str "C") x (Some 72) 7) (drawn doc) /\
       In (text {| parent := final; r_lim := (66, 48); r_pad_ratio := 1 # 10 |}
             (Str "D") x (Some 58) 7) (drawn doc)).
Proof.
  intros wd wd' wh wh' pd ph od oh d Hcall_d Hcall_h. split.
  - destruct (plot_circos_stages wd wd' pd od Hcall_d)
      as (df & counted & circos & fig & _ & Hcounted & Hcompose & ->).
    eexists. split; [reflexivity|]. cbv zeta. simpl drawn. simpl plotted.
    destruct (drivers_figure_read df od counted circos fig d Hcounted Hcompose)
      as (_ & _ & _ & _ & HA & HB & HC).
    repeat split; assumption.
  - destruct (plot_circos_hla_stages wh wh' ph oh Hcall_h)
      as (df & counted & circos & fig & _ & Hcounted & Hcompose & ->).
    eexists. split; [reflexivity|]. cbv zeta. simpl drawn. simpl plotted.
    destruct (hla_figure_read df oh counted circos fig d Hcounted Hcompose)
      as (_ & _ & _ & _ & _ & HA & HB & HC & HD).
    repeat split; assumption.
Qed.

Lemma X6_ring_letters_follow_the_last_sector_witness :
  exists wd' wh' : world,
    CancerDrivers.plot_circos (on_disk df_abb) "in.tsv" CancerDrivers.defaults =
      (Ok tt, wd') /\
    Hla.plot_circos_hla (on_disk df_hla) "in.tsv" hla_named = (Ok tt, wh') /\
    (exists doc : document,
       wd' = savefig (on_disk df_abb) "plot.pdf" doc /\
       let final := last (sectors (plotted doc)) {| name := NaN; size := 0 |} in
       let x := Some (inject_Z (Z.of_nat (size final)) + (8 # 10))%Q in
       In (text {| parent := final; r_lim := (94, 100); r_pad_ratio := 0 |}
             (Str "A") x (Some 96) 7) (drawn doc) /\
       In (text {| parent := final; r_lim := (66, 48); r_pad_ratio := 1 # 10 |}
             (Str "B") x (Some 68) 7) (drawn doc) /\
       In (text {| parent := final; r_lim := (44, 46); r_pad_ratio := 0 |}
             (Str "C") x (Some 45) 7) (drawn doc)) /\
    (exists doc : document,
       wh' = savefig (on_disk df_hla) "plot.pdf" doc /\
       let final := last (sectors (plotted doc)) {| name := NaN; size := 0 |} in
       let x := Some (inject_Z (Z.of_nat (size final)) + (65 # 100))%Q in
       In (text {| parent := final; r_lim := (94, 100); r_pad_ratio := 0 |}
             (Str "A") x (Some 96) 7) (drawn doc) /\
       In (text {| parent := final; r_lim := (91, 84); r_pad_ratio := 0 |}
             (Str "B") x (Some 86) 7) (drawn doc) /\
       In (text {| parent := final; r_lim := (66, 48); r_pad_ratio := 1 # 10 |}
             (Str "C") x (Some 72) 7) (drawn doc) /\
       In (text {| parent := final; r_lim := (66, 48); r_pad_ratio := 1 # 10 |}
             (Str "D") x (Some 58) 7) (drawn doc)).
Proof.
  eexists. eexists.
  do 2 (split; [reflexivity|]).
  apply (X6_ring_letters_follow_the_last_sector
           (on_disk df_abb) _ (on_disk df_hla) _ "in.tsv" "in.tsv"
           CancerDrivers.defaults hla_named {| name := NaN; size := 0 |});
    reflexivity.
Defined.

(** ** Colours of the HLA rings *)




(** ** The colour scales a finished heatmap used *)




(** ** The rectangles of a sector *)

(** X1.  In the HLA renderer, for every sector of the layout the lengths
    read for the sector have exactly one entry per unit of the track, so the
    loop over [range(int(track1.size))] never indexes past the list: it draws,
    for each row i of the sector, the rectangle from i to i + 1 in the colour
    of the sector and the length of that row at i + 1/2. *)
Theorem X1_rectangles_cover_the_rows_of_the_sector :
  forall (df filtered : DataFrame) (o : Hla.options)
         (counted lengths length_list : Series)
         (sector : Sector) (col_3 : Z) (fig : figure),
    getitem df (Hla.track_1_data o) = Ok counted ->
    getitem df (Hla.track_2_data o) = Ok lengths ->
    In sector (sectors (new_Circos (value_counts counted) 7 4 360)) ->
    where_eq df (Hla.track_1_data o) (name sector) = Ok filtered ->
    getitem filtered (Hla.track_2_data o) = Ok length_list ->
    let track1 := {| parent := sector; r_lim := (91, 84); r_pad_ratio := 0 |} in
    List.length length_list = size sector /\
    length_list = cells_of (name sector) counted lengths /\
    Hla.rectangles track1 length_list col_3 (seq 0 (Z.to_nat (track_size track1))) fig =
      Ok (tt, fig ++ flat_map (row_marks track1 length_list col_3) (seq 0 (size sector))).
Proof.
  intros df filtered o counted lengths length_list sector col_3 fig
         Hcounted Hlengths Hin Hfiltered Hlist track1.
  pose proof (filtered_length df filtered _ _ counted length_list sector 7 4 360
                Hcounted Hin Hfiltered Hlist) as Hlen.
  split; [exact Hlen|]. split.
  - exact (getitem_where_eq df filtered (Hla.track_1_data o) (Hla.track_2_data o)
             (name sector) counted lengths length_list
             Hcounted Hlengths Hfiltered Hlist).
  - unfold track_size. simpl parent. rewrite Nat2Z.id.
    apply rectangles_effects. intros i Hi. apply in_seq in Hi. lia.
Qed.

Lemma X1_rectangles_cover_the_rows_of_the_sector_witness :
  getitem df_hla "hla" = Ok [txt "A1"; txt "B7"; txt "B7"] /\
  getitem df_hla "len" = Ok [num 9; num 10; num 9] /\
  In {| name := txt "B7"; size := 2 |}
     (sectors (new_Circos (value_counts [txt "A1"; txt "B7"; txt "B7"]) 7 4 360)) /\
  where_eq df_hla "hla" (txt "B7") =
    Ok df_hla_B7 /\
  getitem df_hla_B7 "len" = Ok [num 10; num 9] /\
  let track1 := {| parent := {| name := txt "B7"; size := 2 |};
                   r_lim := (91, 84); r_pad_ratio := 0 |} in
  List.length [num 10; num 9] = 2%nat /\
  [num 10; num 9] =
    cells_of (txt "B7") [txt "A1"; txt "B7"; txt "B7"] [num 9; num 10; num 9] /\
  Hla.rectangles track1 [num 10; num 9] 1 (seq 0 (Z.to_nat (track_size track1))) [] =
    Ok (tt, [] ++ flat_map (row_marks track1 [num 10; num 9] 1) (seq 0 2)).
Proof.
  split; [reflexivity|].
  split; [reflexivity|].
  split; [left; reflexivity|].
  split; [reflexivity|].
  split; [reflexivity|].
  apply (X1_rectangles_cover_the_rows_of_the_sector df_hla df_hla_B7 hla_named
           [txt "A1"; txt "B7"; txt "B7"] [num 9; num 10; num 9] [num 10; num 9]
           {| name := txt "B7"; size := 2 |} 1 []);
    [reflexivity|reflexivity|left; reflexivity|reflexivity|reflexivity].
Defined.

(** ** Labels of the y ticks, by the sign of the bound *)

Lemma drivers_arange_length (v : Q) :
  (10 <= v)%Q -> Qceiling ((v + 1 - 0) / (v / 2)) = 3.
Proof.
  intros Hv. apply Qceiling_unique; change (inject_Z 3) with 3%Q.
  - apply Qlt_shift_div_l; qdiv; lra.
  - apply Qle_shift_div_r; qdiv; lra.
Qed.

Lemma drivers_arange_short (v : Q) :
  (v <= -10)%Q -> Qceiling ((v + 1 - 0) / (v / 2)) = 2.
Proof.
  intros Hv.
  assert (Hflip : ((v + 1 - 0) / (v / 2) == (- v - 1) / (- v / 2))%Q).
  { field. intros Hz. lra. }
  apply Qceiling_unique; rewrite Hflip; change (inject_Z 2) with 2%Q.
  - apply Qlt_shift_div_l; qdiv; lra.
  - apply Qle_shift_div_r; qdiv; lra.
Qed.

Lemma hla_arange_short (v : Q) :
  (10 <= v)%Q -> Qceiling ((v - 1 - 0) / (v / 2)) = 2.
Proof.
  intros Hv. apply Qceiling_unique; change (inject_Z 2) with 2%Q.
  - apply Qlt_shift_div_l; qdiv; lra.
  - apply Qle_shift_div_r; qdiv; lra.
Qed.

Lemma half_of_tens (v : Q) (k : Z) :
  (v == inject_Z (10 * k))%Q -> (v / 2 == inject_Z (5 * k))%Q.
Proof.
  intros Hv. rewrite Hv, !inject_Z_mult. change (inject_Z 10) with 10%Q.
  change (inject_Z 5) with 5%Q. field.
Qed.

Lemma tens_le (v : Q) (k : Z) :
  (v == inject_Z (10 * k))%Q ->
  (0 < k -> (10 <= v)%Q) /\ (k < 0 -> (v <= -10)%Q).
Proof.
  intros Hv. split; intros Hk; rewrite Hv.
  - change 10%Q with (inject_Z 10). rewrite <- Zle_Qle. lia.
  - change (-10)%Q with (inject_Z (-10)). rewrite <- Zle_Qle. lia.
Qed.

(** X5.  When the bound has the other sign the labels fall short of the
    ticks.  In the driver renderer a rounded maximum that is a negative
    multiple of 10, and in the HLA renderer an axis floor that is a positive
    multiple of 10, give only the two labels of 0 and half the bound, for the
    three ticks at 0, half the bound and the bound. *)
Theorem X5_two_labels_for_three_ticks :
  forall (vd vh : Q) (kd kh : Z),
    kd < 0 ->
    (vd == inject_Z (10 * kd))%Q ->
    0 < kh ->
    (vh == inject_Z (10 * kh))%Q ->
    CancerDrivers.yticks_labels (fin vd) = Ok [py_str 0; py_str (5 * kd)] /\
    List.length (CancerDrivers.yticks_positions (fin vd)) = 3%nat /\
    Hla.yticks_labels (fin vh) = Ok [py_str 0; py_str (5 * kh)] /\
    List.length (Hla.yticks_positions (fin vh) (fin 0)) = 3%nat.
Proof.
  intros vd vh kd kh Hkd Hvd Hkh Hvh.
  destruct (tens_le vd kd Hvd) as [_ Hneg]. specialize (Hneg Hkd).
  destruct (tens_le vh kh Hvh) as [Hpos _]. specialize (Hpos Hkh).
  pose proof (half_of_tens vd kd Hvd) as Hhalf_d.
  pose proof (half_of_tens vh kh Hvh) as Hhalf_h.
  split; [|split; [reflexivity|split; [|reflexivity]]].
  - unfold CancerDrivers.yticks_labels, np_arange. simpl.
    rewrite Qeq_bool_false by (intros Hz; qdiv; lra).
    rewrite drivers_arange_short by exact Hneg. simpl.
    rewrite (py_int_inject _ 0) by (simpl; ring).
    rewrite (py_int_inject _ (5 * kd)) by (rewrite <- Hhalf_d; simpl; ring).
    reflexivity.
  - unfold Hla.yticks_labels, np_arange. simpl.
    rewrite Qeq_bool_false by (intros Hz; qdiv; lra).
    rewrite hla_arange_short by exact Hpos. simpl.
    rewrite (py_int_inject _ 0) by (simpl; ring).
    rewrite (py_int_inject _ (5 * kh)) by (rewrite <- Hhalf_h; simpl; ring).
    reflexivity.
Qed.

Lemma X5_two_labels_for_three_ticks_witness :
  -2 < 0 /\
  ((-20) == inject_Z (10 * -2))%Q /\
  0 < 2 /\
  (20 == inject_Z (10 * 2))%Q /\
  CancerDrivers.yticks_labels (fin (-20)) = Ok [py_str 0; py_str (5 * -2)] /\
  List.length (CancerDrivers.yticks_positions (fin (-20))) = 3%nat /\
  Hla.yticks_labels (fin 20) = Ok [py_str 0; py_str (5 * 2)] /\
  List.length (Hla.yticks_positions (fin 20) (fin 0)) = 3%nat.
Proof.
  split; [lia|]. split; [reflexivity|]. split; [lia|]. split; [reflexivity|].
  apply (X5_two_labels_for_three_ticks (-20) 20 (-2) 2);
    [lia|reflexivity|lia|reflexivity].
Defined.

(** ** The colours of ring A and ring B *)



(** ** The order of the bounds in binary64 *)

Lemma round_cases (x : Q) :
  (B64.round x = B64.Inf false /\ (B64.pow2 1024 <= B64.rnd x)%Q) \/
  (B64.round x = B64.Inf true /\ (B64.rnd x <= - B64.pow2 1024)%Q) \/
  (B64.round x = B64.Fin (B64.rnd x) /\
   (- B64.pow2 1024 < B64.rnd x)%Q /\ (B64.rnd x < B64.pow2 1024)%Q).
Proof.
  unfold B64.round. pose proof (pow2_pos 1024) as Hp.
  destruct (Qle_bool (B64.pow2 1024) (B64.rnd x)) eqn:E1.
  - left. split; [reflexivity|]. now apply Qle_bool_iff.
  - assert (H1 : (B64.rnd x < B64.pow2 1024)%Q).
    { apply Qnot_le_lt. intros H. apply Qle_bool_iff in H. congruence. }
    destruct (Qle_bool (B64.rnd x) (- B64.pow2 1024)) eqn:E2.
    + right. left. split; [reflexivity|]. now apply Qle_bool_iff.
    + right. right. split; [reflexivity|]. split; [|exact H1].
      apply Qnot_le_lt. intros H. apply Qle_bool_iff in H. congruence.
Qed.

Lemma round_mono (x y : Q) : (x <= y)%Q -> B64.le (B64.round x) (B64.round y).
Proof.
  intros Hxy. pose proof (rnd_mono x y Hxy) as Hr.
  pose proof (pow2_pos 1024) as Hp.
  destruct (round_cases x) as [[-> Hx]|[[-> Hx]|[-> [Hx1 Hx2]]]];
    destruct (round_cases y) as [[-> Hy]|[[-> Hy]|[-> [Hy1 Hy2]]]];
    simpl; try exact I; try lra.
Qed.

Lemma le_tenth (a b : B64.t) :
  B64.le a b -> B64.le (B64.div a (B64.Fin 10)) (B64.div b (B64.Fin 10)).
Proof.
  destruct a as [|[|]|x]; destruct b as [|[|]|y]; simpl; try tauto.
  - intros _. change (Qeq_bool 10 0) with false. cbv iota.
    destruct (round_cases (y / 10)) as [[-> _]|[[-> _]|[-> _]]]; exact I.
  - intros _. change (Qeq_bool 10 0) with false. cbv iota.
    destruct (round_cases (x / 10)) as [[-> _]|[[-> _]|[-> _]]]; exact I.
  - intros Hxy. change (Qeq_bool 10 0) with false. cbv iota.
    apply round_mono. qdiv. lra.
Qed.

Lemma le_ceil (a b : B64.t) : B64.le a b -> B64.le (B64.ceil a) (B64.ceil b).
Proof.
  destruct a as [|[|]|x]; destruct b as [|[|]|y]; simpl; try tauto.
  intros Hxy. rewrite <- Zle_Qle. now apply Qceiling_resp_le.
Qed.

Lemma le_floor (a b : B64.t) : B64.le a b -> B64.le (B64.floor a) (B64.floor b).
Proof.
  destruct a as [|[|]|x]; destruct b as [|[|]|y]; simpl; try tauto.
  intros Hxy. rewrite <- Zle_Qle. now apply Qfloor_resp_le.
Qed.

Lemma le_tens (a b : B64.t) :
  B64.le a b -> B64.le (B64.mul a (B64.Fin 10)) (B64.mul b (B64.Fin 10)).
Proof.
  destruct a as [|[|]|x]; destruct b as [|[|]|y]; simpl; try tauto.
  - intros _. destruct (round_cases (y * 10)) as [[-> _]|[[-> _]|[-> _]]]; exact I.
  - intros _. destruct (round_cases (x * 10)) as [[-> _]|[[-> _]|[-> _]]]; exact I.
  - intros Hxy. apply round_mono. lra.
Qed.

Lemma rounded_max_value_mono (m1 m2 : Q) :
  (m1 <= m2)%Q ->
  B64.le (CancerDriversB64.rounded_max_value (fin m1))
         (CancerDriversB64.rounded_max_value (fin m2)).
Proof.
  intros H. unfold CancerDriversB64.rounded_max_value, B64.of_number.
  apply le_tens, le_ceil, le_tenth, round_mono, H.
Qed.

Lemma rounded_min_value_mono (m1 m2 : Q) :
  (m1 <= m2)%Q ->
  B64.le (HlaB64.rounded_min_value (fin m1)) (HlaB64.rounded_min_value (fin m2)).
Proof.
  intros H. unfold HlaB64.rounded_min_value, B64.of_number.
  apply le_tens, le_floor, le_tenth, round_mono, H.
Qed.

Lemma tens_fixed (q : Q) (k : Z) (f : Q -> Z) (op : B64.t -> B64.t) :
  (forall x : Q, op (B64.Fin x) = B64.Fin (inject_Z (f x))) ->
  (forall z : Z, f (inject_Z z) = z) ->
  (forall x y : Q, (x == y)%Q -> f x = f y) ->
  (q == inject_Z (10 * k))%Q -> - 2 ^ 53 < 10 * k < 2 ^ 53 ->
  exists r : Q,
    B64.mul (op (B64.div (B64.round q) (B64.Fin 10))) (B64.Fin 10) = B64.Fin r /\
    (r == q)%Q.
Proof.
  intros Hop Hf Hcomp Hq Hk.
  destruct (round_exact q (10 * k) Hq Hk) as (q' & -> & Hq').
  unfold B64.div. change (Qeq_bool 10 0) with false. cbv iota.
  destruct (round_exact (q' / 10) k) as (t & -> & Ht).
  { rewrite Hq', inject_Z_mult. change (inject_Z 10) with 10%Q. field. }
  { lia. }
  rewrite Hop, (Hcomp t (inject_Z k) Ht), Hf.
  unfold B64.mul.
  destruct (round_exact (inject_Z k * 10) (10 * k)) as (r & -> & Hr).
  { rewrite inject_Z_mult. change (inject_Z 10) with 10%Q. ring. }
  { exact Hk. }
  exists r. split; [reflexivity|]. now rewrite Hr, Hq.
Qed.

(** X9.  In binary64 both roundings keep the order of their arguments, for
    every pair of numbers, and leave a multiple of 10 below [2^53] where it
    is: a larger maximum never gives a smaller axis ceiling, a larger minimum
    never gives a smaller axis floor, and such a bound is its own rounding. *)
Theorem X9_rounding_is_monotone_and_fixes_tens :
  forall (m1 m2 q : Q) (k : Z),
    (m1 <= m2)%Q ->
    (q == inject_Z (10 * k))%Q ->
    - 9007199254740992 < 10 * k < 9007199254740992 ->
    B64.le (CancerDriversB64.rounded_max_value (fin m1))
           (CancerDriversB64.rounded_max_value (fin m2)) /\
    B64.le (HlaB64.rounded_min_value (fin m1)) (HlaB64.rounded_min_value (fin m2)) /\
    (exists r : Q,
       CancerDriversB64.rounded_max_value (fin q) = B64.Fin r /\ (r == q)%Q) /\
    (exists r : Q, HlaB64.rounded_min_value (fin q) = B64.Fin r /\ (r == q)%Q).
Proof.
  intros m1 m2 q k Hle Hq Hk.
  split; [now apply rounded_max_value_mono|].
  split; [now apply rounded_min_value_mono|].
  split.
  - apply (tens_fixed q k Qceiling B64.ceil (fun _ => eq_refl) Qceiling_Z Qceiling_comp Hq Hk).
  - apply (tens_fixed q k Qfloor B64.floor (fun _ => eq_refl) Qfloor_Z Qfloor_comp Hq Hk).
Qed.

Lemma X9_rounding_is_monotone_and_fixes_tens_witness :
  (12 <= 30)%Q /\
  (30 == inject_Z (10 * 3))%Q /\
  - 9007199254740992 < 10 * 3 < 9007199254740992 /\
  B64.le (CancerDriversB64.rounded_max_value (fin 12))
         (CancerDriversB64.rounded_max_value (fin 30)) /\
  B64.le (HlaB64.rounded_min_value (fin 12)) (HlaB64.rounded_min_value (fin 30)) /\
  (exists r : Q,
     CancerDriversB64.rounded_max_value (fin 30) = B64.Fin r /\ (r == 30)%Q) /\
  (exists r : Q, HlaB64.rounded_min_value (fin 30) = B64.Fin r /\ (r == 30)%Q).
Proof.
  split; [vm_compute; discriminate|]. split; [reflexivity|]. split; [lia|].
  apply (X9_rounding_is_monotone_and_fixes_tens 12 30 30 3);
    [vm_compute; discriminate|reflexivity|lia].
Defined.

(** The same labels in the exact reading of lines 123-124. *)
Lemma drivers_labels_exact (v : Q) (k : Z) :
  0 < k ->
  (v == inject_Z (10 * k))%Q ->
  CancerDrivers.yticks_labels (fin v) =
    Ok [py_str 0; py_str (5 * k); py_str (10 * k)].
Proof.
  intros Hk Hv.
  destruct (tens_le v k Hv) as [Hpos _]. specialize (Hpos Hk).
  pose proof (half_of_tens v k Hv) as Hhalf.
  unfold CancerDrivers.yticks_labels, np_arange. simpl.
  rewrite Qeq_bool_false by (intros Hz; qdiv; lra).
  rewrite drivers_arange_length by exact Hpos. simpl.
  rewrite (py_int_inject _ 0) by (simpl; ring).
  rewrite (py_int_inject _ (5 * k)) by (rewrite <- Hhalf; simpl; ring).
  rewrite (py_int_inject _ (10 * k)) by (rewrite <- Hv; simpl; field).
  reflexivity.
Qed.

(** X4.  In the driver renderer, for a rounded maximum [v] that is a
    positive multiple of 10 up to [2^52], the y ticks are put at 0, v/2 and v
    and the labels made in binary64 by stepping from 0 toward v + 1 in steps
    of v/2 are the texts of 0, v/2 and v: three labels, each the text of its
    tick.  On this range the exact reading of the lines gives the same
    labels. *)
Theorem X4_driver_labels_follow_positions :
  forall (v : Q) (k : Z),
    0 < k ->
    10 * k <= 4503599627370496 ->
    (v == inject_Z (10 * k))%Q ->
    exists h : Q,
      CancerDriversB64.yticks_positions (B64.Fin v) =
        [B64.Fin 0; B64.Fin h; B64.Fin v] /\
      (h == inject_Z (5 * k))%Q /\
      CancerDriversB64.yticks_labels (B64.Fin v) =
        Ok [py_str 0; py_str (5 * k); py_str (10 * k)] /\
      map B64.tick_text (CancerDriversB64.yticks_positions (B64.Fin v)) =
        map Some [py_str 0; py_str (5 * k); py_str (10 * k)] /\
      CancerDrivers.yticks_labels (fin v) =
        CancerDriversB64.yticks_labels (B64.Fin v).
Proof.
  intros v k Hk Hsize Hv.
  destruct (half_exact v k Hv) as (h & Hhalf & Hh);
    [change (2 ^ 53) with 9007199254740992; lia|].
  exists h. unfold CancerDriversB64.yticks_positions. rewrite Hhalf.
  split; [reflexivity|]. split; [exact Hh|].
  split; [now apply drivers_labels_binary64|].
  split.
  - unfold B64.tick_text. simpl.
    rewrite (py_int_inject 0 0) by reflexivity.
    rewrite (py_int_inject h (5 * k)) by exact Hh.
    rewrite (py_int_inject v (10 * k)) by exact Hv.
    reflexivity.
  - rewrite (drivers_labels_exact v k Hk Hv). symmetry.
    now apply drivers_labels_binary64.
Qed.

Lemma X4_driver_labels_follow_positions_witness :
  0 < 3 /\
  10 * 3 <= 4503599627370496 /\
  (30 == inject_Z (10 * 3))%Q /\
  exists h : Q,
    CancerDriversB64.yticks_positions (B64.Fin 30) =
      [B64.Fin 0; B64.Fin h; B64.Fin 30] /\
    (h == inject_Z (5 * 3))%Q /\
    CancerDriversB64.yticks_labels (B64.Fin 30) =
      Ok [py_str 0; py_str (5 * 3); py_str (10 * 3)] /\
    map B64.tick_text (CancerDriversB64.yticks_positions (B64.Fin 30)) =
      map Some [py_str 0; py_str (5 * 3); py_str (10 * 3)] /\
    CancerDrivers.yticks_labels (fin 30) = CancerDriversB64.yticks_labels (B64.Fin 30).
Proof.
  split; [lia|]. split; [lia|]. split; [reflexivity|].
  apply (X4_driver_labels_follow_positions 30 3); [lia|lia|reflexivity].
Defined.

(** ** Columns that cannot give a bound, tables that give no sector *)

Lemma to_numeric_text (col : Series) (s : string) :
  In (Str s) col -> to_numeric col = Raise TypeError.
Proof.
  induction col as [|c col IH]; intros Hin; [contradiction|].
  destruct Hin as [->|Hin]; [reflexivity|].
  destruct c as [|s'|q]; simpl; [now apply IH|reflexivity|].
  now rewrite IH.
Qed.

Lemma value_counts_nothing (counted : Series) :
  Forall (fun c => c = NaN) counted -> value_counts counted = [].
Proof.
  intros Hall. unfold value_counts, value_count.
  assert (H : forall table, fold_left value_count_step counted table = table).
  { induction Hall as [|c l Hc _ IH]; intros table; [reflexivity|].
    simpl. subst c. apply IH. }
  now rewrite H.
Qed.

Lemma drivers_compose_bound_raises (df : DataFrame) (o : CancerDrivers.options)
    (counted : Series) (e : exn) :
  getitem df (CancerDrivers.track_1_data o) = Ok counted ->
  value_counts counted <> [] ->
  rbind (getitem df (CancerDrivers.track_2_data o)) np_max = Raise e ->
  CancerDrivers.compose df o [] = Raise e.
Proof.
  intros Hcounted Hsectors Hmax.
  unfold CancerDrivers.compose.
  run_lift (drivers_layout_counted df o counted Hcounted).
  destruct (cancer_type_track_run
              (sectors (new_Circos (value_counts counted) 7 0 360))
              (CancerDrivers.bar_pal_start o) None [])
    as (t1 & dsA & HA & _ & _ & _ & _ & Hsome).
  destruct t1 as [track1|];
    [|exfalso; apply Hsome; [now apply new_Circos_nonempty|reflexivity]].
  run_with HA. run_emit. run_emit.
  raise_lift Hmax. reflexivity.
Qed.

Lemma hla_compose_bound_raises (df : DataFrame) (o : Hla.options)
    (counted : Series) (e : exn) :
  getitem df (Hla.track_1_data o) = Ok counted ->
  value_counts counted <> [] ->
  has_column df (Hla.track_2_data o) ->
  rbind (getitem df (Hla.track_3_data o)) np_min = Raise e ->
  Hla.compose df o [] = Raise e.
Proof.
  intros Hcounted Hsectors Htrack_2 Hmin.
  destruct (hla_first_rings df o counted Hcounted Hsectors Htrack_2)
    as (track1 & track1b & figA & figB & HA & HB).
  unfold Hla.compose.
  run_lift (hla_layout_counted df o counted Hcounted).
  run_with HA. run_emit. run_emit. run_with HB. run_emit. run_emit.
  raise_lift Hmin. reflexivity.
Qed.

(** X10.  A bound column that holds text stops the call where the bound is
    computed: on a table that yields at least one sector (and, in the HLA
    renderer, has the length column), text in the frequency column of the
    driver renderer or in the binding column of the HLA renderer ends the
    call with [TypeError], and no file is written. *)
Theorem X10_text_in_the_bound_column :
  forall (wd wh : world) (pd ph : string) (dfd dfh : DataFrame)
         (od : CancerDrivers.options) (oh : Hla.options)
         (counted_d freq counted_h energy : Series) (sd sh : string),
    read_csv wd pd = Ok dfd ->
    getitem dfd (CancerDrivers.track_1_data od) = Ok counted_d ->
    value_counts counted_d <> [] ->
    getitem dfd (CancerDrivers.track_2_data od) = Ok freq ->
    In (Str sd) freq ->
    read_csv wh ph = Ok dfh ->
    getitem dfh (Hla.track_1_data oh) = Ok counted_h ->
    value_counts counted_h <> [] ->
    has_column dfh (Hla.track_2_data oh) ->
    getitem dfh (Hla.track_3_data oh) = Ok energy ->
    In (Str sh) energy ->
    CancerDrivers.plot_circos wd pd od = (Raise TypeError, wd) /\
    Hla.plot_circos_hla wh ph oh = (Raise TypeError, wh).
Proof.
  intros wd wh pd ph dfd dfh od oh counted_d freq counted_h energy sd sh
         Hread_d Hcounted_d Hsectors_d Hfreq Htext_d
         Hread_h Hcounted_h Hsectors_h Htrack_2 Henergy Htext_h.
  split.
  - apply plot_circos_raise with (df := dfd); [exact Hread_d|].
    apply drivers_compose_bound_raises with (counted := counted_d); try assumption.
    rewrite Hfreq. simpl. unfold np_max.
    now rewrite (to_numeric_text freq sd).
  - apply plot_circos_hla_raise with (df := dfh); [exact Hread_h|].
    apply hla_compose_bound_raises with (counted := counted_h); try assumption.
    rewrite Henergy. simpl. unfold np_min.
    now rewrite (to_numeric_text energy sh).
Qed.

Lemma X10_text_in_the_bound_column_witness :
  read_csv (on_disk df_text_frequency) "in.tsv" = Ok df_text_frequency /\
  getitem df_text_frequency "Cancer_type" = Ok [txt "a"] /\
  value_counts [txt "a"] <> [] /\
  getitem df_text_frequency "Tumors" = Ok [txt "many"] /\
  In (Str "many") [txt "many"] /\
  read_csv (on_disk df_text_energy) "in.tsv" = Ok df_text_energy /\
  getitem df_text_energy "hla" = Ok [txt "A1"] /\
  value_counts [txt "A1"] <> [] /\
  has_column df_text_energy "len" /\
  getitem df_text_energy "energy" = Ok [txt "low"] /\
  In (Str "low") [txt "low"] /\
  CancerDrivers.plot_circos (on_disk df_text_frequency) "in.tsv" CancerDrivers.defaults =
    (Raise TypeError, on_disk df_text_frequency) /\
  Hla.plot_circos_hla (on_disk df_text_energy) "in.tsv" hla_named =
    (Raise TypeError, on_disk df_text_energy).
Proof.
  split; [reflexivity|]. split; [reflexivity|]. split; [discriminate|].
  split; [reflexivity|]. split; [left; reflexivity|].
  split; [reflexivity|]. split; [reflexivity|]. split; [discriminate|].
  split; [discriminate|]. split; [reflexivity|]. split; [left; reflexivity|].
  apply (X10_text_in_the_bound_column
           (on_disk df_text_frequency) (on_disk df_text_energy) "in.tsv" "in.tsv"
           df_text_frequency df_text_energy CancerDrivers.defaults hla_named
           [txt "a"] [txt "many"] [txt "A1"] [txt "low"] "many" "low");
    try reflexivity; try discriminate; left; reflexivity.
Defined.

(** X11.  A table whose category column holds no value (no data line, or
    only missing categories) gives no sector; no loop body runs, and both
    renderers end at the first statement after the first loop, which reads
    the variable [track1] that only the loop assigns: [UnboundLocalError],
    and no file is written. *)
Theorem X11_no_category_no_figure :
  forall (w : world) (file_path : string) (df : DataFrame)
         (od : CancerDrivers.options) (oh : Hla.options) (counted : Series),
    read_csv w file_path = Ok df ->
    getitem df (CancerDrivers.track_1_data od) = Ok counted ->
    Hla.track_1_data oh = CancerDrivers.track_1_data od ->
    Forall (fun c => c = NaN) counted ->
    CancerDrivers.layout df od =
      Ok {| sectors := []; space := 7; start := 0; end_ := 360 |} /\
    CancerDrivers.plot_circos w file_path od =
      (Raise (UnboundLocalError "track1"), w) /\
    Hla.plot_circos_hla w file_path oh =
      (Raise (UnboundLocalError "track1"), w).
Proof.
  intros w file_path df od oh counted Hread Hcounted Hsame Hall.
  pose proof (value_counts_nothing counted Hall) as Hnil.
  split; [|split].
  - rewrite (drivers_layout_counted df od counted Hcounted), Hnil. reflexivity.
  - apply plot_circos_raise with (df := df); [exact Hread|].
    now apply drivers_compose_no_sector with (counted := counted).
  - apply plot_circos_hla_raise with (df := df); [exact Hread|].
    apply hla_compose_no_sector with (counted := counted); [|exact Hnil].
    now rewrite Hsame.
Qed.

Lemma X11_no_category_no_figure_witness :
  read_csv (on_disk df_no_category) "in.tsv" = Ok df_no_category /\
  getitem df_no_category "Cancer_type" = Ok [NaN] /\
  Hla.track_1_data (hla_options "Cancer_type" "Tumors" "Tumors" "query") =
    "Cancer_type" /\
  Forall (fun c => c = NaN) [NaN] /\
  CancerDrivers.layout df_no_category CancerDrivers.defaults =
    Ok {| sectors := []; space := 7; start := 0; end_ := 360 |} /\
  CancerDrivers.plot_circos (on_disk df_no_category) "in.tsv" CancerDrivers.defaults =
    (Raise (UnboundLocalError "track1"), on_disk df_no_category) /\
  Hla.plot_circos_hla (on_disk df_no_category) "in.tsv"
    (hla_options "Cancer_type" "Tumors" "Tumors" "query") =
    (Raise (UnboundLocalError "track1"), on_disk df_no_category).
Proof.
  split; [reflexivity|]. split; [reflexivity|]. split; [reflexivity|].
  split; [repeat constructor|].
  apply (X11_no_category_no_figure (on_disk df_no_category) "in.tsv" df_no_category
           CancerDrivers.defaults
           (hla_options "Cancer_type" "Tumors" "Tumors" "query") [NaN]);
    [reflexivity|reflexivity|reflexivity|repeat constructor].
Defined.

(** ** The value axis of the bar rings *)

Lemma to_numeric_In (s : Series) :
  forall (l : list Q) (q : Qc),
    to_numeric s = Ok l -> In (Num q) s -> In (this q) l.
Proof.
  induction s as [|c s IH]; intros l q Hnum Hin; [contradiction|].
  destruct c as [|t|q']; simpl in Hnum.
  - destruct Hin as [Hin|Hin]; [discriminate|]. now apply IH.
  - discriminate.
  - destruct (to_numeric s) as [l'|e] eqn:El; [|discriminate].
    injection Hnum as <-.
    destruct Hin as [Hin|Hin]; [injection Hin as ->; now left|].
    right. now apply IH.
Qed.

Lemma cells_of_In (v c : cell) (keys vals : Series) :
  In c (cells_of v keys vals) -> In c vals.
Proof.
  unfold cells_of. intros Hin.
  apply in_map_iff in Hin as ([k c'] & <- & Hin).
  apply filter_In in Hin as [Hin _].
  now apply in_combine_r in Hin.
Qed.

Lemma half_nonzero (q : Q) : Qeq_bool (q / 2) 0 = false -> ~ (q == 0)%Q.
Proof.
  intros E Hq.
  assert (H : Qeq_bool (q / 2) 0 = true).
  { apply Qeq_bool_iff. rewrite Hq. reflexivity. }
  congruence.
Qed.

Lemma drivers_labels_bound (v : float64) (ylabels : list string) :
  CancerDrivers.yticks_labels v = Ok ylabels ->
  exists q : Q, v = fin q /\ ~ (q == 0)%Q.
Proof.
  unfold CancerDrivers.yticks_labels, np_arange. destruct v as [|q]; simpl; [discriminate|].
  destruct (Qeq_bool (q / 2) 0) eqn:E.
  - destruct (Qeq_bool (q + 1 - 0) 0); discriminate.
  - intros _. exists q. split; [reflexivity|]. now apply half_nonzero.
Qed.

Lemma hla_labels_bound (v : float64) (ylabels : list string) :
  Hla.yticks_labels v = Ok ylabels ->
  exists q : Q, v = fin q /\ ~ (q == 0)%Q.
Proof.
  unfold Hla.yticks_labels, np_arange. destruct v as [|q]; simpl; [discriminate|].
  destruct (Qeq_bool (q / 2) 0) eqn:E.
  - destruct (Qeq_bool (q - 1 - 0) 0); discriminate.
  - intros _. exists q. split; [reflexivity|]. now apply half_nonzero.
Qed.

Section CancerDriversAxis.

Import CancerDrivers.

Variable df : DataFrame.
Variable o : options.
Variables counted freq : Series.
Hypothesis Hcounted : getitem df (track_1_data o) = Ok counted.
Hypothesis Hfreq : getitem df (track_2_data o) = Ok freq.

Variables lo hi : float64.
Variable fits : cell -> Prop.

Lemma cancer_type_track_axis (ss : list Sector) :
  forall (col_1 : Z) (track1 track1' : option Track) (fig fig' : figure),
    cancer_type_track ss col_1 track1 fig = Ok (track1', fig') ->
    exists ds : figure, fig' = fig ++ ds /\ Forall (on_axis lo hi fits) ds.
Proof.
  induction ss as [|sec ss' IH]; intros col_1 track1 track1' fig fig' Hrun.
  - simpl in Hrun. unfold ret in Hrun. injection Hrun as _ <-.
    exists []. now rewrite app_nil_r.
  - simpl in Hrun. do 3 peel_emit Hrun.
    apply IH in Hrun as (ds & -> & Hds).
    eexists (_ :: _ :: _ :: ds).
    split; [rewrite <- !app_assoc; reflexivity|].
    repeat (constructor; [exact I|]). exact Hds.
Qed.

Lemma driver_status_track_axis (ss : list Sector) :
  forall (col_pal : Z) (track3 track3' : option Track) (fig fig' : figure),
    driver_status_track df o ss col_pal track3 fig = Ok (track3', fig') ->
    exists ds : figure, fig' = fig ++ ds /\ Forall (on_axis lo hi fits) ds.
Proof.
  induction ss as [|sec ss' IH]; intros col_pal track3 track3' fig fig' Hrun.
  - simpl in Hrun. unfold ret in Hrun. injection Hrun as _ <-.
    exists []. now rewrite app_nil_r.
  - simpl in Hrun.
    peel_emit Hrun.
    peel_lift Hrun filtered Hfiltered.
    peel_lift Hrun data Hdata.
    peel_lift Hrun scale Hscale.
    peel_emit Hrun.
    apply IH in Hrun as (ds & -> & Hds).
    eexists (_ :: _ :: ds).
    split; [rewrite <- !app_assoc; reflexivity|].
    repeat (constructor; [exact I|]). exact Hds.
Qed.

Lemma tumor_frequency_track_axis (v : float64) (ss : list Sector) :
  (forall c, In c freq -> fits c) ->
  forall (col_2 : Z) (track2 track2' : option Track) (fig fig' : figure),
    tumor_frequency_track df o v ss col_2 track2 fig = Ok (track2', fig') ->
    (ss <> [] -> exists ylabels, yticks_labels v = Ok ylabels) /\
    exists ds : figure, fig' = fig ++ ds /\ Forall (on_axis (fin 0) v fits) ds.
Proof.
  intros Hfits.
  induction ss as [|sec ss' IH]; intros col_2 track2 track2' fig fig' Hrun.
  - simpl in Hrun. unfold ret in Hrun. injection Hrun as _ <-.
    split; [congruence|]. exists []. now rewrite app_nil_r.
  - simpl in Hrun.
    peel_emit Hrun.
    peel_lift Hrun filtered Hfiltered.
    peel_lift Hrun y Hy.
    peel_lift Hrun labels Hlabels.
    peel_emit Hrun.
    peel_lift Hrun ylabels Hylabels.
    do 4 peel_emit Hrun.
    pose proof (getitem_where_eq df filtered _ _ _ counted freq y
                  Hcounted Hfreq Hfiltered Hy) as Hrows.
    apply IH in Hrun as (_ & ds & -> & Hds).
    split; [intros _; now exists ylabels|].
    eexists (_ :: _ :: _ :: _ :: _ :: _ :: ds).
    split; [rewrite <- !app_assoc; reflexivity|].
    do 2 (constructor; [exact I|]).
    constructor; [split; reflexivity|].
    do 2 (constructor; [exact I|]).
    constructor; [|exact Hds].
    split; [reflexivity|]. split; [reflexivity|].
    apply Forall_forall. intros c Hc. apply Hfits.
    rewrite Hrows in Hc. now apply cells_of_In in Hc.
Qed.

End CancerDriversAxis.

Section HlaAxis.

Import Hla.

Variable df : DataFrame.
Variable o : options.
Variables counted energy : Series.
Hypothesis Hcounted : getitem df (track_1_data o) = Ok counted.
Hypothesis Henergy : getitem df (track_3_data o) = Ok energy.

Variables lo hi : float64.
Variable fits : cell -> Prop.

Lemma hla_cancer_type_track_axis (ss : list Sector) :
  forall (col_1 : Z) (track1 track1' : option Track) (fig fig' : figure),
    cancer_type_track ss col_1 track1 fig = Ok (track1', fig') ->
    exists ds : figure, fig' = fig ++ ds /\ Forall (on_axis lo hi fits) ds.
Proof.
  induction ss as [|sec ss' IH]; intros col_1 track1 track1' fig fig' Hrun.
  - simpl in Hrun. unfold ret in Hrun. injection Hrun as _ <-.
    exists []. now rewrite app_nil_r.
  - simpl in Hrun. do 3 peel_emit Hrun.
    apply IH in Hrun as (ds & -> & Hds).
    eexists (_ :: _ :: _ :: ds).
    split; [rewrite <- !app_assoc; reflexivity|].
    repeat (constructor; [exact I|]). exact Hds.
Qed.

Lemma rectangles_axis (track1 : Track) (length_list : Series) (col_3 : Z)
    (range : list nat) :
  forall (fig fig' : figure) (u : unit),
    rectangles track1 length_list col_3 range fig = Ok (u, fig') ->
    exists ds : figure, fig' = fig ++ ds /\ Forall (on_axis lo hi fits) ds.
Proof.
  induction range as [|i range' IH]; intros fig fig' u Hrun.
  - simpl in Hrun. unfold ret in Hrun. injection Hrun as _ <-.
    exists []. now rewrite app_nil_r.
  - simpl in Hrun.
    peel_emit Hrun.
    peel_lift Hrun t Ht.
    peel_emit Hrun.
    apply IH in Hrun as (ds & -> & Hds).
    eexists (_ :: _ :: ds).
    split; [rewrite <- !app_assoc; reflexivity|].
    repeat (constructor; [exact I|]). exact Hds.
Qed.

Lemma peptide_length_track_axis (ss : list Sector) :
  forall (col_3 : Z) (track1 track1' : option Track) (fig fig' : figure),
    peptide_length_track df o ss col_3 track1 fig = Ok (track1', fig') ->
    exists ds : figure, fig' = fig ++ ds /\ Forall (on_axis lo hi fits) ds.
Proof.
  induction ss as [|sec ss' IH]; intros col_3 track1 track1' fig fig' Hrun.
  - simpl in Hrun. unfold ret in Hrun. injection Hrun as _ <-.
    exists []. now rewrite app_nil_r.
  - simpl in Hrun.
    peel_emit Hrun.
    peel_lift Hrun filtered Hfiltered.
    peel_lift Hrun length_list Hlengths.
    peel Hrun u0 fig0 Hrects.
    apply rectangles_axis in Hrects as (rects & -> & Hrects).
    apply IH in Hrun as (ds & -> & Hds).
    eexists (_ :: rects ++ ds).
    split; [simpl; rewrite <- !app_assoc; reflexivity|].
    constructor; [exact I|]. apply Forall_app. now split.
Qed.

Lemma affinity_track_axis (vmin vmax : float64) (ss : list Sector) :
  (forall c, In c energy -> fits c) ->
  forall (col_2 : Z) (track track' : option Track) (fig fig' : figure),
    affinity_track df o vmin vmax ss col_2 track fig = Ok (track', fig') ->
    (ss <> [] -> exists ylabels, yticks_labels vmin = Ok ylabels) /\
    exists ds : figure, fig' = fig ++ ds /\ Forall (on_axis vmin vmax fits) ds.
Proof.
  intros Hfits.
  induction ss as [|sec ss' IH]; intros col_2 track track' fig fig' Hrun.
  - simpl in Hrun. unfold ret in Hrun. injection Hrun as _ <-.
    split; [congruence|]. exists []. now rewrite app_nil_r.
  - simpl in Hrun.
    peel_emit Hrun.
    peel_lift Hrun filtered Hfiltered.
    peel_lift Hrun y Hy.
    peel_lift Hrun labels Hlabels.
    peel_emit Hrun.
    peel_lift Hrun ylabels Hylabels.
    do 4 peel_emit Hrun.
    pose proof (getitem_where_eq df filtered _ _ _ counted energy y
                  Hcounted Henergy Hfiltered Hy) as Hrows.
    apply IH in Hrun as (_ & ds & -> & Hds).
    split; [intros _; now exists ylabels|].
    eexists (_ :: _ :: _ :: _ :: _ :: _ :: ds).
    split; [rewrite <- !app_assoc; reflexivity|].
    do 2 (constructor; [exact I|]).
    constructor; [split; reflexivity|].
    do 2 (constructor; [exact I|]).
    constructor; [|exact Hds].
    split; [reflexivity|]. split; [reflexivity|].
    apply Forall_forall. intros c Hc. apply Hfits.
    rewrite Hrows in Hc. now apply cells_of_In in Hc.
Qed.

End HlaAxis.

(** The bound of a finished call of the driver renderer. *)
Lemma drivers_axis (df : DataFrame) (o : CancerDrivers.options)
    (counted freq : Series) (circos : Circos) (fig : figure) :
  getitem df (CancerDrivers.track_1_data o) = Ok counted ->
  getitem df (CancerDrivers.track_2_data o) = Ok freq ->
  CancerDrivers.compose df o [] = Ok (circos, fig) ->
  exists m v : Q,
    np_max freq = Ok (fin m) /\
    CancerDrivers.rounded_max_value (fin m) = fin v /\
    ~ (v == 0)%Q /\
    Forall (on_axis (fin 0) (fin v) (at_most v)) fig.
Proof.
  intros Hcounted Hfreq H. unfold CancerDrivers.compose in H.
  peel_lift H circos0 Hlayout.
  peel H track1 fig1 HA.
  peel H tr1 fig1' Hlocal. apply local_Ok_inv in Hlocal as [-> ->].
  assert (Hss : sectors circos0 <> []).
  { intros Hnil. rewrite Hnil in HA. simpl in HA. unfold ret in HA. discriminate. }
  peel_emit H.
  peel_lift H max_value Hmax.
  rewrite Hfreq in Hmax. simpl in Hmax.
  peel H track2 fig2 HB.
  peel H tr2 fig2' Hlocal. apply local_Ok_inv in Hlocal as [-> ->].
  peel_emit H.
  peel H track3 fig3 HC.
  peel H tr3 fig3' Hlocal. apply local_Ok_inv in Hlocal as [-> ->].
  do 5 peel_emit H.
  unfold ret in H. injection H as _ <-.
  (* the labels of the first sector fix the bound *)
  assert (Hbound : exists q : Q,
            CancerDrivers.rounded_max_value max_value = fin q /\ ~ (q == 0)%Q).
  { destruct (tumor_frequency_track_axis df o counted freq Hcounted Hfreq
                (fun _ => True) (CancerDrivers.rounded_max_value max_value)
                (sectors circos0) (fun _ _ => I) _ _ _ _ _ HB) as (Hlab & _).
    destruct (Hlab Hss) as (ylabels & Hylabels).
    now apply drivers_labels_bound in Hylabels. }
  destruct Hbound as (v & Hv & Hv0).
  destruct max_value as [|m]; [discriminate|].
  exists m, v. split; [exact Hmax|]. split; [exact Hv|]. split; [exact Hv0|].
  assert (Hfits : forall c, In c freq -> at_most v c).
  { intros [|t|q] Hc; simpl; try exact I.
    unfold np_max in Hmax. apply rbind_Ok_inv in Hmax as (l & Hl & Hm).
    injection Hm as Hm.
    pose proof (to_numeric_In freq l q Hl Hc) as Hin.
    destruct (maximum_spec l) as (m' & Hm' & _ & Hub);
      [intros ->; contradiction|].
    rewrite Hm in Hm'. injection Hm' as <-.
    destruct (rounded_max_value_fin m) as (k & Hk & Hle & _).
    rewrite Hv in Hk. injection Hk as ->.
    eapply Qle_trans; [apply Hub, Hin|exact Hle]. }
  apply cancer_type_track_axis with (lo := fin 0) (hi := fin v) (fits := at_most v)
    in HA as (dsA & -> & HdsA).
  rewrite Hv in HB.
  apply (tumor_frequency_track_axis df o counted freq Hcounted Hfreq (at_most v))
    in HB as (_ & dsB & -> & HdsB); [|exact Hfits].
  apply driver_status_track_axis with (lo := fin 0) (hi := fin v) (fits := at_most v)
    in HC as (dsC & -> & HdsC).
  repeat (apply Forall_app; split); try assumption;
    repeat (constructor; try exact I).
Qed.

(** The bound of a finished call of the HLA renderer. *)
Lemma hla_axis (df : DataFrame) (o : Hla.options)
    (counted energy : Series) (circos : Circos) (fig : figure) :
  getitem df (Hla.track_1_data o) = Ok counted ->
  getitem df (Hla.track_3_data o) = Ok energy ->
  Hla.compose df o [] = Ok (circos, fig) ->
  exists m v : Q,
    np_min energy = Ok (fin m) /\
    Hla.rounded_min_value (fin m) = fin v /\
    ~ (v == 0)%Q /\
    Forall (on_axis (fin v) (fin 0) (at_least v)) fig.
Proof.
  intros Hcounted Henergy H. unfold Hla.compose in H.
  peel_lift H circos0 Hlayout.
  peel H track1 fig1 HA.
  peel H tr1 fig1' Hlocal. apply local_Ok_inv in Hlocal as [-> ->].
  assert (Hss : sectors circos0 <> []).
  { intros Hnil. rewrite Hnil in HA. simpl in HA. unfold ret in HA. discriminate. }
  peel_emit H.
  peel H track1b fig2 HB.
  peel H tr2 fig2' Hlocal. apply local_Ok_inv in Hlocal as [-> ->].
  peel_emit H.
  peel_lift H min_value Hmin.
  rewrite Henergy in Hmin. simpl in Hmin.
  peel H track3 fig3 HC.
  peel H tr3 fig3' Hlocal. apply local_Ok_inv in Hlocal as [-> ->].
  do 6 peel_emit H.
  unfold ret in H. injection H as _ <-.
  assert (Hbound : exists q : Q,
            Hla.rounded_min_value min_value = fin q /\ ~ (q == 0)%Q).
  { destruct (affinity_track_axis df o counted energy Hcounted Henergy
                (fun _ => True) (Hla.rounded_min_value min_value) (fin 0)
                (sectors circos0) (fun _ _ => I) _ _ _ _ _ HC) as (Hlab & _).
    destruct (Hlab Hss) as (ylabels & Hylabels).
    now apply hla_labels_bound in Hylabels. }
  destruct Hbound as (v & Hv & Hv0).
  destruct min_value as [|m]; [discriminate|].
  exists m, v. split; [exact Hmin|]. split; [exact Hv|]. split; [exact Hv0|].
  assert (Hfits : forall c, In c energy -> at_least v c).
  { intros [|t|q] Hc; simpl; try exact I.
    unfold np_min in Hmin. apply rbind_Ok_inv in Hmin as (l & Hl & Hm).
    injection Hm as Hm.
    pose proof (to_numeric_In energy l q Hl Hc) as Hin.
    destruct (minimum_spec l) as (m' & Hm' & _ & Hlb);
      [intros ->; contradiction|].
    rewrite Hm in Hm'. injection Hm' as <-.
    destruct (rounded_min_value_fin m) as (k & Hk & Hle & _).
    rewrite Hv in Hk. injection Hk as ->.
    eapply Qle_trans; [exact Hle|apply Hlb, Hin]. }
  apply hla_cancer_type_track_axis with (lo := fin v) (hi := fin 0)
    (fits := at_least v) in HA as (dsA & -> & HdsA).
  apply peptide_length_track_axis with (lo := fin v) (hi := fin 0)
    (fits := at_least v) in HB as (dsB & -> & HdsB).
  rewrite Hv in HC.
  apply (affinity_track_axis df o counted energy Hcounted Henergy (at_least v))
    in HC as (_ & dsC & -> & HdsC); [|exact Hfits].
  repeat (apply Forall_app; split); try assumption;
    repeat (constructor; try exact I).
Qed.

(** X14.  In a call of either renderer that returns, on a bound column
    whose extreme value is a binary64 number in the range where the binary64
    rounding is exact (magnitude at most [2^52], and not within [2^-1000] of
    0 on the side that is rounded away from), the bar ring has one value axis
    for all sectors and every plotted number is on the right side of its
    rounded end.  Driver renderer: the axis runs from 0 to the rounded
    maximum of the frequency column, which binary64 computes to the same
    number; it is not 0, and no frequency drawn as a bar exceeds it.  HLA
    renderer: the axis runs from the rounded minimum of the binding column to
    0, with the same agreement; it is not 0, and no binding value drawn as a
    bar is below it. *)
Theorem X14_bars_stay_on_the_axis :
  forall (wd wd' wh wh' : world) (pd ph : string)
         (od : CancerDrivers.options) (oh : Hla.options)
         (dfd dfh : DataFrame) (freq energy : Series) (md mh : Q),
    read_csv wd pd = Ok dfd ->
    getitem dfd (CancerDrivers.track_2_data od) = Ok freq ->
    np_max freq = Ok (fin md) ->
    B64.binary64 md = true ->
    (Qabs md <= B64.pow2 52)%Q ->
    (md <= 0 \/ B64.pow2 (-1000) <= md)%Q ->
    CancerDrivers.plot_circos wd pd od = (Ok tt, wd') ->
    read_csv wh ph = Ok dfh ->
    getitem dfh (Hla.track_3_data oh) = Ok energy ->
    np_min energy = Ok (fin mh) ->
    B64.binary64 mh = true ->
    (Qabs mh <= B64.pow2 52)%Q ->
    (0 <= mh \/ mh <= - B64.pow2 (-1000))%Q ->
    Hla.plot_circos_hla wh ph oh = (Ok tt, wh') ->
    (exists (doc : document) (v r : Q),
       wd' = savefig wd (CancerDrivers.file_name od) doc /\
       CancerDrivers.rounded_max_value (fin md) = fin v /\
       CancerDriversB64.rounded_max_value (fin md) = B64.Fin r /\
       (r == v)%Q /\
       ~ (v == 0)%Q /\
       Forall (on_axis (fin 0) (fin v) (at_most v)) (drawn doc)) /\
    (exists (doc : document) (v r : Q),
       wh' = savefig wh (Hla.file_name oh) doc /\
       Hla.rounded_min_value (fin mh) = fin v /\
       HlaB64.rounded_min_value (fin mh) = B64.Fin r /\
       (r == v)%Q /\
       ~ (v == 0)%Q /\
       Forall (on_axis (fin v) (fin 0) (at_least v)) (drawn doc)).
Proof.
  intros wd wd' wh wh' pd ph od oh dfd dfh freq energy md mh
         Hread_d Hfreq Hmax Hb_d Hsize_d Hdom_d Hcall_d
         Hread_h Henergy Hmin Hb_h Hsize_h Hdom_h Hcall_h.
  split.
  - destruct (plot_circos_stages wd wd' pd od Hcall_d)
      as (df & counted & circos & fig & Hread & Hcounted & Hcompose & ->).
    assert (df = dfd) by congruence. subst df.
    destruct (drivers_axis dfd od counted freq circos fig
                Hcounted Hfreq Hcompose) as (m & v & Hm & Hv & Hv0 & Hfig).
    rewrite Hmax in Hm. injection Hm as <-.
    destruct (rounded_max_value_binary64 md (binary64_rnd md Hb_d) Hsize_d Hdom_d)
      as (r & Hr & Hrk).
    assert (Hexact : CancerDrivers.rounded_max_value (fin md) =
                     fin (inject_Z (Qceiling (md / 10)) * 10)) by reflexivity.
    rewrite Hexact in Hv. injection Hv as <-.
    eexists _, _, r. split; [reflexivity|]. simpl.
    split; [reflexivity|]. split; [exact Hr|]. split; [exact Hrk|]. auto.
  - destruct (plot_circos_hla_stages wh wh' ph oh Hcall_h)
      as (df & counted & circos & fig & Hread & Hcounted & Hcompose & ->).
    assert (df = dfh) by congruence. subst df.
    destruct (hla_axis dfh oh counted energy circos fig
                Hcounted Henergy Hcompose) as (m & v & Hm & Hv & Hv0 & Hfig).
    rewrite Hmin in Hm. injection Hm as <-.
    destruct (rounded_min_value_binary64 mh (binary64_rnd mh Hb_h) Hsize_h Hdom_h)
      as (r & Hr & Hrk).
    assert (Hexact : Hla.rounded_min_value (fin mh) =
                     fin (inject_Z (Qfloor (mh / 10)) * 10)) by reflexivity.
    rewrite Hexact in Hv. injection Hv as <-.
    eexists _, _, r. split; [reflexivity|]. simpl.
    split; [reflexivity|]. split; [exact Hr|]. split; [exact Hrk|]. auto.
Qed.

Lemma X14_bars_stay_on_the_axis_witness :
  exists wd' wh' : world,
    read_csv (on_disk df_abb) "in.tsv" = Ok df_abb /\
    getitem df_abb "Tumors" = Ok [num 5; num 12; num 30] /\
    np_max [num 5; num 12; num 30] = Ok (fin 30) /\
    B64.binary64 30 = true /\
    (Qabs 30 <= B64.pow2 52)%Q /\
    (30 <= 0 \/ B64.pow2 (-1000) <= 30)%Q /\
    CancerDrivers.plot_circos (on_disk df_abb) "in.tsv" CancerDrivers.defaults =
      (Ok tt, wd') /\
    read_csv (on_disk df_hla) "in.tsv" = Ok df_hla /\
    getitem df_hla "energy" = Ok [num (-25); num (-12); num (-3)] /\
    np_min [num (-25); num (-12); num (-3)] = Ok (fin (-25)) /\
    B64.binary64 (-25) = true /\
    (Qabs (-25) <= B64.pow2 52)%Q /\
    (0 <= -25 \/ -25 <= - B64.pow2 (-1000))%Q /\
    Hla.plot_circos_hla (on_disk df_hla) "in.tsv" hla_named = (Ok tt, wh') /\
    (exists (doc : document) (v r : Q),
       wd' = savefig (on_disk df_abb) "plot.pdf" doc /\
       CancerDrivers.rounded_max_value (fin 30) = fin v /\
       CancerDriversB64.rounded_max_value (fin 30) = B64.Fin r /\
       (r == v)%Q /\
       ~ (v == 0)%Q /\
       Forall (on_axis (fin 0) (fin v) (at_most v)) (drawn doc)) /\
    (exists (doc : document) (v r : Q),
       wh' = savefig (on_disk df_hla) "plot.pdf" doc /\
       Hla.rounded_min_value (fin (-25)) = fin v /\
       HlaB64.rounded_min_value (fin (-25)) = B64.Fin r /\
       (r == v)%Q /\
       ~ (v == 0)%Q /\
       Forall (on_axis (fin v) (fin 0) (at_least v)) (drawn doc)).
Proof.
  eexists. eexists.
  split; [reflexivity|]. split; [reflexivity|]. split; [reflexivity|].
  split; [vm_compute; reflexivity|]. split; [vm_compute; discriminate|].
  split; [right; vm_compute; discriminate|]. split; [reflexivity|].
  split; [reflexivity|]. split; [reflexivity|]. split; [reflexivity|].
  split; [vm_compute; reflexivity|]. split; [vm_compute; discriminate|].
  split; [right; vm_compute; discriminate|]. split; [reflexivity|].
  apply (X14_bars_stay_on_the_axis
           (on_disk df_abb) _ (on_disk df_hla) _ "in.tsv" "in.tsv"
           CancerDrivers.defaults hla_named df_abb df_hla
           [num 5; num 12; num 30] [num (-25); num (-12); num (-3)] 30 (-25));
    try reflexivity;
    try (vm_compute; reflexivity);
    try (vm_compute; discriminate);
    right; vm_compute; discriminate.
Defined.

(** ** Legends and title *)

Lemma bind_ext {A B} (m m' : M A) (k k' : A -> M B) (fig : figure) :
  (forall f, m f = m' f) ->
  (forall a f, k a f = k' a f) ->
  bind m k fig = bind m' k' fig.
Proof.
  intros Hm Hk. unfold bind. rewrite Hm.
  destruct (m' fig) as [[a f]|e]; [apply Hk|reflexivity].
Qed.

Section HlaTitle.

Import Hla.

Variable df : DataFrame.
Variable o : options.
Variable title : string.

Lemma peptide_length_track_title (ss : list Sector) :
  forall (col_3 : Z) (track1 : option Track) (fig : figure),
    peptide_length_track df (hla_retitled o title) ss col_3 track1 fig =
    peptide_length_track df o ss col_3 track1 fig.
Proof.
  induction ss as [|sec ss' IH]; intros col_3 track1 fig; [reflexivity|].
  simpl.
  repeat (apply bind_ext; [reflexivity|intros]).
  apply IH.
Qed.

Lemma affinity_track_title (vmin vmax : float64) (ss : list Sector) :
  forall (col_2 : Z) (track : option Track) (fig : figure),
    affinity_track df (hla_retitled o title) vmin vmax ss col_2 track fig =
    affinity_track df o vmin vmax ss col_2 track fig.
Proof.
  induction ss as [|sec ss' IH]; intros col_2 track fig; [reflexivity|].
  simpl.
  repeat (apply bind_ext; [reflexivity|intros]).
  apply IH.
Qed.

Lemma hla_compose_title (fig : figure) :
  compose df (hla_retitled o title) fig = compose df o fig.
Proof.
  unfold compose.
  do 4 (apply bind_ext; [reflexivity|intros]).
  apply bind_ext; [intros; apply peptide_length_track_title|intros].
  do 3 (apply bind_ext; [reflexivity|intros]).
  apply bind_ext; [intros; apply affinity_track_title|intros].
  reflexivity.
Qed.

End HlaTitle.

(** X13.  In a call of either renderer that returns, the last things drawn
    are the four texts outside the circle.  The driver renderer writes its
    two fixed legends, the caller's [track_2_label] between them and the
    caller's [plot_title] on top (r = 110, 0 degrees, size 14).  The HLA
    renderer writes four fixed legends and never reads [plot_title]: a call
    with any other title does exactly the same. *)
Theorem X13_legends_close_the_figure :
  forall (wd wd' wh wh' : world) (pd ph : string)
         (od : CancerDrivers.options) (oh : Hla.options) (title : string),
    CancerDrivers.plot_circos wd pd od = (Ok tt, wd') ->
    Hla.plot_circos_hla wh ph oh = (Ok tt, wh') ->
    (exists (doc : document) (rings : figure),
       wd' = savefig wd (CancerDrivers.file_name od) doc /\
       drawn doc = rings ++
         [ circos_text "A: Cancer type" 106 180 8;
           circos_text (CancerDrivers.track_2_label od) 108 180 8;
           circos_text "C: Driver gene status" 110 180 8;
           circos_text (CancerDrivers.plot_title od) 110 0 14 ]) /\
    (exists (doc : document) (rings : figure),
       wh' = savefig wh (Hla.file_name oh) doc /\
       drawn doc = rings ++
         [ circos_text "A: HLA" 105 180 8;
           circos_text "B: Length" 109 180 8;
           circos_text "C: Peptide" 113 180 8;
           circos_text "D: HLA arena binding energy" 117 180 8 ]) /\
    Hla.plot_circos_hla wh ph (hla_retitled oh title) = (Ok tt, wh').
Proof.
  intros wd wd' wh wh' pd ph od oh title Hcall_d Hcall_h.
  split; [|split].
  - destruct (plot_circos_stages wd wd' pd od Hcall_d)
      as (df & counted & circos & fig & _ & Hcounted & Hcompose & ->).
    destruct (drivers_compose_stages df od counted Hcounted circos fig Hcompose)
      as (max_value & track1 & track2 & track3 & figA & figB & figC &
          _ & _ & _ & _ & _ & ->).
    eexists _, (figC ++ [_]). split; [reflexivity|].
    simpl. rewrite <- app_assoc. reflexivity.
  - destruct (plot_circos_hla_stages wh wh' ph oh Hcall_h)
      as (df & counted & circos & fig & _ & Hcounted & Hcompose & ->).
    destruct (hla_compose_stages df oh counted Hcounted circos fig Hcompose)
      as (min_value & track1 & track1b & track & figA & figB & figC &
          _ & _ & _ & _ & _ & ->).
    eexists _, (figC ++ [_; _]). split; [reflexivity|].
    simpl. rewrite <- app_assoc. reflexivity.
  - rewrite <- Hcall_h. unfold Hla.plot_circos_hla.
    destruct (read_csv wh ph) as [df|e]; [|reflexivity].
    simpl. rewrite hla_compose_title. reflexivity.
Qed.

Lemma X13_legends_close_the_figure_witness :
  exists wd' wh' : world,
    CancerDrivers.plot_circos (on_disk df_abb) "in.tsv" CancerDrivers.defaults =
      (Ok tt, wd') /\
    Hla.plot_circos_hla (on_disk df_hla) "in.tsv" hla_named = (Ok tt, wh') /\
    (exists (doc : document) (rings : figure),
       wd' = savefig (on_disk df_abb) "plot.pdf" doc /\
       drawn doc = rings ++
         [ circos_text "A: Cancer type" 106 180 8;
           circos_text EmptyString 108 180 8;
           circos_text "C: Driver gene status" 110 180 8;
           circos_text EmptyString 110 0 14 ]) /\
    (exists (doc : document) (rings : figure),
       wh' = savefig (on_disk df_hla) "plot.pdf" doc /\
       drawn doc = rings ++
         [ circos_text "A: HLA" 105 180 8;
           circos_text "B: Length" 109 180 8;
           circos_text "C: Peptide" 113 180 8;
           circos_text "D: HLA arena binding energy" 117 180 8 ]) /\
    Hla.plot_circos_hla (on_disk df_hla) "in.tsv" (hla_retitled hla_named "Peptides") =
      (Ok tt, wh').
Proof.
  eexists. eexists.
  do 2 (split; [reflexivity|]).
  apply (X13_legends_close_the_figure
           (on_disk df_abb) _ (on_disk df_hla) _ "in.tsv" "in.tsv"
           CancerDrivers.defaults hla_named "Peptides");
    reflexivity.
Defined.

(** ** Labels, bars and heatmap cells of a sector come from the same rows *)

Lemma combine_cells_of (v : cell) (keys a b : Series) :
  List.length a = List.length keys ->
  List.length b = List.length keys ->
  combine (cells_of v keys a) (cells_of v keys b) =
  map snd (filter (fun p => cell_eqb (fst p) v) (combine keys (combine a b))).
Proof.
  revert a b. unfold cells_of.
  induction keys as [|k keys IH]; intros a b Ha Hb.
  - destruct a; [|discriminate]. reflexivity.
  - destruct a as [|x a]; [discriminate|]. destruct b as [|y b]; [discriminate|].
    simpl in Ha, Hb. injection Ha as Ha. injection Hb as Hb.
    simpl. destruct (cell_eqb k v); simpl; now rewrite IH.
Qed.

Section CancerDriversRows.

Import CancerDrivers.

Variable df : DataFrame.
Variable o : options.
Variables counted query freq driver : Series.
Hypothesis Hcounted : getitem df (track_1_data o) = Ok counted.
Hypothesis Hquery : getitem df "query" = Ok query.
Hypothesis Hfreq : getitem df (track_2_data o) = Ok freq.
Hypothesis Hdriver : getitem df "driver" = Ok driver.

Lemma cancer_type_track_rows (ss : list Sector) :
  forall (col_1 : Z) (track1 track1' : option Track) (fig fig' : figure),
    cancer_type_track ss col_1 track1 fig = Ok (track1', fig') ->
    exists ds : figure,
      fig' = fig ++ ds /\ Forall (drivers_rows counted query freq driver) ds.
Proof.
  induction ss as [|sec ss' IH]; intros col_1 track1 track1' fig fig' Hrun.
  - simpl in Hrun. unfold ret in Hrun. injection Hrun as _ <-.
    exists []. now rewrite app_nil_r.
  - simpl in Hrun. do 3 peel_emit Hrun.
    apply IH in Hrun as (ds & -> & Hds).
    eexists (_ :: _ :: _ :: ds).
    split; [rewrite <- !app_assoc; reflexivity|].
    repeat (constructor; [split; exact I|]). exact Hds.
Qed.

Lemma tumor_frequency_track_rows (v : float64) (ss : list Sector) :
  forall (col_2 : Z) (track2 track2' : option Track) (fig fig' : figure),
    tumor_frequency_track df o v ss col_2 track2 fig = Ok (track2', fig') ->
    exists ds : figure,
      fig' = fig ++ ds /\ Forall (drivers_rows counted query freq driver) ds.
Proof.
  induction ss as [|sec ss' IH]; intros col_2 track2 track2' fig fig' Hrun.
  - simpl in Hrun. unfold ret in Hrun. injection Hrun as _ <-.
    exists []. now rewrite app_nil_r.
  - simpl in Hrun.
    peel_emit Hrun.
    peel_lift Hrun filtered Hfiltered.
    peel_lift Hrun y Hy.
    peel_lift Hrun labels Hlabels.
    peel_emit Hrun.
    peel_lift Hrun ylabels Hylabels.
    do 4 peel_emit Hrun.
    pose proof (getitem_where_eq df filtered _ _ _ counted freq y
                  Hcounted Hfreq Hfiltered Hy) as Hrows.
    pose proof (getitem_where_eq df filtered _ _ _ counted query labels
                  Hcounted Hquery Hfiltered Hlabels) as Hnames.
    apply IH in Hrun as (ds & -> & Hds).
    eexists (_ :: _ :: _ :: _ :: _ :: _ :: ds).
    split; [rewrite <- !app_assoc; reflexivity|].
    constructor; [split; exact I|].
    constructor; [split; [exact Hnames|exact I]|].
    do 3 (constructor; [split; exact I|]).
    constructor; [split; [exact Hrows|exact I]|].
    exact Hds.
Qed.

Lemma driver_status_track_rows (ss : list Sector) :
  forall (col_pal : Z) (track3 track3' : option Track) (fig fig' : figure),
    driver_status_track df o ss col_pal track3 fig = Ok (track3', fig') ->
    exists ds : figure,
      fig' = fig ++ ds /\ Forall (drivers_rows counted query freq driver) ds.
Proof.
  induction ss as [|sec ss' IH]; intros col_pal track3 track3' fig fig' Hrun.
  - simpl in Hrun. unfold ret in Hrun. injection Hrun as _ <-.
    exists []. now rewrite app_nil_r.
  - simpl in Hrun.
    peel_emit Hrun.
    peel_lift Hrun filtered Hfiltered.
    peel_lift Hrun data Hdata.
    peel_lift Hrun scale Hscale.
    peel_emit Hrun.
    pose proof (getitem_where_eq df filtered _ _ _ counted driver data
                  Hcounted Hdriver Hfiltered Hdata) as Hrows.
    apply IH in Hrun as (ds & -> & Hds).
    eexists (_ :: _ :: ds).
    split; [rewrite <- !app_assoc; reflexivity|].
    constructor; [split; exact I|].
    constructor; [split; [exact I|exact Hrows]|].
    exact Hds.
Qed.

Lemma drivers_compose_rows (circos : Circos) (fig : figure) :
  compose df o [] = Ok (circos, fig) ->
  Forall (drivers_rows counted query freq driver) fig.
Proof.
  intros H. unfold compose in H.
  peel_lift H circos0 Hlayout.
  peel H track1 fig1 HA.
  peel H tr1 fig1' Hlocal. apply local_Ok_inv in Hlocal as [-> ->].
  peel_emit H.
  peel_lift H max_value Hmax.
  peel H track2 fig2 HB.
  peel H tr2 fig2' Hlocal. apply local_Ok_inv in Hlocal as [-> ->].
  peel_emit H.
  peel H track3 fig3 HC.
  peel H tr3 fig3' Hlocal. apply local_Ok_inv in Hlocal as [-> ->].
  do 5 peel_emit H.
  unfold ret in H. injection H as _ <-.
  apply cancer_type_track_rows in HA as (dsA & -> & HdsA).
  apply tumor_frequency_track_rows in HB as (dsB & -> & HdsB).
  apply driver_status_track_rows in HC as (dsC & -> & HdsC).
  repeat (apply Forall_app; split); try assumption;
    repeat (constructor; try (split; exact I)).
Qed.

End CancerDriversRows.

Section HlaRows.

Import Hla.

Variable df : DataFrame.
Variable o : options.
Variables counted names energy : Series.
Hypothesis Hcounted : getitem df (track_1_data o) = Ok counted.
Hypothesis Hnames : getitem df (track_3_labels o) = Ok names.
Hypothesis Henergy : getitem df (track_3_data o) = Ok energy.

Lemma hla_cancer_type_track_rows (ss : list Sector) :
  forall (col_1 : Z) (track1 track1' : option Track) (fig fig' : figure),
    cancer_type_track ss col_1 track1 fig = Ok (track1', fig') ->
    exists ds : figure,
      fig' = fig ++ ds /\ Forall (from_rows counted names energy) ds.
Proof.
  induction ss as [|sec ss' IH]; intros col_1 track1 track1' fig fig' Hrun.
  - simpl in Hrun. unfold ret in Hrun. injection Hrun as _ <-.
    exists []. now rewrite app_nil_r.
  - simpl in Hrun. do 3 peel_emit Hrun.
    apply IH in Hrun as (ds & -> & Hds).
    eexists (_ :: _ :: _ :: ds).
    split; [rewrite <- !app_assoc; reflexivity|].
    repeat (constructor; [exact I|]). exact Hds.
Qed.

Lemma rectangles_rows (track1 : Track) (length_list : Series) (col_3 : Z)
    (range : list nat) :
  forall (fig fig' : figure) (u : unit),
    rectangles track1 length_list col_3 range fig = Ok (u, fig') ->
    exists ds : figure,
      fig' = fig ++ ds /\ Forall (from_rows counted names energy) ds.
Proof.
  induction range as [|i range' IH]; intros fig fig' u Hrun.
  - simpl in Hrun. unfold ret in Hrun. injection Hrun as _ <-.
    exists []. now rewrite app_nil_r.
  - simpl in Hrun.
    peel_emit Hrun.
    peel_lift Hrun t Ht.
    peel_emit Hrun.
    apply IH in Hrun as (ds & -> & Hds).
    eexists (_ :: _ :: ds).
    split; [rewrite <- !app_assoc; reflexivity|].
    repeat (constructor; [exact I|]). exact Hds.
Qed.

Lemma peptide_length_track_rows (ss : list Sector) :
  forall (col_3 : Z) (track1 track1' : option Track) (fig fig' : figure),
    peptide_length_track df o ss col_3 track1 fig = Ok (track1', fig') ->
    exists ds : figure,
      fig' = fig ++ ds /\ Forall (from_rows counted names energy) ds.
Proof.
  induction ss as [|sec ss' IH]; intros col_3 track1 track1' fig fig' Hrun.
  - simpl in Hrun. unfold ret in Hrun. injection Hrun as _ <-.
    exists []. now rewrite app_nil_r.
  - simpl in Hrun.
    peel_emit Hrun.
    peel_lift Hrun filtered Hfiltered.
    peel_lift Hrun length_list Hlengths.
    peel Hrun u0 fig0 Hrects.
    apply rectangles_rows in Hrects as (rects & -> & Hrects).
    apply IH in Hrun as (ds & -> & Hds).
    eexists (_ :: rects ++ ds).
    split; [simpl; rewrite <- !app_assoc; reflexivity|].
    constructor; [exact I|]. apply Forall_app. now split.
Qed.

Lemma affinity_track_rows (vmin vmax : float64) (ss : list Sector) :
  forall (col_2 : Z) (track track' : option Track) (fig fig' : figure),
    affinity_track df o vmin vmax ss col_2 track fig = Ok (track', fig') ->
    exists ds : figure,
      fig' = fig ++ ds /\ Forall (from_rows counted names energy) ds.
Proof.
  induction ss as [|sec ss' IH]; intros col_2 track track' fig fig' Hrun.
  - simpl in Hrun. unfold ret in Hrun. injection Hrun as _ <-.
    exists []. now rewrite app_nil_r.
  - simpl in Hrun.
    peel_emit Hrun.
    peel_lift Hrun filtered Hfiltered.
    peel_lift Hrun y Hy.
    peel_lift Hrun labels Hlabels.
    peel_emit Hrun.
    peel_lift Hrun ylabels Hylabels.
    do 4 peel_emit Hrun.
    pose proof (getitem_where_eq df filtered _ _ _ counted energy y
                  Hcounted Henergy Hfiltered Hy) as Hrows.
    pose proof (getitem_where_eq df filtered _ _ _ counted names labels
                  Hcounted Hnames Hfiltered Hlabels) as Hlab.
    apply IH in Hrun as (ds & -> & Hds).
    eexists (_ :: _ :: _ :: _ :: _ :: _ :: ds).
    split; [rewrite <- !app_assoc; reflexivity|].
    constructor; [exact I|].
    constructor; [exact Hlab|].
    do 3 (constructor; [exact I|]).
    constructor; [exact Hrows|].
    exact Hds.
Qed.

Lemma hla_compose_rows (circos : Circos) (fig : figure) :
  compose df o [] = Ok (circos, fig) ->
  Forall (from_rows counted names energy) fig.
Proof.
  intros H. unfold compose in H.
  peel_lift H circos0 Hlayout.
  peel H track1 fig1 HA.
  peel H tr1 fig1' Hlocal. apply local_Ok_inv in Hlocal as [-> ->].
  peel_emit H.
  peel H track1b fig2 HB.
  peel H tr2 fig2' Hlocal. apply local_Ok_inv in Hlocal as [-> ->].
  peel_emit H.
  peel_lift H min_value Hmin.
  peel H track3 fig3 HC.
  peel H tr3 fig3' Hlocal. apply local_Ok_inv in Hlocal as [-> ->].
  do 6 peel_emit H.
  unfold ret in H. injection H as _ <-.
  apply hla_cancer_type_track_rows in HA as (dsA & -> & HdsA).
  apply peptide_length_track_rows in HB as (dsB & -> & HdsB).
  apply affinity_track_rows in HC as (dsC & -> & HdsC).
  repeat (apply Forall_app; split); try assumption;
    repeat (constructor; try exact I).
Qed.

End HlaRows.

(** X15.  In a call of either renderer that returns, every series of table
    cells handed to a track is its column restricted to the rows of the
    track's own sector, in table order: the x tick labels (column [query],
    or the column named by [track_3_labels]), the bar heights, and in the
    driver renderer the heatmap cells (column [driver]).  So label k, bar k
    and heatmap cell k of a sector all belong to the k-th table row of that
    category. *)
Theorem X15_labels_bars_and_cells_share_rows :
  forall (wd wd' wh wh' : world) (pd ph : string)
         (od : CancerDrivers.options) (oh : Hla.options)
         (dfd dfh : DataFrame)
         (counted_d query freq driver counted_h names energy : Series),
    read_csv wd pd = Ok dfd ->
    getitem dfd (CancerDrivers.track_1_data od) = Ok counted_d ->
    getitem dfd "query" = Ok query ->
    getitem dfd (CancerDrivers.track_2_data od) = Ok freq ->
    getitem dfd "driver" = Ok driver ->
    CancerDrivers.plot_circos wd pd od = (Ok tt, wd') ->
    read_csv wh ph = Ok dfh ->
    getitem dfh (Hla.track_1_data oh) = Ok counted_h ->
    getitem dfh (Hla.track_3_labels oh) = Ok names ->
    getitem dfh (Hla.track_3_data oh) = Ok energy ->
    Hla.plot_circos_hla wh ph oh = (Ok tt, wh') ->
    (exists doc : document,
       wd' = savefig wd (CancerDrivers.file_name od) doc /\
       Forall (from_rows counted_d query freq) (drawn doc) /\
       Forall (heat_from_rows counted_d driver) (drawn doc)) /\
    (exists doc : document,
       wh' = savefig wh (Hla.file_name oh) doc /\
       Forall (from_rows counted_h names energy) (drawn doc)) /\
    (forall v : cell,
       combine (cells_of v counted_d query) (cells_of v counted_d freq) =
       map snd (filter (fun p => cell_eqb (fst p) v)
                       (combine counted_d (combine query freq)))).
Proof.
  intros wd wd' wh wh' pd ph od oh dfd dfh
         counted_d query freq driver counted_h names energy
         Hread_d Hcounted_d Hquery Hfreq Hdriver Hcall_d
         Hread_h Hcounted_h Hnames Henergy Hcall_h.
  split; [|split].
  - destruct (plot_circos_stages wd wd' pd od Hcall_d)
      as (df & counted & circos & fig & Hread & _ & Hcompose & ->).
    assert (df = dfd) by congruence. subst df.
    pose proof (drivers_compose_rows dfd od counted_d query freq driver
                  Hcounted_d Hquery Hfreq Hdriver circos fig Hcompose) as Hrows.
    eexists. split; [reflexivity|]. simpl.
    split; eapply Forall_impl; try exact Hrows; intros d [Ha Hb]; assumption.
  - destruct (plot_circos_hla_stages wh wh' ph oh Hcall_h)
      as (df & counted & circos & fig & Hread & _ & Hcompose & ->).
    assert (df = dfh) by congruence. subst df.
    eexists. split; [reflexivity|]. simpl.
    exact (hla_compose_rows dfh oh counted_h names energy
             Hcounted_h Hnames Henergy circos fig Hcompose).
  - intros v. apply combine_cells_of.
    + rewrite (getitem_length dfd _ query Hquery).
      now rewrite (getitem_length dfd _ counted_d Hcounted_d).
    + rewrite (getitem_length dfd _ freq Hfreq).
      now rewrite (getitem_length dfd _ counted_d Hcounted_d).
Qed.

Lemma X15_labels_bars_and_cells_share_rows_witness :
  exists wd' wh' : world,
    read_csv (on_disk df_abb) "in.tsv" = Ok df_abb /\
    getitem df_abb "Cancer_type" = Ok [txt "a"; txt "b"; txt "b"] /\
    getitem df_abb "query" = Ok [txt "g1"; txt "g2"; txt "g3"] /\
    getitem df_abb "Tumors" = Ok [num 5; num 12; num 30] /\
    getitem df_abb "driver" = Ok [num 1; num 0; num 1] /\
    CancerDrivers.plot_circos (on_disk df_abb) "in.tsv" CancerDrivers.defaults =
      (Ok tt, wd') /\
    read_csv (on_disk df_hla) "in.tsv" = Ok df_hla /\
    getitem df_hla "hla" = Ok [txt "A1"; txt "B7"; txt "B7"] /\
    getitem df_hla "pep" = Ok [txt "p1"; txt "p2"; txt "p3"] /\
    getitem df_hla "energy" = Ok [num (-25); num (-12); num (-3)] /\
    Hla.plot_circos_hla (on_disk df_hla) "in.tsv" hla_named = (Ok tt, wh') /\
    (exists doc : document,
       wd' = savefig (on_disk df_abb) "plot.pdf" doc /\
       Forall (from_rows [txt "a"; txt "b"; txt "b"] [txt "g1"; txt "g2"; txt "g3"]
                 [num 5; num 12; num 30]) (drawn doc) /\
       Forall (heat_from_rows [txt "a"; txt "b"; txt "b"] [num 1; num 0; num 1])
              (drawn doc)) /\
    (exists doc : document,
       wh' = savefig (on_disk df_hla) "plot.pdf" doc /\
       Forall (from_rows [txt "A1"; txt "B7"; txt "B7"] [txt "p1"; txt "p2"; txt "p3"]
                 [num (-25); num (-12); num (-3)]) (drawn doc)) /\
    (forall v : cell,
       combine (cells_of v [txt "a"; txt "b"; txt "b"] [txt "g1"; txt "g2"; txt "g3"])
               (cells_of v [txt "a"; txt "b"; txt "b"] [num 5; num 12; num 30]) =
       map snd (filter (fun p => cell_eqb (fst p) v)
                       (combine [txt "a"; txt "b"; txt "b"]
                          (combine [txt "g1"; txt "g2"; txt "g3"]
                                   [num 5; num 12; num 30])))).
Proof.
  eexists. eexists.
  do 11 (split; [reflexivity|]).
  apply (X15_labels_bars_and_cells_share_rows
           (on_disk df_abb) _ (on_disk df_hla) _ "in.tsv" "in.tsv"
           CancerDrivers.defaults hla_named df_abb df_hla
           [txt "a"; txt "b"; txt "b"] [txt "g1"; txt "g2"; txt "g3"]
           [num 5; num 12; num 30] [num 1; num 0; num 1]
           [txt "A1"; txt "B7"; txt "B7"] [txt "p1"; txt "p2"; txt "p3"]
           [num (-25); num (-12); num (-3)]);
    reflexivity.
Defined.
